(** * gdscript-to-md-docs: a shallow embedding of [generate_docs.py]

    The development follows the Python source top to bottom: the string
    primitives and the regular expressions the script relies on, the markup
    converter [bbcode_to_md], the four declaration parsers, the header
    parser, the declaration loop of [ClassInfo.parse_from_script] and the
    hierarchy walk of the main block.

    Modelling conventions.
    - A Python [str] is a [string]; characters are [ascii].  The embedding
      covers scripts written in 7-bit ASCII, where Python's Unicode-aware
      predicates ([str.isspace], [\s], [\w]) are the tables below.
    - An open script (a [TextIOWrapper]) is the list of the lines still to
      be read, each with its line terminator; [tell]/[seek] save and restore
      that list.
    - A Python exception is a [Raise] result.
    - Integer indices ([str.find], slices) are in [Z], with Python's
      treatment of negative indices. *)

From Stdlib Require Import ZArith Lia Ascii.
From stdpp Require Import base option list strings gmap.

Local Open Scope Z_scope.

(** ** Python string primitives *)

Module Py.

Abbreviation len := String.length.

(** [str.isspace] on one character of an ASCII text: the whitespace of
    Python 3 below 128.  Beyond ASCII Python takes further characters for
    whitespace (U+0085, U+00A0, U+2028, ...); statements about whole lines
    are therefore made for [ascii_text] lines. *)
Definition is_ws (c : ascii) : bool :=
  let n := nat_of_ascii c in
  ((9 <=? n)%nat && (n <=? 13)%nat) || ((28 <=? n)%nat && (n <=? 32)%nat).

(** [\w] on one character of an ASCII text: letters, digits and the
    underscore.  Beyond ASCII [\w] also takes the letters and digits of
    Unicode. *)
Definition is_word (c : ascii) : bool :=
  let n := nat_of_ascii c in
  ((48 <=? n)%nat && (n <=? 57)%nat) || ((65 <=? n)%nat && (n <=? 90)%nat)
  || ((97 <=? n)%nat && (n <=? 122)%nat) || (n =? 95)%nat.

(** [.] of the [re] module: every character but the newline. *)
Definition is_dot (c : ascii) : bool := negb (Ascii.eqb c "010").

Fixpoint all_chars (p : ascii -> bool) (s : string) : bool :=
  match s with
  | EmptyString => true
  | String c s' => p c && all_chars p s'
  end.

(** The scope of the character tables: a character of 7-bit ASCII, and a
    text written in it. *)
Definition is_ascii (c : ascii) : bool := (nat_of_ascii c <? 128)%nat.

Definition ascii_text (s : string) : Prop := all_chars is_ascii s = true.

Definition is_empty (s : string) : bool :=
  match s with EmptyString => true | _ => false end.

(** [s.isspace()]: at least one character and all of them whitespace. *)
Definition isspace (s : string) : bool := negb (is_empty s) && all_chars is_ws s.

Fixpoint drop (n : nat) (s : string) : string :=
  match n, s with
  | O, _ => s
  | S n', String _ s' => drop n' s'
  | S _, EmptyString => EmptyString
  end.

Fixpoint take (n : nat) (s : string) : string :=
  match n, s with
  | S n', String c s' => String c (take n' s')
  | _, _ => EmptyString
  end.

Fixpoint rev_onto (s acc : string) : string :=
  match s with
  | EmptyString => acc
  | String c s' => rev_onto s' (String c acc)
  end.

Definition rev (s : string) : string := rev_onto s EmptyString.

(** [s.startswith(p)] *)
Fixpoint startswith (p s : string) : bool :=
  match p, s with
  | EmptyString, _ => true
  | String a p', String b s' => Ascii.eqb a b && startswith p' s'
  | String _ _, EmptyString => false
  end.

(** [s.endswith(p)] *)
Definition endswith (p s : string) : bool := startswith (rev p) (rev s).

(** [sub in s] *)
Fixpoint contains (sub s : string) : bool :=
  startswith sub s ||
  match s with
  | EmptyString => false
  | String _ s' => contains sub s'
  end.

Fixpoint find_from (sub s : string) (i : Z) : Z :=
  if startswith sub s then i
  else match s with
       | EmptyString => -1
       | String _ s' => find_from sub s' (i + 1)
       end.

(** [s.find(sub)]: the first index of [sub], or [-1]. *)
Definition find (sub s : string) : Z := find_from sub s 0.

Fixpoint index_from {A} `{EqDecision A} (x : A) (l : list A) (i : nat) : option nat :=
  match l with
  | [] => None
  | y :: l' => if decide (x = y) then Some i else index_from x l' (S i)
  end.

(** [s.lstrip()], [s.rstrip()], [s.strip()] *)
Fixpoint lstrip (s : string) : string :=
  match s with
  | String c s' => if is_ws c then lstrip s' else s
  | EmptyString => EmptyString
  end.

Definition rstrip (s : string) : string := rev (lstrip (rev s)).

Definition strip (s : string) : string := rstrip (lstrip s).

(** Python's clamping of one slice bound. *)
Definition clamp (n : nat) (i : Z) : nat :=
  let l := Z.of_nat n in
  Z.to_nat (Z.min l (Z.max 0 (if i <? 0 then i + l else i))).

(** [s[lo:hi]]; an omitted bound is [None]. *)
Definition slice (s : string) (lo hi : option Z) : string :=
  let a := match lo with Some i => clamp (len s) i | None => O end in
  let b := match hi with Some j => clamp (len s) j | None => len s end in
  take (b - a) (drop a s).

(** [s[-1]], for a string known to be non-empty at the call site. *)
Definition last_char (s : string) : option ascii :=
  match rev s with
  | String c _ => Some c
  | EmptyString => None
  end.

(** [s.replace(old, new)] for a non-empty [old]: the occurrences are taken
    left to right and do not overlap; [skip] counts the characters of an
    occurrence still to be dropped. *)
Fixpoint replace_go (old new s : string) (skip : nat) : string :=
  match s with
  | EmptyString => EmptyString
  | String c s' =>
      match skip with
      | S k => replace_go old new s' k
      | O => if startswith old s
             then new +:+ replace_go old new s' (len old - 1)
             else String c (replace_go old new s' O)
      end
  end.

Definition replace (old new s : string) : string := replace_go old new s O.

(** [s.split(sep)] for a non-empty [sep], with an optional [maxsplit];
    [cur] is the piece being collected, reversed. *)
Fixpoint split_go (sep s : string) (cur : string) (skip : nat) (limit : option nat)
  : list string :=
  match s with
  | EmptyString => [rev cur]
  | String c s' =>
      match skip with
      | S k => split_go sep s' cur k limit
      | O =>
          match limit with
          | Some O => [rev cur +:+ s]
          | _ =>
              if startswith sep s
              then rev cur :: split_go sep s' EmptyString (len sep - 1) (pred <$> limit)
              else split_go sep s' (String c cur) O limit
          end
      end
  end.

Definition split (sep s : string) : list string := split_go sep s EmptyString O None.

Definition split_max (sep s : string) (n : nat) : list string :=
  split_go sep s EmptyString O (Some n).

(** [s.split()] and [s.split(maxsplit=n)]: split on runs of whitespace; the
    last piece of a limited split keeps its trailing whitespace. *)
Fixpoint words_go (s : string) (cur : string) (limit : option nat) : list string :=
  match s with
  | EmptyString => if is_empty cur then [] else [rev cur]
  | String c s' =>
      if is_ws c then
        if is_empty cur then words_go s' EmptyString limit
        else rev cur :: words_go s' EmptyString limit
      else
        match is_empty cur, limit with
        | true, Some O => [s]
        | true, _ => words_go s' (String c EmptyString) (pred <$> limit)
        | false, _ => words_go s' (String c cur) limit
        end
  end.

Definition words (s : string) : list string := words_go s EmptyString None.

Definition words_max (n : nat) (s : string) : list string :=
  words_go s EmptyString (Some n).

(** [sep.join(l)] *)
Fixpoint join (sep : string) (l : list string) : string :=
  match l with
  | [] => EmptyString
  | [x] => x
  | x :: l' => x +:+ sep +:+ join sep l'
  end.

(** Line boundaries of [str.splitlines] within ASCII; beyond it Python
    also splits at U+0085, U+2028 and U+2029. *)
Definition is_linebreak (c : ascii) : bool :=
  let n := nat_of_ascii c in
  ((10 <=? n)%nat && (n <=? 13)%nat) || ((28 <=? n)%nat && (n <=? 30)%nat).

(** [s.splitlines()]: a carriage return directly followed by a newline is
    one boundary ([after_cr] remembers the carriage return); no empty last
    line is produced after a final boundary. *)
Fixpoint splitlines_go (s : string) (cur : string) (after_cr : bool) : list string :=
  match s with
  | EmptyString => if is_empty cur then [] else [rev cur]
  | String c s' =>
      if after_cr && Ascii.eqb c "010" then splitlines_go s' cur false
      else if is_linebreak c
           then rev cur :: splitlines_go s' EmptyString (Ascii.eqb c "013")
           else splitlines_go s' (String c cur) false
  end.

Definition splitlines (s : string) : list string := splitlines_go s EmptyString false.

End Py.

Import Py.

(** ** Results that may raise *)

Inductive exn := AttributeError | IndexError | ValueError.

Inductive result (A : Type) :=
| Ok (a : A)
| Raise (e : exn).
Arguments Ok {A} a.
Arguments Raise {A} e.

#[global] Instance result_ret : MRet result := fun _ a => Ok a.

#[global] Instance result_bind : MBind result := fun _ _ f r =>
  match r with
  | Ok a => f a
  | Raise e => Raise e
  end.

(** [l[i]] on a list, raising [IndexError] out of range. *)
Definition item {A} (l : list A) (i : nat) : result A :=
  match l !! i with
  | Some x => Ok x
  | None => Raise IndexError
  end.

(** ** The fragment of [re] the script uses

    Repetition is only ever applied to a character class in the script's
    patterns, so [Star] and [Plus] take a class.  Matching is by
    backtracking, greedy, with the continuation [k] deciding whether the
    rest of the pattern accepts the remaining input. *)

Module Re.

Inductive regex :=
| Lit (l : string)
| Cls (p : ascii -> bool)
| Star (p : ascii -> bool)
| Plus (p : ascii -> bool)
| Opt (r : regex)
| Seq (r1 r2 : regex)
| Grp (n : nat) (r : regex)
| NotAhead (r : regex).

(** Group number, captured text; the latest capture of a group is first. *)
Definition caps := list (nat * string).

Definition outcome : Type := string * caps.

Fixpoint group (n : nat) (c : caps) : option string :=
  match c with
  | [] => None
  | (m, s) :: c' => if (n =? m)%nat then Some s else group n c'
  end.

Fixpoint star (p : ascii -> bool) (s : string) (k : string -> option outcome)
  : option outcome :=
  match s with
  | String a s' =>
      if p a then
        match star p s' k with
        | Some o => Some o
        | None => k s
        end
      else k s
  | EmptyString => k s
  end.

Fixpoint run (r : regex) (s : string) (c : caps)
  (k : string -> caps -> option outcome) : option outcome :=
  match r with
  | Lit l => if startswith l s then k (drop (len l) s) c else None
  | Cls p =>
      match s with
      | String a s' => if p a then k s' c else None
      | EmptyString => None
      end
  | Star p => star p s (fun s' => k s' c)
  | Plus p =>
      match s with
      | String a s' => if p a then star p s' (fun s'' => k s'' c) else None
      | EmptyString => None
      end
  | Opt r' =>
      match run r' s c k with
      | Some o => Some o
      | None => k s c
      end
  | Seq r1 r2 => run r1 s c (fun s' c' => run r2 s' c' k)
  | Grp n r' =>
      run r' s c (fun s' c' => k s' ((n, take (len s - len s') s) :: c'))
  | NotAhead r' =>
      match run r' s c (fun s' c' => Some (s', c')) with
      | Some _ => None
      | None => k s c
      end
  end.

(** [re.match(r, s)]: a match anchored at the start of [s]; the outcome is
    the unmatched rest and the groups. *)
Definition rmatch (r : regex) (s : string) : option outcome :=
  run r s [] (fun s' c' => Some (s', c')).

(** [re.search(r, s)]: the leftmost match. *)
Fixpoint search (r : regex) (s : string) : option outcome :=
  match rmatch r s with
  | Some o => Some o
  | None =>
      match s with
      | String _ s' => search r s'
      | EmptyString => None
      end
  end.

(** [re.sub(r, repl, s)] for a pattern that cannot match the empty string:
    matches are taken left to right without overlap; [skip] counts the
    characters of the current match still to be dropped. *)
Fixpoint sub_go (r : regex) (repl : caps -> string) (s : string) (skip : nat) : string :=
  match s with
  | EmptyString => EmptyString
  | String a s' =>
      match skip with
      | S n => sub_go r repl s' n
      | O =>
          match rmatch r s with
          | Some (rest, c) => repl c +:+ sub_go r repl s' (len s - len rest - 1)
          | None => String a (sub_go r repl s' O)
          end
      end
  end.

(** [len(re.findall(r, s)) > 0] *)
Definition has_match (r : regex) (s : string) : bool :=
  match search r s with
  | Some _ => true
  | None => false
  end.

Definition sub (r : regex) (repl : caps -> string) (s : string) : string :=
  sub_go r repl s O.

Definition seq (l : list regex) : regex := foldr Seq (Lit EmptyString) l.

End Re.

(** ** bbcode_to_md *)

Definition group_text (n : nat) (c : Re.caps) : string := default EmptyString (Re.group n c).

(** The image pattern: the text [[img], any run, a closing bracket, group 1
    (any run), the text [[/img]]. *)
Definition img_re : Re.regex :=
  Re.seq [Re.Lit "[img"; Re.Star is_dot; Re.Lit "]"; Re.Grp 1 (Re.Star is_dot);
          Re.Lit "[/img]"].

(** The link pattern: the text [[url=], group 1 (any run), a closing bracket,
    group 2 (any run), the text [[/url]]. *)
Definition url_re : Re.regex :=
  Re.seq [Re.Lit "[url="; Re.Grp 1 (Re.Star is_dot); Re.Lit "]";
          Re.Grp 2 (Re.Star is_dot); Re.Lit "[/url]"].

Definition newline : string := String "010" EmptyString.

Definition simple_tags : list (string * string) :=
  [("b", "**"); ("i", "_"); ("s", "~~"); ("code", "`"); ("codeblock", "```");
   ("br", newline); ("url", EmptyString)].

Definition replace_tag (text : string) (tag : string * string) : string :=
  let text := replace ("[" +:+ tag.1 +:+ "]") tag.2 text in
  replace ("[/" +:+ tag.1 +:+ "]") tag.2 text.

Definition bbcode_to_md (text : string) : string :=
  let text := Re.sub img_re (fun c => "![](" +:+ group_text 1 c +:+ ")") text in
  let text :=
    Re.sub url_re (fun c => "[" +:+ group_text 2 c +:+ "](" +:+ group_text 1 c +:+ ")") text in
  foldl replace_tag text simple_tags.

(** The tags the converter recognizes, opening and closing forms. *)
Definition recognized_tags : list string :=
  ["[img"; "[/img]"; "[url="; "[/url]"]
  ++ flat_map (fun tag => ["[" +:+ tag.1 +:+ "]"; "[/" +:+ tag.1 +:+ "]"]) simple_tags.

Definition tag_free (text : string) : Prop :=
  Forall (fun tag => contains tag text = false) recognized_tags.


(** ** The script being read

    [script] is what is left to read.  [script.readline()] takes the head,
    [script.tell()] is the list itself and [script.seek(pos)] puts a saved
    list back.  Every line is non-empty, as [readline] returns it. *)

Definition script := list string.

(** A line as [readline] returns it: the text and its newline. *)
Definition nl (s : string) : string := s +:+ newline.

Definition unpack2 (l : list string) : result (string * string) :=
  match l with
  | [a; b] => Ok (a, b)
  | _ => Raise ValueError
  end.

Fixpoint mapM {A B} (f : A -> result B) (l : list A) : result (list B) :=
  match l with
  | [] => Ok []
  | x :: l' => y ← f x; ys ← mapM f l'; Ok (y :: ys)
  end.

(** [s[-1]], raising on the empty string. *)
Definition last_item (s : string) : result ascii :=
  match last_char s with
  | Some c => Ok c
  | None => Raise IndexError
  end.

(** [s[0]], raising on the empty string. *)
Definition first_item (s : string) : result ascii :=
  match s with
  | String c _ => Ok c
  | EmptyString => Raise IndexError
  end.

(** ** ArgInfo *)

Module ArgInfo.

Record t := mk {
  name : string;
  type : option string;
  default : option string;
}.

(** One iteration of the loop of [parse_definition]. *)
Definition parse_arg (arg : string) : result t :=
  '(arg, default) ←
    (if contains "=" arg
     then '(a, d) ← unpack2 (strip <$> split "=" arg); Ok (a, Some d)
     else Ok (arg, None));
  '(name, arg_type) ←
    (if contains ":" arg
     then '(n, ty) ← unpack2 (strip <$> split ":" arg); Ok (n, Some ty)
     else Ok (arg, None));
  Ok (mk name arg_type default).

(** [ArgInfo.parse_definition].  The source calls [arg_str.replace] on the
    newline and drops the result, which leaves [arg_str] as it was. *)
Definition parse_definition (definition : string) : result (list t) :=
  let arg_str :=
    slice definition (Some (find "(" definition + 1)) (Some (find ")" definition)) in
  let _ := replace newline EmptyString arg_str in
  mapM parse_arg (split "," (strip arg_str)).

End ArgInfo.

(** ** MethodInfo *)

Module MethodInfo.

Record t := mk {
  name : string;
  description : option string;
  args : list ArgInfo.t;
  return_type : option string;
}.

(** The [while] loop: returns [args_lines], [last_line] and the position to
    seek back to. *)
Fixpoint read_signature (lines : script) (args_lines last_line : string) (file_pos : script)
  : string * string * script :=
  match lines with
  | [] => (args_lines, last_line, file_pos)
  | line :: rest =>
      let args_lines := args_lines +:+ strip line in
      let last_line := line in
      if endswith ":" (rstrip args_lines) then (args_lines, last_line, file_pos)
      else read_signature rest args_lines last_line rest
  end.

Definition parse_from_script (lines : script) (curr_line : string)
  (description : option string) : result (t * script) :=
  let '(args_lines, last_line, file_pos) := read_signature lines curr_line curr_line lines in
  args ← ArgInfo.parse_definition args_lines;
  let return_type :=
    if contains "->" last_line
    then Some (strip (slice (rstrip last_line) (Some (find "->" last_line + 2)) (Some (-1))))
    else None in
  Ok (mk (strip (slice curr_line (Some (find " " curr_line)) (Some (find "(" curr_line))))
         description args return_type,
      file_pos).

End MethodInfo.

(** ** SignalInfo *)

Module SignalInfo.

Record t := mk {
  name : string;
  description : option string;
  args : list ArgInfo.t;
}.

Fixpoint read_signature (lines : script) (args_lines : string) (file_pos : script)
  : string * script :=
  match lines with
  | [] => (args_lines, file_pos)
  | line :: rest =>
      if endswith ")" (rstrip args_lines) then (args_lines, file_pos)
      else read_signature rest (args_lines +:+ strip line) rest
  end.

Definition parse_from_script (lines : script) (curr_line : string)
  (description : option string) : result (t * script) :=
  '(args, lines) ←
    (if contains "(" curr_line
     then let '(args_lines, file_pos) := read_signature lines curr_line lines in
          args ← ArgInfo.parse_definition args_lines;
          Ok (args, file_pos)
     else Ok ([], lines));
  Ok (mk (strip (slice curr_line (Some (find " " curr_line)) (Some (find "(" curr_line))))
         description args,
      lines).

End SignalInfo.

(** ** EnumInfo *)

Module EnumInfo.

(** The keys found in [vals] at run time: the multi-line form stores a
    member name, the single-line form stores the pair it builds for each
    member, [(val, None)]. *)
Inductive key :=
| Name (val : string)
| Pair (val : string) (desc : option string).

#[global] Instance key_eq_dec : EqDecision key.
Proof. solve_decision. Defined.

(** A [dict] in insertion order. *)
Definition dict := list (key * option string).

(** [d[k] = v]: an existing key keeps its place. *)
Fixpoint setitem (k : key) (v : option string) (d : dict) : dict :=
  match d with
  | [] => [(k, v)]
  | (k', v') :: d' => if decide (k = k') then (k, v) :: d' else (k', v') :: setitem k v d'
  end.

(** [dict.fromkeys(keys)] *)
Definition fromkeys (keys : list key) : dict :=
  foldl (fun d k => setitem k None d) [] keys.

Record t := mk {
  name : string;
  description : option string;
  vals : dict;
}.

(** The [while] loop of the multi-line form; running off the end of the
    script returns [None]. *)
Fixpoint read_members (lines : script) (info : t) : result (option t * script) :=
  match lines with
  | [] => Ok (None, [])
  | line :: rest =>
      if isspace line then read_members rest info
      else
        match last_item (rstrip line) with
        | Raise e => Raise e
        | Ok c =>
            if Ascii.eqb c "}" then Ok (Some info, rest)
            else if contains "##" line then
              match unpack2 (split_max "##" line 1) with
              | Raise e => Raise e
              | Ok (value, desc) =>
                  read_members rest
                    (mk (name info) (description info)
                        (setitem (Name (replace "," EmptyString (strip value)))
                                 (Some (strip desc)) (vals info)))
              end
            else
              read_members rest
                (mk (name info) (description info)
                    (setitem (Name (replace "," EmptyString (strip line))) None (vals info)))
        end
  end.

Definition parse_from_script (lines : script) (curr_line : string)
  (description : option string) : result (option t * script) :=
  name ← item (words curr_line) 1;
  let info := mk name description [] in
  c ← last_item (rstrip curr_line);
  if Ascii.eqb c "}" then
    let values :=
      split ","
        (replace " " EmptyString
           (slice curr_line (Some (find "{" curr_line + 1)) (Some (find "}" curr_line)))) in
    Ok (Some (mk name description (fromkeys ((fun val => Pair val None) <$> values))), lines)
  else read_members lines info.

End EnumInfo.

(** ** PropertyInfo *)

Module PropertyInfo.

Record t := mk {
  name : string;
  type : option string;
  description : option string;
  default : option string;
  has_setter : bool;
  has_getter : bool;
}.

(** The pattern of [_parse_inline_getset] for the accessor [acc]:
    whitespace, [acc], whitespace, an equals sign, whitespace, group 1 (a
    word). *)
Definition getset_re (acc : string) : Re.regex :=
  Re.seq [Re.Star is_ws; Re.Lit acc; Re.Star is_ws; Re.Lit "="; Re.Star is_ws;
          Re.Grp 1 (Re.Plus is_word)].

Definition _parse_inline_getset (info : t) (text : string) : t :=
  let info :=
    if Re.has_match (getset_re "set") text
    then mk (name info) (type info) (description info) (default info) true (has_getter info)
    else info in
  if Re.has_match (getset_re "get") text
  then mk (name info) (type info) (description info) (default info) (has_setter info) true
  else info.

Definition is_g_or_s (c : ascii) : bool := Ascii.eqb c "g" || Ascii.eqb c "s".

(** The pattern of [parse_from_script]:
    - the text [var], whitespace, group 1 (a word);
    - optionally: whitespace, a colon, whitespace, not followed by
      [get =] or [set =], group 2 (a word);
    - optionally: whitespace, group 3 (an optional colon, whitespace, an
      equals sign), whitespace, group 4 (a word);
    - whitespace;
    - optionally: a colon, group 5 (a non-empty run). *)
Definition var_re : Re.regex :=
  Re.seq
    [Re.Lit "var"; Re.Plus is_ws; Re.Grp 1 (Re.Plus is_word);
     Re.Opt (Re.seq [Re.Star is_ws; Re.Lit ":"; Re.Star is_ws;
                     Re.NotAhead (Re.seq [Re.Cls is_g_or_s; Re.Lit "et"; Re.Star is_ws;
                                          Re.Lit "="]);
                     Re.Grp 2 (Re.Plus is_word)]);
     Re.Opt (Re.seq [Re.Star is_ws;
                     Re.Grp 3 (Re.seq [Re.Opt (Re.Lit ":"); Re.Star is_ws; Re.Lit "="]);
                     Re.Star is_ws; Re.Grp 4 (Re.Plus is_word)]);
     Re.Star is_ws;
     Re.Opt (Re.seq [Re.Lit ":"; Re.Grp 5 (Re.Plus is_dot)])].

(** The placeholder a container literal collapses to. *)
Definition normalize_default (default : string) : result string :=
  c ← first_item default;
  if Ascii.eqb c "{" then
    Ok (if isspace (slice default (Some 0) (Some (find "}" default))) then "{}" else "{...}")
  else if Ascii.eqb c "[" then
    Ok (if isspace (slice default (Some 0) (Some (find "]" default))) then "[]" else "[...]")
  else Ok default.

(** The [while] loop over the indented lines after the header. *)
Fixpoint read_accessors (lines : script) (info : t) (file_pos : script) : result (t * script) :=
  match lines with
  | [] => Ok (info, file_pos)
  | line :: rest =>
      match first_item line with
      | Raise e => Raise e
      | Ok c =>
          if negb (is_ws c) then Ok (info, file_pos)
          else
            let info := _parse_inline_getset info line in
            let info :=
              if startswith "set" (lstrip line)
              then mk (name info) (type info) (description info) (default info) true
                      (has_getter info)
              else if startswith "get" (lstrip line)
              then mk (name info) (type info) (description info) (default info)
                      (has_setter info) true
              else info in
            read_accessors rest info rest
      end
  end.

Definition parse_from_script (lines : script) (curr_line : string)
  (description : option string) (onready : bool) : result (t * script) :=
  match Re.rmatch var_re curr_line with
  | None => Raise AttributeError
  | Some (_, groups) =>
      name ← match Re.group 1 groups with Some n => Ok n | None => Raise AttributeError end;
      let type_hint := Re.group 2 groups in
      let default := Re.group 4 groups in
      let setget_def := Re.group 5 groups in
      let default := if onready then None else default in
      default ←
        match default with
        | Some d => d' ← normalize_default d; Ok (Some d')
        | None => Ok None
        end;
      let info := mk name type_hint description default false false in
      let info :=
        match setget_def with
        | Some text => _parse_inline_getset info text
        | None => info
        end in
      read_accessors lines info lines
  end.

End PropertyInfo.

(** ** Paths

    [pathlib.Path] on a POSIX system: a root and the path segments; empty
    segments and single dots are dropped when a string is parsed. *)

Module Path.

Record t := mk {
  root : string;
  parts : list string;
}.

Definition keep_segment (seg : string) : bool :=
  negb (is_empty seg) && negb (String.eqb seg ".").

(** [Path(s)] *)
Definition of_string (s : string) : t :=
  mk (if startswith "//" s && negb (startswith "///" s) then "//"
      else if startswith "/" s then "/" else EmptyString)
     (filter (fun seg => keep_segment seg = true) (split "/" s)).

(** [p.joinpath(q)]: a rooted [q] replaces [p]. *)
Definition joinpath (p q : t) : t :=
  if is_empty (root q) then mk (root p) (parts p ++ parts q) else q.

(** [str(p)] *)
Definition to_string (p : t) : string :=
  if is_empty (root p) && bool_decide (parts p = []) then "."
  else root p +:+ join "/" (parts p).

End Path.

(** ** ClassInfo *)

Module ClassInfo.

Record t := mk {
  file_path : Path.t;
  name : option string;
  extends : string;
  summary : option string;
  description : option string;
  signals : list SignalInfo.t;
  enums : list (option EnumInfo.t);
  properties : list PropertyInfo.t;
  methods : list MethodInfo.t;
}.

(** [ClassInfo(file_path=script_path)] *)
Definition new (file_path : Path.t) : t :=
  mk file_path None EmptyString None None [] [] [] [].

Definition set_name (ci : t) (n : string) : t :=
  mk (file_path ci) (Some n) (extends ci) (summary ci) (description ci)
     (signals ci) (enums ci) (properties ci) (methods ci).

Definition set_extends (ci : t) (e : string) : t :=
  mk (file_path ci) (name ci) e (summary ci) (description ci)
     (signals ci) (enums ci) (properties ci) (methods ci).

Definition set_docs (ci : t) (s d : option string) : t :=
  mk (file_path ci) (name ci) (extends ci) s d
     (signals ci) (enums ci) (properties ci) (methods ci).

Definition add_signal (ci : t) (x : SignalInfo.t) : t :=
  mk (file_path ci) (name ci) (extends ci) (summary ci) (description ci)
     (signals ci ++ [x]) (enums ci) (properties ci) (methods ci).

Definition add_enum (ci : t) (x : option EnumInfo.t) : t :=
  mk (file_path ci) (name ci) (extends ci) (summary ci) (description ci)
     (signals ci) (enums ci ++ [x]) (properties ci) (methods ci).

Definition add_property (ci : t) (x : PropertyInfo.t) : t :=
  mk (file_path ci) (name ci) (extends ci) (summary ci) (description ci)
     (signals ci) (enums ci) (properties ci ++ [x]) (methods ci).

Definition add_method (ci : t) (x : MethodInfo.t) : t :=
  mk (file_path ci) (name ci) (extends ci) (summary ci) (description ci)
     (signals ci) (enums ci) (properties ci) (methods ci ++ [x]).

(** The body of the header loop for one non-blank line: the class name, the
    base class and the description text it contributes. *)
Definition header_line (line : string) (class_info : t) (full_desc : string)
  (def_found : bool) : result (t * string * bool) :=
  '(class_info, line) ←
    (if startswith "class_name" line
     then n ← item (words line) 1;
          l ← item (reverse (words_max 2 line)) 0;
          Ok (set_name class_info n, l)
     else Ok (class_info, line));
  '(class_info, def_found) ←
    (if startswith "extends" line
     then e ← item (words line) 1; Ok (set_extends class_info e, true)
     else Ok (class_info, def_found));
  let full_desc :=
    if startswith "##" (lstrip line)
    then full_desc +:+ strip (slice (lstrip line) (Some 2) None) +:+ newline
    else full_desc in
  Ok (class_info, full_desc, def_found).

(** The [while] loop of [parse_script_header]. *)
Fixpoint read_header (lines : script) (class_info : t) (full_desc : string)
  (def_found : bool) (file_pos : script) : result (t * string * script) :=
  match lines with
  | [] => Ok (class_info, full_desc, file_pos)
  | line :: rest =>
      if def_found && negb (startswith "##" (lstrip line))
      then Ok (class_info, full_desc, file_pos)
      else if isspace line then read_header rest class_info full_desc def_found file_pos
      else
        match header_line line class_info full_desc def_found with
        | Raise e => Raise e
        | Ok (class_info, full_desc, def_found) =>
            read_header rest class_info full_desc def_found rest
        end
  end.

(** The split of the collected text into summary and description. *)
Definition header_docs (class_info : t) (full_desc : string) : t :=
  if is_empty full_desc then class_info
  else
    let ls := splitlines full_desc in
    match index_from EmptyString ls O with
    | None => set_docs class_info (Some (strip full_desc)) (description class_info)
    | Some i =>
        set_docs class_info
          (Some (bbcode_to_md (join newline (List.firstn i ls))))
          (Some (bbcode_to_md (join newline (List.skipn (S i) ls))))
    end.

Definition parse_script_header (lines : script) (class_info : t) : result (t * script) :=
  '(class_info, full_desc, file_pos) ← read_header lines class_info EmptyString false lines;
  Ok (header_docs class_info full_desc, file_pos).

(** A line that starts with [@] and holds nothing but that one token. *)
Definition lone_annotation (line : string) : bool :=
  startswith "@" line && bool_decide (length (words line) = 1%nat).

(** The body of the declaration loop for [line], the script being at
    [rest]; returns the script position, the buffer and the class. *)
Definition dispatch (line : string) (rest : script) (curr_docstring : string)
  (class_info : t) : result (script * string * t) :=
  if isspace line then Ok (rest, curr_docstring, class_info)
  else if startswith "##" (lstrip line)
  then Ok (rest, curr_docstring +:+ lstrip (slice line (Some 2) None), class_info)
  else if lone_annotation line then Ok (rest, curr_docstring, class_info)
  else
    '(annotation, line) ←
      (if startswith "@" line
       then '(a, l) ← unpack2 (words_max 1 line); Ok (Some a, l)
       else Ok (None, line));
    let description :=
      if is_empty curr_docstring then None else Some (bbcode_to_md curr_docstring) in
    '(rest, class_info) ←
      (if startswith "signal" line then
         '(x, rest) ← SignalInfo.parse_from_script rest line description;
         Ok (rest, add_signal class_info x)
       else if startswith "enum" line then
         '(x, rest) ← EnumInfo.parse_from_script rest line description;
         Ok (rest, add_enum class_info x)
       else if startswith "var" line then
         '(x, rest) ←
           PropertyInfo.parse_from_script rest line description
             (bool_decide (annotation = Some "@onready"));
         Ok (rest, add_property class_info x)
       else if startswith "func" line then
         '(x, rest) ← MethodInfo.parse_from_script rest line description;
         Ok (rest, add_method class_info x)
       else Ok (rest, class_info));
    Ok (rest, EmptyString, class_info).

(** The declaration loop.  A pass reads at least one line, so as many
    passes as there are lines always suffice; [None] stands for a loop cut
    short by [fuel]. *)
Fixpoint read_declarations (fuel : nat) (lines : script) (curr_docstring : string)
  (class_info : t) : option (result t) :=
  match lines with
  | [] => Some (Ok class_info)
  | line :: rest =>
      match fuel with
      | O => None
      | S fuel' =>
          match dispatch line rest curr_docstring class_info with
          | Raise e => Some (Raise e)
          | Ok (rest', curr_docstring', class_info') =>
              read_declarations fuel' rest' curr_docstring' class_info'
          end
      end
  end.

Definition parse_from_script (script_path : Path.t) (lines : script) : option (result t) :=
  match parse_script_header lines (new script_path) with
  | Raise e => Some (Raise e)
  | Ok (class_info, lines) => read_declarations (length lines) lines EmptyString class_info
  end.

End ClassInfo.

(** ** The hierarchy walk of the main block *)

Definition quote : string := String "034" EmptyString.

(** [s.removeprefix(p)] *)
Definition removeprefix (p s : string) : string :=
  if startswith p s then drop (len p) s else s.

Definition unquote (s : string) : string := replace "'" EmptyString (replace quote EmptyString s).

(** The first statement of the loop body: a reference to a script file is
    turned into the name such a script is registered under. *)
Definition normalize_base (base_class : string) : string :=
  if endswith ".gd" (unquote base_class)
  then replace "/" "-" (removeprefix "res://" (unquote base_class))
  else base_class.

(** The [while True] loop; [None] stands for a loop that has not left after
    [fuel] passes. *)
Fixpoint walk (fuel : nat) (class_infos : gmap string ClassInfo.t) (base_class : string)
  (class_path : Path.t) : option Path.t :=
  match fuel with
  | O => None
  | S fuel' =>
      let base_class := normalize_base base_class in
      let class_path := Path.joinpath (Path.of_string base_class) class_path in
      match class_infos !! base_class with
      | None => Some class_path
      | Some base => walk fuel' class_infos (ClassInfo.extends base) class_path
      end
  end.

(** The path the page of [class_name] is written to. *)
Definition md_file_path (fuel : nat) (output_dir : Path.t)
  (class_infos : gmap string ClassInfo.t) (class_name : string) : option Path.t :=
  class_info ← class_infos !! class_name;
  class_path ← walk fuel class_infos (ClassInfo.extends class_info) (Path.of_string EmptyString);
  Some (Path.joinpath (Path.joinpath output_dir class_path)
          (Path.of_string (class_name +:+ ".md"))).

(** ** Notions used in the statements *)

(** The argument list a method or a signal declaration is given. *)
Definition method_args (lines : script) (curr_line : string) : result (list ArgInfo.t) :=
  '(m, _) ← MethodInfo.parse_from_script lines curr_line None; Ok (MethodInfo.args m).

Definition signal_args (lines : script) (curr_line : string) : result (list ArgInfo.t) :=
  '(s, _) ← SignalInfo.parse_from_script lines curr_line None; Ok (SignalInfo.args s).

(** The default a property declaration is given. *)
Definition property_default (curr_line : string) : result (option string) :=
  '(p, _) ← PropertyInfo.parse_from_script [] curr_line None false;
  Ok (PropertyInfo.default p).

(** The members a single-line enum declaration is given. *)
Definition enum_vals (curr_line : string) : result (option EnumInfo.dict) :=
  '(e, _) ← EnumInfo.parse_from_script [] curr_line None; Ok (EnumInfo.vals <$> (e : option EnumInfo.t)).

(** The four texts a container default is meant to collapse to. *)
Definition placeholders : list string := ["{}"; "{...}"; "[]"; "[...]"].

(** A non-empty run of word characters. *)
Definition word (s : string) : Prop := s <> EmptyString /\ all_chars is_word s = true.

(** Every capture of group [n] is a word. *)
Definition captures_words (n : nat) (c : Re.caps) : Prop :=
  Forall (fun e => e.1 = n -> word e.2) c.

(** Group [n] of the pattern, wherever it occurs, is a run of word
    characters. *)
Fixpoint group_is_word (n : nat) (r : Re.regex) : Prop :=
  match r with
  | Re.Grp m r' => (m = n -> r' = Re.Plus is_word) /\ group_is_word n r'
  | Re.Opt r' => group_is_word n r'
  | Re.NotAhead r' => group_is_word n r'
  | Re.Seq r1 r2 => group_is_word n r1 /\ group_is_word n r2
  | _ => True
  end.

(** What a match of [r] on [s] with the groups [c] leaves: the rest [s']
    and the groups [c']. *)
Fixpoint leaves (r : Re.regex) (s : string) (c : Re.caps) (s' : string) (c' : Re.caps)
  : Prop :=
  match r with
  | Re.Lit l => startswith l s = true /\ s' = drop (len l) s /\ c' = c
  | Re.Cls p => (exists a, s = String a s' /\ p a = true) /\ c' = c
  | Re.Star p => (exists w, s = w +:+ s' /\ all_chars p w = true) /\ c' = c
  | Re.Plus p =>
      (exists w, s = w +:+ s' /\ all_chars p w = true /\ w <> EmptyString) /\ c' = c
  | Re.Opt r' => leaves r' s c s' c' \/ (s' = s /\ c' = c)
  | Re.Seq r1 r2 => exists s1 c1, leaves r1 s c s1 c1 /\ leaves r2 s1 c1 s' c'
  | Re.Grp n r' =>
      exists c1, leaves r' s c s' c1 /\ c' = (n, take (len s - len s') s) :: c1
  | Re.NotAhead r' => s' = s /\ c' = c
  end.

(** The header loop takes [line] for a base-class declaration: the line, or
    what follows the class name on it, starts with [extends]. *)
Definition declares_base (line : string) : bool :=
  match (if startswith "class_name" line
         then item (reverse (words_max 2 line)) 0
         else Ok line) with
  | Ok l => startswith "extends" l
  | Raise _ => false
  end.

(** The text of a documentation comment as it reaches the description:
    it starts and ends with a character that is not whitespace and holds no
    line boundary. *)
Definition comment_text (s : string) : bool :=
  match s with
  | String c _ => negb (is_ws c)
  | EmptyString => false
  end
  && String.eqb (rstrip s) s
  && all_chars (fun c => negb (is_linebreak c)) s.

(** The line after the header, if any, is not a documentation comment. *)
Definition ends_header (rest : script) : bool :=
  match rest with
  | [] => true
  | line :: _ => negb (startswith "##" (lstrip line))
  end.

(** A [class_name] line that gives no name. *)
Definition lacks_class_name (line : string) : bool :=
  startswith "class_name" line && bool_decide (length (words line) < 2)%nat.

Definition blank (line : string) : Prop := isspace line = true.

Definition no_members (class_info : ClassInfo.t) : Prop :=
  ClassInfo.signals class_info = [] /\ ClassInfo.enums class_info = []
  /\ ClassInfo.properties class_info = [] /\ ClassInfo.methods class_info = [].

(** The parsed class a class refers to as its base, by the name it is
    looked up under. *)
Definition parent (class_infos : gmap string ClassInfo.t) (class_name : string)
  : option string :=
  class_info ← class_infos !! class_name;
  Some (normalize_base (ClassInfo.extends class_info)).

Fixpoint ancestor (n : nat) (class_infos : gmap string ClassInfo.t) (class_name : string)
  : option string :=
  match n with
  | O => Some class_name
  | S n' => base ← parent class_infos class_name; ancestor n' class_infos base
  end.

(** The references a walk that starts at [base_class] goes through, as
    they are looked up: the parsed ancestors, nearest first, and last the
    reference that names no parsed class. *)
Inductive visits (class_infos : gmap string ClassInfo.t) : string -> list string -> Prop :=
| visits_last base_class :
    class_infos !! normalize_base base_class = None ->
    visits class_infos base_class [normalize_base base_class]
| visits_more base_class base segs :
    class_infos !! normalize_base base_class = Some base ->
    visits class_infos (ClassInfo.extends base) segs ->
    visits class_infos base_class (normalize_base base_class :: segs).

(** The class path after the references [segs] were put in front of it. *)
Definition prepend_all (segs : list string) (class_path : Path.t) : Path.t :=
  foldl (fun acc seg => Path.joinpath (Path.of_string seg) acc) class_path segs.

(** A class that only records its base class. *)
Definition extending (file : string) (base_class : string) : ClassInfo.t :=
  ClassInfo.set_extends (ClassInfo.new (Path.of_string file)) base_class.

(** [suffix s' s]: [s'] is what is left of [s] after some characters. *)
Inductive suffix : string -> string -> Prop :=
| suffix_refl s : suffix s s
| suffix_cons a s' s : suffix s' s -> suffix s' (String a s).

(** ** Sample projects *)

(** A project of three classes, [A] extends [B], [B] extends [C], [C]
    extends the engine type [Node]. *)
Definition three_classes : gmap string ClassInfo.t :=
  <["A" := extending "a.gd" "B"]>
    (<["B" := extending "b.gd" "C"]> (<["C" := extending "c.gd" "Node"]> ∅)).

(** Two classes that extend each other. *)
Definition two_in_a_cycle : gmap string ClassInfo.t :=
  <["A" := extending "a.gd" "B"]> (<["B" := extending "b.gd" "A"]> ∅).


(** ** Further notions used in the statements *)

(** A script written in ASCII: on its lines [is_ws], [is_word] and
    [is_linebreak] are what [str.isspace], [\w] and [str.splitlines] of
    Python take. *)
Definition ascii_script (lines : script) : Prop := Forall ascii_text lines.

(** No whitespace in [s]. *)
Definition spaceless (s : string) : Prop := all_chars (fun c => negb (is_ws c)) s = true.

(** A documentation comment: the line, after its indentation, starts with
    two hashes. *)
Definition is_comment (line : string) : bool := startswith "##" (lstrip line).

(** The header fields of two classes agree. *)
Definition same_header (a b : ClassInfo.t) : Prop :=
  ClassInfo.file_path a = ClassInfo.file_path b
  /\ ClassInfo.name a = ClassInfo.name b
  /\ ClassInfo.extends a = ClassInfo.extends b
  /\ ClassInfo.summary a = ClassInfo.summary b
  /\ ClassInfo.description a = ClassInfo.description b.

(** [b] has the members of [a], in the same order, and possibly more after
    them. *)
Definition members_extended (a b : ClassInfo.t) : Prop :=
  (exists more, ClassInfo.signals b = ClassInfo.signals a ++ more)
  /\ (exists more, ClassInfo.enums b = ClassInfo.enums a ++ more)
  /\ (exists more, ClassInfo.properties b = ClassInfo.properties a ++ more)
  /\ (exists more, ClassInfo.methods b = ClassInfo.methods a ++ more).

(** A class with one signal. *)
Definition one_signal_class : ClassInfo.t :=
  ClassInfo.add_signal (extending "a.gd" "Node") (SignalInfo.mk "hit" None []).

(** The lines of [lines] that were read when the script stands at [pos]. *)
Definition read_up_to (lines pos read : script) : Prop := lines = read ++ pos.

(** The header loop takes [line] for a documentation comment: the line, or
    what follows the class name on it, is one. *)
Definition header_comment (line : string) : bool :=
  match (if startswith "class_name" line
         then item (reverse (words_max 2 line)) 0
         else Ok line) with
  | Ok l => is_comment l
  | Raise _ => false
  end.

(** The description text collected from the comments [texts]: each text
    followed by a newline. *)
Definition unlines (texts : list string) : string :=
  foldr (fun s acc => s +:+ newline +:+ acc) EmptyString texts.

(** The documentation comment lines for [texts]. *)
Definition comment_lines (texts : list string) : script :=
  (fun s => nl ("## " +:+ s)) <$> texts.

(** The first character of [s] is in the class [p]. *)
Definition starts_in (p : ascii -> bool) (s : string) : bool :=
  match s with
  | String c _ => p c
  | EmptyString => false
  end.

(** A pattern that matches the empty text wherever it is tried. *)
Fixpoint optional (r : Re.regex) : Prop :=
  match r with
  | Re.Opt _ => True
  | Re.Star _ => True
  | Re.Lit l => l = EmptyString
  | Re.Seq r1 r2 => optional r1 /\ optional r2
  | _ => False
  end.

(** Group [n] occurs in the pattern. *)
Fixpoint mentions (n : nat) (r : Re.regex) : Prop :=
  match r with
  | Re.Grp m r' => m = n \/ mentions n r'
  | Re.Opt r' => mentions n r'
  | Re.NotAhead r' => mentions n r'
  | Re.Seq r1 r2 => mentions n r1 \/ mentions n r2
  | _ => False
  end.

(** The lines the property parser accepts: [var], whitespace, a word. *)
Definition var_shape (line : string) : Prop :=
  exists ws n rest,
    line = "var" +:+ ws +:+ n +:+ rest
    /\ ws <> EmptyString /\ all_chars is_ws ws = true /\ word n.

(** No line of the script is the empty string. *)
Definition lines_ok (lines : script) : Prop := Forall (fun line => line <> EmptyString) lines.

(** The number of occurrences of the character [c] in [s]. *)
Fixpoint count_char (c : ascii) (s : string) : nat :=
  match s with
  | EmptyString => O
  | String a s' => (if Ascii.eqb c a then 1 else 0) + count_char c s'
  end.

(** The text [parse_definition] takes for the parameter list. *)
Definition param_text (definition : string) : string :=
  strip (slice definition (Some (find "(" definition + 1)) (Some (find ")" definition))).

(** A line that ends a multi-line enum: it is not blank and its last
    character that is not whitespace is a closing brace. *)
Definition closes_enum (line : string) : bool :=
  negb (isspace line) && bool_decide (last_char (rstrip line) = Some "}"%char).

(** A line that belongs to the accessor block of a property: its first
    character is whitespace. *)
Definition indented (line : string) : bool := starts_in is_ws line.

(** What marks a setter, and a getter, on a line of the accessor block. *)
Definition setter_evidence (line : string) : bool :=
  Re.has_match (PropertyInfo.getset_re "set") line || startswith "set" (lstrip line).

Definition getter_evidence (line : string) : bool :=
  Re.has_match (PropertyInfo.getset_re "get") line || startswith "get" (lstrip line).

(** ** The registry of the main block

    The scripts of the project are given in the order [rglob] finds them,
    each by its path relative to the project directory and its lines.  The
    directory of the script templates is given by its segments below the
    project directory. *)

(** [dir in path.parents] for a directory and a path below the project
    directory: the segments of [dir] start those of [path], which has more. *)
Fixpoint in_parents (dir path : list string) : bool :=
  match dir, path with
  | [], _ :: _ => true
  | d :: dir', p :: path' => String.eqb d p && in_parents dir' path'
  | _, [] => false
  end.

(** The first statement of the loop over the scripts: add-ons and script
    templates are skipped. *)
Definition skipped (templates : list string) (script_path : Path.t) : bool :=
  in_parents ["addons"] (Path.parts script_path)
  || in_parents templates (Path.parts script_path).

(** The name an unnamed script is registered under: its segments joined by
    dashes. *)
Definition path_based_name (script_path : Path.t) : string :=
  join "-" (Path.parts script_path).

(** One pass of the loop over the scripts, after the script was parsed. *)
Definition register (named_only : bool) (class_infos : gmap string ClassInfo.t)
  (script_path : Path.t) (class_info : ClassInfo.t) : gmap string ClassInfo.t :=
  match ClassInfo.name class_info with
  | Some name => <[name := class_info]> class_infos
  | None =>
      if named_only then class_infos
      else <[path_based_name script_path := class_info]> class_infos
  end.

(** The loop over the scripts.  An exception of a parse ends it; [None]
    stands for a parse cut short by its fuel. *)
Fixpoint collect (named_only : bool) (templates : list string)
  (scripts : list (Path.t * script)) (class_infos : gmap string ClassInfo.t)
  : option (result (gmap string ClassInfo.t)) :=
  match scripts with
  | [] => Some (Ok class_infos)
  | (script_path, lines) :: rest =>
      if skipped templates script_path then collect named_only templates rest class_infos
      else
        match ClassInfo.parse_from_script script_path lines with
        | Some (Ok class_info) =>
            collect named_only templates rest
              (register named_only class_infos script_path class_info)
        | Some (Raise e) => Some (Raise e)
        | None => None
        end
  end.

(** The key a parsed script is registered under, if it is registered. *)
Definition registered_key (named_only : bool) (script_path : Path.t)
  (class_info : ClassInfo.t) : option string :=
  match ClassInfo.name class_info with
  | Some name => Some name
  | None => if named_only then None else Some (path_based_name script_path)
  end.

(** The way a script refers to the script at [script_path] as its base
    class: the quoted resource path. *)
Definition res_reference (script_path : Path.t) : string :=
  quote +:+ "res://" +:+ join "/" (Path.parts script_path) +:+ quote.

(** A segment of a script path: ASCII, with no slash, no quote and no
    whitespace in it. *)
Definition plain_segment (seg : string) : Prop :=
  contains "/" seg = false /\ contains quote seg = false /\ contains "'" seg = false
  /\ ascii_text seg /\ spaceless seg.

(** A small project: a named class, an unnamed script and an add-on. *)
Definition small_project : list (Path.t * script) :=
  [(Path.of_string "player.gd", [nl "class_name Player"; nl "extends Node"]);
   (Path.of_string "ui/menu.gd", [nl "extends Control"]);
   (Path.of_string "addons/tool/plugin.gd", [nl "class_name Plugin"; nl "extends Node"])].

(** Two scripts that declare the same class name, and a third script. *)
Definition first_player : Path.t * script :=
  (Path.of_string "a/player.gd", [nl "class_name Player"; nl "extends Node"]).

Definition second_player : Path.t * script :=
  (Path.of_string "b/player.gd", [nl "class_name Player"; nl "extends Control"]).

Definition enemy_script : Path.t * script :=
  (Path.of_string "enemy.gd", [nl "extends Node"]).

(** A named, documented script without a base class, ending in a blank
    line. *)
Definition player_without_base : script :=
  [nl "class_name Player"; nl "## A player."; nl "var speed = 1"; nl "func run():";
   nl "  pass"; newline].
(** ** Facts about the string primitives *)

#[local] Hint Constructors suffix : core.

Lemma suffix_trans s1 s2 s3 : suffix s1 s2 -> suffix s2 s3 -> suffix s1 s3.
Proof. intros H12 H23. induction H23; auto. Qed.

Lemma suffix_tail a s' s : suffix (String a s') s -> suffix s' s.
Proof. intros H. eapply suffix_trans; [|exact H]. auto. Qed.

Lemma suffix_drop n s : suffix (drop n s) s.
Proof.
  revert s. induction n as [|n IH]; intros [|a s]; simpl; auto.
Qed.

Lemma contains_false_suffix sub s' s :
  contains sub s = false -> suffix s' s -> startswith sub s' = false.
Proof.
  intros Hc Hs. induction Hs as [s|a s' s Hs IH].
  - destruct s; simpl in Hc; apply orb_false_iff in Hc; tauto.
  - simpl in Hc. apply orb_false_iff in Hc. tauto.
Qed.

Lemma contains_suffix_false sub s' s :
  contains sub s = false -> suffix s' s -> contains sub s' = false.
Proof.
  intros Hc Hs. induction Hs as [s|a s' s Hs IH]; [done|].
  simpl in Hc. apply orb_false_iff in Hc. tauto.
Qed.

Lemma contains_false_tail sub a s :
  contains sub (String a s) = false -> contains sub s = false.
Proof. simpl. intros H. apply orb_false_iff in H. tauto. Qed.

Lemma contains_false_head sub s :
  contains sub s = false -> startswith sub s = false.
Proof. intros H. eapply contains_false_suffix; eauto. Qed.

Lemma replace_go_absent old new s :
  contains old s = false -> replace_go old new s O = s.
Proof.
  induction s as [|a s IH]; intros Hc; [reflexivity|].
  cbn [replace_go]. rewrite (contains_false_head _ _ Hc).
  f_equal. apply IH. eapply contains_false_tail; eauto.
Qed.

Lemma replace_absent old new s : contains old s = false -> replace old new s = s.
Proof. apply replace_go_absent. Qed.

(** ** Facts about the matcher *)

Module ReFacts.
Import Re.

(** A successful run called its continuation on a suffix of the input. *)
Lemma star_suffix p s k o :
  star p s k = Some o -> exists s', suffix s' s /\ k s' = Some o.
Proof.
  revert o. induction s as [|a s IH]; intros o; simpl.
  - eauto.
  - destruct (p a); [|eauto].
    destruct (star p s k) as [o'|] eqn:E.
    + intros [= <-]. destruct (IH _ eq_refl) as (s' & Hs & Hk). eauto.
    + eauto.
Qed.

Lemma run_suffix r : forall s c k o,
  run r s c k = Some o -> exists s' c', suffix s' s /\ k s' c' = Some o.
Proof.
  induction r as [l|p|p|p|r IH|r1 IH1 r2 IH2|n r IH|r IH]; intros s c k o; simpl.
  - destruct (startswith l s); [|discriminate]. intros H.
    exists (drop (len l) s), c. split; [apply suffix_drop|done].
  - destruct s as [|a s]; [discriminate|]. destruct (p a); [|discriminate]. eauto.
  - intros H. apply star_suffix in H as (s' & Hs & Hk). eauto.
  - destruct s as [|a s]; [discriminate|]. destruct (p a); [|discriminate].
    intros H. apply star_suffix in H as (s' & Hs & Hk). eauto.
  - destruct (run r s c k) as [o'|] eqn:E.
    + intros [= <-]. eauto.
    + eauto.
  - intros H. apply IH1 in H as (s1 & c1 & Hs1 & H).
    apply IH2 in H as (s2 & c2 & Hs2 & H).
    exists s2, c2. split; [eapply suffix_trans; eauto|done].
  - intros H. apply IH in H as (s1 & c1 & Hs1 & H). eauto.
  - destruct (run r s c _); [discriminate|]. eauto.
Qed.

(** A pattern that ends in a literal matches only where the literal occurs
    further on. *)
Lemma run_seq_absent l rs : forall s c k,
  contains l s = false -> run (seq (rs ++ [Lit l])) s c k = None.
Proof.
  induction rs as [|r rs IH]; intros s c k Hc; cbn [seq app foldr run].
  - by rewrite (contains_false_head _ _ Hc).
  - destruct (run r s c _) as [o|] eqn:E; [|done].
    apply run_suffix in E as (s' & c' & Hs & E).
    unfold seq in IH. rewrite IH in E; [discriminate|].
    eapply contains_suffix_false; eauto.
Qed.

Lemma sub_go_no_match r repl s :
  (forall s', suffix s' s -> rmatch r s' = None) -> sub_go r repl s O = s.
Proof.
  induction s as [|a s IH]; intros H; [reflexivity|].
  cbn [sub_go]. rewrite (H _ (suffix_refl _)). f_equal. apply IH. auto.
Qed.

End ReFacts.

Lemma sub_absent l rs repl text :
  contains l text = false -> Re.sub (Re.seq (rs ++ [Re.Lit l])) repl text = text.
Proof.
  intros Hc. apply ReFacts.sub_go_no_match. intros s' Hs.
  apply ReFacts.run_seq_absent. eapply contains_suffix_false; eauto.
Qed.

(** The closing tags alone decide: without them nothing is rewritten. *)
Lemma bbcode_to_md_no_closing text :
  contains "[/img]" text = false ->
  contains "[/url]" text = false ->
  Forall (fun tag => contains ("[" +:+ tag.1 +:+ "]") text = false
                     /\ contains ("[/" +:+ tag.1 +:+ "]") text = false) simple_tags ->
  bbcode_to_md text = text.
Proof.
  intros Himg Hurl Hsimple. unfold bbcode_to_md.
  rewrite (sub_absent "[/img]"
             [Re.Lit "[img"; Re.Star is_dot; Re.Lit "]"; Re.Grp 1 (Re.Star is_dot)])
    by done.
  rewrite (sub_absent "[/url]"
             [Re.Lit "[url="; Re.Grp 1 (Re.Star is_dot); Re.Lit "]";
              Re.Grp 2 (Re.Star is_dot)])
    by done.
  induction Hsimple as [|tag tags [Ho Hc] _ IH]; [reflexivity|].
  cbn [foldl]. unfold replace_tag at 2.
  rewrite (replace_absent _ _ _ Ho), (replace_absent _ _ _ Hc). exact IH.
Qed.

(** C9. A text that contains none of the recognized markup tags (image,
    url, bold, italic, strikethrough, inline code, code block, line break)
    is returned unchanged by [bbcode_to_md]. *)
Theorem bbcode_to_md_tag_free text : tag_free text -> bbcode_to_md text = text.
Proof.
  unfold tag_free, recognized_tags. intros H.
  apply Forall_app in H as [Hfix Hsimple].
  apply bbcode_to_md_no_closing.
  - by apply Forall_cons in Hfix as [_ [? _]%Forall_cons].
  - by apply Forall_cons in Hfix as [_ [_ [_ [? _]%Forall_cons]%Forall_cons]%Forall_cons].
  - clear Hfix. induction simple_tags as [|tag tags IH]; [constructor|].
    cbn [flat_map app] in Hsimple.
    apply Forall_cons in Hsimple as [Ho [Hc Hrest]%Forall_cons].
    constructor; auto.
Qed.

(** A description with brackets and stars but no tag. *)
Lemma bbcode_to_md_tag_free_witness :
  tag_free "Emitted when [the] item_count changes; see a[0] and *notes*."
  /\ bbcode_to_md "Emitted when [the] item_count changes; see a[0] and *notes*."
     = "Emitted when [the] item_count changes; see a[0] and *notes*.".
Proof.
  assert (H : tag_free "Emitted when [the] item_count changes; see a[0] and *notes*.").
  { unfold tag_free, recognized_tags. cbn [flat_map simple_tags app fst].
    repeat constructor. }
  split; [exact H | exact (bbcode_to_md_tag_free _ H)].
Defined.

(** ** Facts about concatenation, search and slices *)

Lemma sapp_cons a s t : String a s +:+ t = String a (s +:+ t).
Proof. reflexivity. Qed.

Lemma sapp_nil_l s : EmptyString +:+ s = s.
Proof. reflexivity. Qed.

Lemma sapp_nil_r s : s +:+ EmptyString = s.
Proof. induction s as [|a s IH]; [done|]. by rewrite sapp_cons, IH. Qed.

Lemma sapp_assoc s t u : (s +:+ t) +:+ u = s +:+ t +:+ u.
Proof. induction s as [|a s IH]; [done|]. by rewrite !sapp_cons, IH. Qed.

Lemma len_app s t : len (s +:+ t) = (len s + len t)%nat.
Proof. induction s as [|a s IH]; [done|]. rewrite sapp_cons. simpl. by rewrite IH. Qed.

Lemma find_from_skip c pre rest i :
  contains (String c EmptyString) pre = false ->
  find_from (String c EmptyString) (pre +:+ rest) i
  = find_from (String c EmptyString) rest (i + Z.of_nat (len pre)).
Proof.
  revert i. induction pre as [|a pre IH]; intros i Hc.
  - rewrite sapp_nil_l. simpl. f_equal. lia.
  - rewrite sapp_cons. simpl in Hc. apply orb_false_iff in Hc as [Ha Hc].
    cbn [find_from startswith]. rewrite andb_true_r in Ha. rewrite andb_true_r, Ha.
    rewrite IH by done. f_equal. simpl len. lia.
Qed.

Lemma slice_empty s i : slice s (Some i) (Some i) = EmptyString.
Proof. unfold slice. rewrite Nat.sub_diag. by destruct (drop _ s). Qed.

(** ** Empty parameter lists *)

Lemma parse_definition_empty pre post :
  contains "(" pre = false -> contains ")" pre = false ->
  ArgInfo.parse_definition (pre +:+ "()" +:+ post) = Ok [ArgInfo.mk EmptyString None None].
Proof.
  intros Ho Hc. unfold ArgInfo.parse_definition, find.
  rewrite (find_from_skip "(") by done. rewrite (find_from_skip ")") by done.
  rewrite !sapp_cons, sapp_nil_l. cbn [find_from startswith Ascii.eqb Bool.eqb andb].
  by rewrite slice_empty.
Qed.

Lemma method_read_signature_extends lines : forall args_lines last_line file_pos,
  exists extra, (MethodInfo.read_signature lines args_lines last_line file_pos).1.1
                = args_lines +:+ extra.
Proof.
  induction lines as [|line rest IH]; intros args_lines last_line file_pos; simpl.
  - exists EmptyString. by rewrite sapp_nil_r.
  - destruct (endswith _ _); simpl; [by eexists|].
    destruct (IH (args_lines +:+ strip line) line rest) as [extra ->].
    exists (strip line +:+ extra). by rewrite sapp_assoc.
Qed.

Lemma signal_read_signature_extends lines : forall args_lines file_pos,
  exists extra, (SignalInfo.read_signature lines args_lines file_pos).1 = args_lines +:+ extra.
Proof.
  induction lines as [|line rest IH]; intros args_lines file_pos; simpl.
  - exists EmptyString. by rewrite sapp_nil_r.
  - destruct (endswith _ _); simpl; [exists EmptyString; by rewrite sapp_nil_r|].
    destruct (IH (args_lines +:+ strip line) rest) as [extra ->].
    exists (strip line +:+ extra). by rewrite sapp_assoc.
Qed.

Lemma contains_app_head sub s t : startswith sub t = true -> contains sub (s +:+ t) = true.
Proof.
  intros H. induction s as [|a s IH].
  - rewrite sapp_nil_l. destruct t; simpl; by rewrite H.
  - rewrite sapp_cons. simpl. rewrite IH. apply orb_true_r.
Qed.

(** C10. A method or a signal declared with the empty parameter list [()]
    gets one argument, whose name is the empty string and whose type and
    default are absent. *)
Theorem empty_parameter_list_one_arg pre post lines description :
  contains "(" pre = false -> contains ")" pre = false ->
  (exists m rest,
     MethodInfo.parse_from_script lines (pre +:+ "()" +:+ post) description = Ok (m, rest)
     /\ MethodInfo.args m = [ArgInfo.mk EmptyString None None])
  /\ (exists s rest,
        SignalInfo.parse_from_script lines (pre +:+ "()" +:+ post) description = Ok (s, rest)
        /\ SignalInfo.args s = [ArgInfo.mk EmptyString None None]).
Proof.
  intros Ho Hc. split.
  - unfold MethodInfo.parse_from_script.
    destruct (method_read_signature_extends lines (pre +:+ "()" +:+ post)
                (pre +:+ "()" +:+ post) lines) as [extra He].
    destruct (MethodInfo.read_signature _ _ _ _) as [[args_lines last_line] file_pos].
    simpl in He. subst args_lines. rewrite !sapp_assoc.
    rewrite parse_definition_empty by done. simpl. eauto.
  - unfold SignalInfo.parse_from_script.
    rewrite contains_app_head by done.
    destruct (signal_read_signature_extends lines (pre +:+ "()" +:+ post) lines)
      as [extra He].
    destruct (SignalInfo.read_signature _ _ _) as [args_lines file_pos].
    simpl in He. subst args_lines. rewrite !sapp_assoc.
    rewrite parse_definition_empty by done. simpl. eauto.
Qed.

(** The declaration [func _ready():] followed by its body. *)
Lemma empty_parameter_list_one_arg_witness :
  contains "(" "func _ready" = false /\ contains ")" "func _ready" = false
  /\ (exists m rest,
        MethodInfo.parse_from_script [nl "  pass"] ("func _ready" +:+ "()" +:+ nl ":") None
        = Ok (m, rest)
        /\ MethodInfo.args m = [ArgInfo.mk EmptyString None None])
  /\ (exists s rest,
        SignalInfo.parse_from_script [nl "  pass"] ("func _ready" +:+ "()" +:+ nl ":") None
        = Ok (s, rest)
        /\ SignalInfo.args s = [ArgInfo.mk EmptyString None None]).
Proof.
  split; [reflexivity|]. split; [reflexivity|].
  apply (empty_parameter_list_one_arg "func _ready" (nl ":") [nl "  pass"] None); reflexivity.
Defined.

(** ** Parameter lists over several lines *)

(** C8. The parameter list [a,b] of a method is read as the arguments [a]
    and [b] when it stands on one line; split after the comma, the same
    text gives a second argument whose name starts with the line feed of
    the first line.  The same holds for a signal. *)
Theorem split_parameter_list_differs :
  strip (nl "func f(a,") +:+ strip (nl "b):") = strip (nl "func f(a,b):")
  /\ method_args [nl "  pass"] (nl "func f(a,b):")
     = Ok [ArgInfo.mk "a" None None; ArgInfo.mk "b" None None]
  /\ method_args [nl "b):"; nl "  pass"] (nl "func f(a,")
     = Ok [ArgInfo.mk "a" None None; ArgInfo.mk (newline +:+ "b") None None]
  /\ signal_args [] (nl "signal s(a,b)")
     = Ok [ArgInfo.mk "a" None None; ArgInfo.mk "b" None None]
  /\ signal_args [nl "b)"] (nl "signal s(a,")
     = Ok [ArgInfo.mk "a" None None; ArgInfo.mk (newline +:+ "b") None None].
Proof. repeat split; reflexivity. Qed.

(** ** Defaults of properties *)

(** C3. A list or dictionary literal after the equals sign is not taken as
    the default at all: the default of the pattern is a word, so the
    property is left without a default and the placeholders are never
    chosen.  Called on such a literal directly, the normalization gives
    the non-empty placeholder for the empty literal too. *)
Theorem container_default_is_dropped :
  property_default (nl "var items = []") = Ok None
  /\ property_default (nl "var items = [1,2,3]") = Ok None
  /\ property_default (nl "var table = {}") = Ok None
  /\ property_default (nl ("var table = {" +:+ quote +:+ "a" +:+ quote +:+ ":1}")) = Ok None
  /\ PropertyInfo.normalize_default "[]" = Ok "[...]"
  /\ PropertyInfo.normalize_default "{}" = Ok "{...}".
Proof. repeat split; reflexivity. Qed.

(** The matcher is sound for [leaves]. *)
Lemma star_leaves p s k o :
  Re.star p s k = Some o ->
  exists w s', s = w +:+ s' /\ all_chars p w = true /\ k s' = Some o.
Proof.
  revert o. induction s as [|a s IH]; intros o; simpl.
  - intros H. by exists EmptyString, EmptyString.
  - destruct (p a) eqn:Hp; [|intros H; by exists EmptyString, (String a s)].
    destruct (Re.star p s k) as [o'|] eqn:E.
    + intros [= <-]. destruct (IH _ eq_refl) as (w & s' & -> & Hw & Hk).
      exists (String a w), s'. rewrite sapp_cons. simpl. by rewrite Hp, Hw.
    + intros H. by exists EmptyString, (String a s).
Qed.

Lemma run_leaves r : forall s c k o,
  Re.run r s c k = Some o -> exists s' c', leaves r s c s' c' /\ k s' c' = Some o.
Proof.
  induction r as [l|p|p|p|r IH|r1 IH1 r2 IH2|n r IH|r IH]; intros s c k o;
    cbn [Re.run leaves].
  - destruct (startswith l s) eqn:E; [|done]. intros H. by eexists _, _.
  - destruct s as [|a s]; [done|]. destruct (p a) eqn:E; [|done]. intros H.
    exists s, c. eauto 6.
  - intros H. apply star_leaves in H as (w & s' & -> & Hw & Hk).
    exists s', c. eauto 6.
  - destruct s as [|a s]; [done|]. destruct (p a) eqn:E; [|done].
    intros H. apply star_leaves in H as (w & s' & -> & Hw & Hk).
    exists s', c. split; [|done]. split; [|done].
    exists (String a w). rewrite sapp_cons. simpl. by rewrite E, Hw.
  - destruct (Re.run r s c k) as [o'|] eqn:E.
    + intros [= <-]. apply IH in E as (s' & c' & Hl & Hk). eauto 6.
    + intros H. exists s, c. eauto.
  - intros H. apply IH1 in H as (s1 & c1 & Hl1 & H).
    apply IH2 in H as (s2 & c2 & Hl2 & H). eauto 8.
  - intros H. apply IH in H as (s1 & c1 & Hl1 & H). eauto 6.
  - destruct (Re.run r s c _); [done|]. intros H. eauto 6.
Qed.

Lemma drop_app_len w s : drop (len w) (w +:+ s) = s.
Proof. induction w as [|a w IH]; [by destruct s|]. by rewrite sapp_cons. Qed.

Lemma take_app_len w s : take (len (w +:+ s) - len s) (w +:+ s) = w.
Proof.
  rewrite len_app. replace (len w + len s - len s)%nat with (len w) by lia.
  induction w as [|a w IH]; [by destruct s|]. rewrite sapp_cons. simpl. by rewrite IH.
Qed.

Lemma leaves_captures_words n r : forall s c s' c',
  group_is_word n r -> leaves r s c s' c' -> captures_words n c -> captures_words n c'.
Proof.
  induction r as [l|p|p|p|r IH|r1 IH1 r2 IH2|m r IH|r IH]; intros s c s' c' Hg;
    cbn [leaves group_is_word] in *.
  - by intros (_ & _ & ->).
  - by intros (_ & ->).
  - by intros (_ & ->).
  - by intros (_ & ->).
  - intros [H|[_ ->]]; [by eapply IH|done].
  - destruct Hg as [Hg1 Hg2]. intros (s1 & c1 & H1 & H2) Hc.
    eapply IH2; [done|exact H2|]. by eapply IH1.
  - destruct Hg as [Hm Hg]. intros (c1 & H & ->) Hc.
    constructor; [|by eapply IH]. simpl. intros ->.
    rewrite (Hm eq_refl) in H. destruct H as [(w & -> & Hw & Hne) _].
    by rewrite take_app_len.
  - by intros (_ & ->).
Qed.

Lemma group_captures_words n c x : captures_words n c -> Re.group n c = Some x -> word x.
Proof.
  induction 1 as [|[m y] c Hy _ IH]; [done|]. cbn [Re.group].
  destruct (n =? m)%nat eqn:E; [|done].
  apply Nat.eqb_eq in E. intros [= <-]. by apply Hy.
Qed.

Lemma word_not_container x : word x -> PropertyInfo.normalize_default x = Ok x.
Proof.
  intros [Hne Hw]. destruct x as [|a x]; [done|]. simpl in Hw.
  apply andb_true_iff in Hw as [Ha _]. unfold PropertyInfo.normalize_default. simpl.
  destruct (Ascii.eqb a "{") eqn:E1; [apply Ascii.eqb_eq in E1; by subst|].
  destruct (Ascii.eqb a "[") eqn:E2; [apply Ascii.eqb_eq in E2; by subst|]. done.
Qed.

Lemma inline_getset_default info text :
  PropertyInfo.default (PropertyInfo._parse_inline_getset info text)
  = PropertyInfo.default info.
Proof.
  unfold PropertyInfo._parse_inline_getset.
  by destruct (Re.has_match _ text), (Re.has_match _ text).
Qed.

Lemma read_accessors_default lines : forall info file_pos info' pos,
  PropertyInfo.read_accessors lines info file_pos = Ok (info', pos) ->
  PropertyInfo.default info' = PropertyInfo.default info.
Proof.
  induction lines as [|line rest IH]; intros info file_pos info' pos;
    cbn [PropertyInfo.read_accessors].
  - by intros [= <- _].
  - destruct (first_item line) as [c|e]; [|done].
    destruct (negb (is_ws c)); [by intros [= <- _]|].
    intros H%IH. rewrite H.
    destruct (startswith "set" (lstrip line)); [apply inline_getset_default|].
    destruct (startswith "get" (lstrip line)); apply inline_getset_default.
Qed.

(** Whatever the property line, the default that is stored is a run of
    word characters, so none of the container placeholders is ever stored. *)
Lemma property_default_is_word lines curr_line description onready info rest x :
  PropertyInfo.parse_from_script lines curr_line description onready = Ok (info, rest) ->
  PropertyInfo.default info = Some x ->
  word x /\ x ∉ placeholders.
Proof.
  unfold PropertyInfo.parse_from_script, Re.rmatch.
  destruct (Re.run _ curr_line [] _) as [[unmatched groups]|] eqn:E; [|done].
  apply run_leaves in E as (s' & c' & Hl & [= _ <-]).
  assert (Hc : captures_words 4 c').
  { eapply leaves_captures_words; [|exact Hl|constructor].
    cbn. repeat split; done. }
  unfold mbind, result_bind. destruct (Re.group 1 c'); [|done].
  intros H Hd.
  assert (Hx : word x).
  { destruct onready.
    - apply read_accessors_default in H. rewrite Hd in H.
      by destruct (Re.group 5 c'); rewrite ?inline_getset_default in H.
    - destruct (Re.group 4 c') as [d|] eqn:E4.
      + pose proof (group_captures_words _ _ _ Hc E4) as Hw.
        rewrite (word_not_container _ Hw) in H.
        apply read_accessors_default in H. rewrite Hd in H.
        destruct (Re.group 5 c'); rewrite ?inline_getset_default in H;
          simpl in H; by simplify_eq.
      + apply read_accessors_default in H. rewrite Hd in H.
        by destruct (Re.group 5 c'); rewrite ?inline_getset_default in H. }
  split; [done|]. destruct Hx as [_ Hw]. unfold placeholders.
  rewrite !elem_of_cons, elem_of_nil. intros [->|[->|[->|[->|[]]]]]; discriminate.
Qed.

(** ** Single-line enums *)

(** C4. The members of a single-line enum are stored under the pairs
    [(member, None)], not under the member names; the order is the textual
    one. *)
Theorem single_line_enum_keys_are_pairs :
  enum_vals (nl "enum Dir {UP, DOWN}")
  = Ok (Some [(EnumInfo.Pair "UP" None, None); (EnumInfo.Pair "DOWN" None, None)])
  /\ enum_vals (nl "enum Dir {UP, DOWN}")
     <> Ok (Some [(EnumInfo.Name "UP", None); (EnumInfo.Name "DOWN", None)]).
Proof. split; [reflexivity | discriminate]. Qed.

Lemma setitem_pairs val d :
  Forall (fun e => exists v, e.1 = EnumInfo.Pair v None) d ->
  Forall (fun e => exists v, e.1 = EnumInfo.Pair v None)
    (EnumInfo.setitem (EnumInfo.Pair val None) None d).
Proof.
  induction 1 as [|[k v] d Hk Hd IH]; cbn [EnumInfo.setitem].
  - constructor; [by exists val|constructor].
  - destruct (decide _); constructor; try done. by exists val.
Qed.

Lemma fromkeys_pairs values : forall d,
  Forall (fun e => exists v, e.1 = EnumInfo.Pair v None) d ->
  Forall (fun e => exists v, e.1 = EnumInfo.Pair v None)
    (foldl (fun d k => EnumInfo.setitem k None d) d
       ((fun val => EnumInfo.Pair val None) <$> values)).
Proof.
  induction values as [|val values IH]; intros d Hd; [done|].
  cbn [fmap list_fmap foldl]. apply IH. by apply setitem_pairs.
Qed.

(** Whatever the single-line enum, no member is stored under its name. *)
Lemma single_line_enum_never_names lines curr_line description info rest :
  last_item (rstrip curr_line) = Ok "}"%char ->
  EnumInfo.parse_from_script lines curr_line description = Ok (Some info, rest) ->
  Forall (fun e => exists v, e.1 = EnumInfo.Pair v None) (EnumInfo.vals info).
Proof.
  intros Hc. unfold EnumInfo.parse_from_script, mbind, result_bind.
  destruct (item (words curr_line) 1) as [name|e]; [|done].
  rewrite Hc. change (Ascii.eqb "}" "}") with true. cbv iota.
  intros [= <- _]. cbn [EnumInfo.vals]. by apply fromkeys_pairs.
Qed.

(** ** The pending description *)

(** C5, as stated, fails: a line that holds only an annotation is neither
    blank nor a documentation comment, and the pending description is
    still there when the next line is read. *)
Lemma annotation_line_keeps_buffer :
  isspace (nl "@export") = false
  /\ startswith "##" (lstrip (nl "@export")) = false
  /\ ClassInfo.dispatch (nl "@export") [nl "var speed = 1"] (nl "Speed.")
       (ClassInfo.new (Path.of_string "a.gd"))
     = Ok ([nl "var speed = 1"], nl "Speed.", ClassInfo.new (Path.of_string "a.gd"))
  /\ nl "Speed." <> EmptyString.
Proof. repeat split; try reflexivity. discriminate. Qed.

(** C5, amended. In an ASCII script, after a line that is neither blank
    nor a documentation comment, the pending description is empty when the
    next line is read, whether or not a parser was chosen; only a line that
    holds a lone annotation leaves the pending description as it was. *)
Theorem buffer_after_declaration line rest doc ci rest' doc' ci' :
  ascii_text line -> ascii_script rest ->
  isspace line = false ->
  startswith "##" (lstrip line) = false ->
  ClassInfo.dispatch line rest doc ci = Ok (rest', doc', ci') ->
  doc' = if ClassInfo.lone_annotation line then doc else EmptyString.
Proof.
  intros _ _ Hb Hd. unfold ClassInfo.dispatch. rewrite Hb, Hd.
  destruct (ClassInfo.lone_annotation line); [congruence|].
  unfold mbind, result_bind.
  repeat (case_match; try discriminate); congruence.
Qed.

(** A documented property: the description is attached and the buffer is
    empty afterwards. *)
Lemma buffer_after_declaration_witness :
  ascii_text (nl "var speed = 1") /\ ascii_script []
  /\ isspace (nl "var speed = 1") = false
  /\ startswith "##" (lstrip (nl "var speed = 1")) = false
  /\ ClassInfo.dispatch (nl "var speed = 1") [] (nl "Speed.")
       (ClassInfo.new (Path.of_string "a.gd"))
     = Ok ([], EmptyString,
           ClassInfo.add_property (ClassInfo.new (Path.of_string "a.gd"))
             (PropertyInfo.mk "speed" None (Some (nl "Speed.")) (Some "1") false false))
  /\ EmptyString = if ClassInfo.lone_annotation (nl "var speed = 1")
                   then nl "Speed." else EmptyString.
Proof.
  split; [reflexivity|]. split; [constructor|].
  split; [reflexivity|]. split; [reflexivity|]. split; [reflexivity|].
  eapply (buffer_after_declaration (nl "var speed = 1") [] (nl "Speed.")
            (ClassInfo.new (Path.of_string "a.gd")) []);
    first [reflexivity | constructor].
Defined.

(** ** The hierarchy walk *)

Section walk.
Context (class_infos : gmap string ClassInfo.t).

Lemma ancestor_add n m class_name :
  ancestor (n + m) class_infos class_name
  = ancestor n class_infos class_name ≫= ancestor m class_infos.
Proof.
  revert class_name. induction n as [|n IH]; intros class_name; [done|].
  cbn [Nat.add ancestor]. destruct (parent class_infos class_name) as [base|]; [|done].
  apply IH.
Qed.

(** On a cycle every ancestor exists. *)
Lemma cycle_ancestors n class_name :
  (0 < n)%nat ->
  ancestor n class_infos class_name = Some class_name ->
  forall m, is_Some (ancestor m class_infos class_name).
Proof.
  intros Hn Hcyc m. induction (lt_wf m) as [m _ IH].
  destruct (decide (m < n)%nat) as [Hlt|Hge].
  - replace n with (m + (n - m))%nat in Hcyc by lia.
    rewrite ancestor_add in Hcyc.
    destruct (ancestor m class_infos class_name); [by eexists|discriminate].
  - replace m with (n + (m - n))%nat by lia.
    rewrite ancestor_add, Hcyc. apply IH. lia.
Qed.

Lemma walk_endless fuel : forall class_name class_info class_path,
  class_infos !! class_name = Some class_info ->
  (forall m, is_Some (ancestor m class_infos class_name)) ->
  walk fuel class_infos (ClassInfo.extends class_info) class_path = None.
Proof.
  induction fuel as [|fuel IH]; intros class_name class_info class_path Hin Hall; [done|].
  cbn [walk].
  assert (Hp : parent class_infos class_name
               = Some (normalize_base (ClassInfo.extends class_info))).
  { unfold parent. by rewrite Hin. }
  destruct (Hall 2%nat) as [k Hk]. cbn [ancestor] in Hk. rewrite Hp in Hk. simpl in Hk.
  unfold parent in Hk.
  destruct (class_infos !! normalize_base (ClassInfo.extends class_info))
    as [base|] eqn:Hbase; [|discriminate].
  eapply IH; [exact Hbase|].
  intros m. specialize (Hall (S m)). cbn [ancestor] in Hall. by rewrite Hp in Hall.
Qed.

(** C6. When the base-class references lead from a parsed class back to
    itself through parsed classes, the walk for that class has not ended
    after any number of passes, and no output path is produced for it. *)
Theorem cyclic_walk_never_ends n class_name class_info :
  (0 < n)%nat ->
  ancestor n class_infos class_name = Some class_name ->
  class_infos !! class_name = Some class_info ->
  forall fuel class_path output_dir,
    walk fuel class_infos (ClassInfo.extends class_info) class_path = None
    /\ md_file_path fuel output_dir class_infos class_name = None.
Proof.
  intros Hn Hcyc Hin fuel class_path output_dir.
  assert (Hw : forall p, walk fuel class_infos (ClassInfo.extends class_info) p = None).
  { intros p. eapply walk_endless; [exact Hin|]. by eapply cycle_ancestors. }
  split; [apply Hw|]. unfold md_file_path. rewrite Hin. simpl. by rewrite Hw.
Qed.

Lemma walk_visits base_class segs :
  visits class_infos base_class segs ->
  forall fuel class_path,
    (length segs <= fuel)%nat ->
    walk fuel class_infos base_class class_path = Some (prepend_all segs class_path).
Proof.
  induction 1 as [b Hb|b base segs Hb Hv IH]; intros fuel class_path Hf.
  - destruct fuel as [|fuel]; [simpl in Hf; lia|]. cbn [walk]. by rewrite Hb.
  - destruct fuel as [|fuel]; [simpl in Hf; lia|]. cbn [walk]. rewrite Hb.
    rewrite IH by (simpl in Hf; lia). done.
Qed.

(** C1, amended. The walk puts every reference it looks up in front of the
    class path: each ancestor that is a parsed class and, last, the
    reference that names no parsed class, which becomes the outermost
    directory.  The page of the class is written below these. *)
Theorem walk_prepends_every_reference class_name class_info segs fuel output_dir :
  class_infos !! class_name = Some class_info ->
  visits class_infos (ClassInfo.extends class_info) segs ->
  (length segs <= fuel)%nat ->
  md_file_path fuel output_dir class_infos class_name
  = Some (Path.joinpath
            (Path.joinpath output_dir (prepend_all segs (Path.of_string EmptyString)))
            (Path.of_string (class_name +:+ ".md"))).
Proof.
  intros Hin Hv Hf. unfold md_file_path. rewrite Hin. simpl.
  by rewrite (walk_visits _ _ Hv fuel _ Hf).
Qed.

End walk.

(** C1, as stated, fails: the unresolved base type is a path segment. *)
Lemma external_base_is_a_segment :
  Path.to_string <$> md_file_path 1 (Path.of_string EmptyString) three_classes "C"
  = Some "Node/C.md"
  /\ Path.to_string <$> md_file_path 3 (Path.of_string EmptyString) three_classes "A"
     = Some "Node/C/B/A.md"
  /\ Path.to_string <$> md_file_path 1 (Path.of_string EmptyString) three_classes "C"
     <> Some "C.md"
  /\ Path.to_string <$> md_file_path 3 (Path.of_string EmptyString) three_classes "A"
     <> Some "C/B/A.md".
Proof. repeat split; try (vm_compute; reflexivity); vm_compute; discriminate. Qed.

(** In the project of three classes the page of [A] goes to
    [gd_docs/Node/C/B/A.md]. *)
Lemma walk_prepends_every_reference_witness :
  three_classes !! "A" = Some (extending "a.gd" "B")
  /\ visits three_classes "B" ["B"; "C"; "Node"]
  /\ md_file_path 3 (Path.of_string "gd_docs") three_classes "A"
     = Some (Path.mk EmptyString ["gd_docs"; "Node"; "C"; "B"; "A.md"]).
Proof.
  assert (Hin : three_classes !! "A" = Some (extending "a.gd" "B")) by reflexivity.
  assert (Hv : visits three_classes "B" ["B"; "C"; "Node"]).
  { apply (visits_more three_classes "B" (extending "b.gd" "C")); [reflexivity|].
    apply (visits_more three_classes "C" (extending "c.gd" "Node")); [reflexivity|].
    apply (visits_last three_classes "Node"). reflexivity. }
  split; [exact Hin|]. split; [exact Hv|].
  exact (walk_prepends_every_reference three_classes "A" _ _ 3 (Path.of_string "gd_docs")
           Hin Hv (le_n 3)).
Defined.

(** Two classes that extend each other: a thousand passes do not end the
    walk. *)
Lemma cyclic_walk_never_ends_witness :
  (0 < 2)%nat
  /\ ancestor 2 two_in_a_cycle "A" = Some "A"
  /\ two_in_a_cycle !! "A" = Some (extending "a.gd" "B")
  /\ walk 1000 two_in_a_cycle "B" (Path.of_string EmptyString) = None
  /\ md_file_path 1000 (Path.of_string "gd_docs") two_in_a_cycle "A" = None.
Proof.
  split; [lia|]. split; [reflexivity|]. split; [reflexivity|].
  apply (cyclic_walk_never_ends two_in_a_cycle 2 "A" (extending "a.gd" "B"));
    [lia | reflexivity | reflexivity].
Defined.

(** ** The declaration loop ends

    Every parser leaves the script at or after the place it was given, so
    each pass of the declaration loop uses up the line it read. *)

Lemma method_read_signature_pos lines : forall args_lines last_line file_pos n,
  (length lines <= n)%nat -> (length file_pos <= n)%nat ->
  (length (MethodInfo.read_signature lines args_lines last_line file_pos).2 <= n)%nat.
Proof.
  induction lines as [|line rest IH]; intros args_lines last_line file_pos n Hl Hp;
    cbn [MethodInfo.read_signature]; [done|].
  destruct (endswith _ _); [done|]. simpl in Hl. apply IH; lia.
Qed.

Lemma signal_read_signature_pos lines : forall args_lines file_pos n,
  (length lines <= n)%nat -> (length file_pos <= n)%nat ->
  (length (SignalInfo.read_signature lines args_lines file_pos).2 <= n)%nat.
Proof.
  induction lines as [|line rest IH]; intros args_lines file_pos n Hl Hp;
    cbn [SignalInfo.read_signature]; [done|].
  destruct (endswith _ _); [done|]. simpl in Hl. apply IH; lia.
Qed.

Lemma read_members_pos lines : forall info r pos,
  EnumInfo.read_members lines info = Ok (r, pos) -> (length pos <= length lines)%nat.
Proof.
  induction lines as [|line rest IH]; intros info r pos; cbn [EnumInfo.read_members].
  - by intros [= _ <-].
  - simpl length. destruct (isspace line).
    + intros H%IH. lia.
    + destruct (last_item _) as [c|e]; [|done].
      destruct (Ascii.eqb c "}"); [intros [= _ <-]; lia|].
      destruct (contains "##" line).
      * destruct (unpack2 _) as [[value desc]|e]; [|done]. intros H%IH. lia.
      * intros H%IH. lia.
Qed.

Lemma read_accessors_pos lines : forall info file_pos r pos n,
  (length lines <= n)%nat -> (length file_pos <= n)%nat ->
  PropertyInfo.read_accessors lines info file_pos = Ok (r, pos) -> (length pos <= n)%nat.
Proof.
  induction lines as [|line rest IH]; intros info file_pos r pos n Hl Hp;
    cbn [PropertyInfo.read_accessors].
  - by intros [= _ <-].
  - destruct (first_item line) as [c|e]; [|done].
    destruct (negb (is_ws c)); [by intros [= _ <-]|].
    simpl in Hl. apply IH; lia.
Qed.

Lemma dispatch_pos line rest doc ci rest' doc' ci' :
  ClassInfo.dispatch line rest doc ci = Ok (rest', doc', ci') ->
  (length rest' <= length rest)%nat.
Proof.
  unfold ClassInfo.dispatch.
  destruct (isspace line); [by intros [= <- _ _]|].
  destruct (startswith "##" (lstrip line)); [by intros [= <- _ _]|].
  destruct (ClassInfo.lone_annotation line); [by intros [= <- _ _]|].
  unfold mbind, result_bind.
  destruct (if startswith "@" line then _ else _) as [[annotation line']|e]; [|done].
  destruct (startswith "signal" line').
  { unfold SignalInfo.parse_from_script, mbind, result_bind.
    destruct (contains "(" line').
    - pose proof (signal_read_signature_pos rest line' rest (length rest)
                    (le_n _) (le_n _)) as Hp.
      destruct (SignalInfo.read_signature rest line' rest) as [args_lines file_pos].
      destruct (ArgInfo.parse_definition args_lines); [|done]. by intros [= <- _ _].
    - by intros [= <- _ _]. }
  destruct (startswith "enum" line').
  { unfold EnumInfo.parse_from_script, mbind, result_bind.
    destruct (item (words line') 1) as [name|e]; [|done].
    destruct (last_item (rstrip line')) as [c|e]; [|done].
    destruct (Ascii.eqb c "}"); [by intros [= <- _ _]|].
    destruct (EnumInfo.read_members rest _) as [[r pos]|e] eqn:E; [|done].
    intros [= <- _ _]. by eapply read_members_pos. }
  destruct (startswith "var" line').
  { unfold PropertyInfo.parse_from_script, mbind, result_bind.
    destruct (Re.rmatch PropertyInfo.var_re line') as [[unmatched groups]|]; [|done].
    destruct (Re.group 1 groups); [|done].
    destruct (match (if bool_decide _ then None else Re.group 4 groups) with
              | Some d => _ | None => _ end); [|done].
    destruct (PropertyInfo.read_accessors rest _ rest) as [[r pos]|e] eqn:E; [|done].
    intros [= <- _ _]. eapply read_accessors_pos; [| |exact E]; done. }
  destruct (startswith "func" line').
  { unfold MethodInfo.parse_from_script, mbind, result_bind.
    pose proof (method_read_signature_pos rest line' line' rest (length rest)
                  (le_n _) (le_n _)) as Hp.
    destruct (MethodInfo.read_signature rest line' line' rest)
      as [[args_lines last_line] file_pos].
    destruct (ArgInfo.parse_definition args_lines); [|done]. by intros [= <- _ _]. }
  by intros [= <- _ _].
Qed.

(** The loop of [parse_from_script] is never cut short: as many passes as
    there are lines suffice. *)
Lemma read_declarations_total fuel : forall lines doc ci,
  (length lines <= fuel)%nat ->
  is_Some (ClassInfo.read_declarations fuel lines doc ci).
Proof.
  induction fuel as [|fuel IH]; intros [|line rest] doc ci Hf; simpl in Hf;
    try (by eexists); [lia|].
  cbn [ClassInfo.read_declarations].
  destruct (ClassInfo.dispatch line rest doc ci) as [[[rest' doc'] ci']|e] eqn:E;
    [|by eexists].
  apply IH. apply dispatch_pos in E. lia.
Qed.

Lemma parse_from_script_total script_path lines :
  is_Some (ClassInfo.parse_from_script script_path lines).
Proof.
  unfold ClassInfo.parse_from_script.
  destruct (ClassInfo.parse_script_header _ _) as [[ci rest]|e]; [|by eexists].
  by apply read_declarations_total.
Qed.

(** ** A header without a base class *)

Lemma words_go_nonempty s : forall cur limit,
  is_empty cur = false -> words_go s cur limit <> [].
Proof.
  induction s as [|a s IH]; intros cur limit Hcur; simpl.
  - by rewrite Hcur.
  - destruct (is_ws a).
    + by rewrite Hcur.
    + rewrite Hcur. by apply IH.
Qed.

Lemma words_max_class_name n line :
  startswith "class_name" line = true -> words_max (S n) line <> [].
Proof.
  destruct line as [|a line]; [discriminate|]. intros H.
  cbn [startswith] in H. apply andb_true_iff in H as [Ha _].
  apply Ascii.eqb_eq in Ha. subst a.
  unfold words_max. simpl. by apply words_go_nonempty.
Qed.

Lemma no_members_set_name ci n : no_members ci -> no_members (ClassInfo.set_name ci n).
Proof. by intros (? & ? & ? & ?). Qed.

Lemma no_members_header_docs ci full_desc :
  no_members ci -> no_members (ClassInfo.header_docs ci full_desc).
Proof.
  intros (? & ? & ? & ?). unfold ClassInfo.header_docs.
  destruct (is_empty full_desc); [done|]. by destruct (index_from _ _ _).
Qed.

(** One line of a header in which no base class was found yet. *)
Lemma header_line_no_base line ci full_desc :
  declares_base line = false ->
  no_members ci ->
  match ClassInfo.header_line line ci full_desc false with
  | Ok (ci', _, def_found) => def_found = false /\ no_members ci'
  | Raise e => e = IndexError /\ lacks_class_name line = true
  end.
Proof.
  unfold declares_base, ClassInfo.header_line, lacks_class_name, item. intros Hb Hm.
  unfold mbind, result_bind.
  destruct (startswith "class_name" line) eqn:Hc.
  - destruct (words line !! 1%nat) as [n|] eqn:Hn.
    + destruct (reverse (words_max 2 line) !! 0%nat) as [l|] eqn:Hl.
      * rewrite Hb. split; [done|]. by apply no_members_set_name.
      * exfalso. apply (words_max_class_name 1 line Hc).
        destruct (words_max 2 line) as [|w ws _] using rev_ind; [done|].
        by rewrite reverse_snoc in Hl.
    + split; [done|]. apply bool_decide_eq_true.
      apply lookup_ge_None in Hn. cbn [andb]. lia.
  - rewrite Hb. done.
Qed.

(** The header loop of a script without a base class: [before] are the
    lines up to the last line that was not blank, [blanks] the blank lines
    read since. *)
Lemma read_header_no_base lines : forall ci full_desc before blanks,
  Forall (fun line => declares_base line = false) lines ->
  Forall blank blanks ->
  (forall line, last before = Some line -> isspace line = false) ->
  no_members ci ->
  match ClassInfo.read_header lines ci full_desc false (blanks ++ lines) with
  | Ok (ci', _, file_pos) =>
      Forall blank file_pos
      /\ (exists read,
            before ++ blanks ++ lines = read ++ file_pos
            /\ forall line, last read = Some line -> isspace line = false)
      /\ no_members ci'
  | Raise e => e = IndexError /\ Exists (fun line => lacks_class_name line = true) lines
  end.
Proof.
  induction lines as [|line rest IH];
    intros ci full_desc before blanks Hlines Hblanks Hlast Hm.
  - simpl. rewrite List.app_nil_r. split; [done|]. split; [by exists before|done].
  - apply Forall_cons in Hlines as [Hline Hrest]. cbn [ClassInfo.read_header andb].
    destruct (isspace line) eqn:Hsp.
    + specialize (IH ci full_desc before (blanks ++ [line]) Hrest).
      rewrite <- (assoc_L (++)) in IH. cbn [app] in IH.
      destruct (ClassInfo.read_header rest ci full_desc false _) as [[[ci' fd] pos]|e].
      * apply IH; [|done..]. apply Forall_app. split; [done|]. by constructor.
      * destruct IH as [-> Hex]; [|done..|].
        { apply Forall_app. split; [done|]. by constructor. }
        split; [done|]. by apply Exists_cons_tl.
    + pose proof (header_line_no_base line ci full_desc Hline Hm) as Hl.
      destruct (ClassInfo.header_line line ci full_desc false) as [[[ci1 fd1] df]|e].
      * destruct Hl as [-> Hm1].
        assert (Hlast' : forall l, last ((before ++ blanks) ++ [line]) = Some l ->
                                   isspace l = false).
        { intros l. rewrite last_snoc. by intros [= <-]. }
        specialize (IH ci1 fd1 ((before ++ blanks) ++ [line]) [] Hrest
                      (List.Forall_nil _) Hlast' Hm1).
        cbn [app] in IH.
        destruct (ClassInfo.read_header rest ci1 fd1 false rest) as [[[ci' fd] pos]|e].
        -- destruct IH as (Hpos & (read & Hread & Hr) & Hm'). split; [done|].
           split; [|done]. exists read. split; [|done].
           rewrite <- Hread, <- !(assoc_L (++)). reflexivity.
        -- destruct IH as [-> Hex]. split; [done|]. by apply Exists_cons_tl.
      * destruct Hl as [-> Hl]. split; [done|]. by apply Exists_cons_hd.
Qed.

Lemma read_declarations_blank lines : forall fuel doc ci,
  Forall blank lines ->
  (length lines <= fuel)%nat ->
  ClassInfo.read_declarations fuel lines doc ci = Some (Ok ci).
Proof.
  induction lines as [|line rest IH]; intros fuel doc ci Hb Hf; [by destruct fuel|].
  apply Forall_cons in Hb as [Hline Hrest].
  destruct fuel as [|fuel]; [simpl in Hf; lia|].
  cbn [ClassInfo.read_declarations]. unfold ClassInfo.dispatch. rewrite Hline.
  apply IH; [done|]. simpl in Hf. lia.
Qed.

(** C7, as stated, fails: after the header the script stands before the
    blank lines the file ends with, so lines remain for the declaration
    loop. *)
Lemma trailing_blank_lines_remain :
  Forall (fun line => declares_base line = false) [nl "var speed = 1"; newline]
  /\ ClassInfo.parse_script_header [nl "var speed = 1"; newline]
       (ClassInfo.new (Path.of_string "a.gd"))
     = Ok (ClassInfo.new (Path.of_string "a.gd"), [newline])
  /\ [newline] <> @nil string.
Proof. split; [by repeat constructor|]. split; [reflexivity | discriminate]. Qed.

(** C7, amended. In an ASCII script without a base-class declaration the
    header loop reads every line to the end of the file and leaves the
    script before the blank lines the file ends with, if any: what is left
    is blank, and what was read is empty or ends with a line that is not
    blank.  The declaration loop finds only blank lines and the class has
    no signals, enums, properties or methods.  The parse raises only on a
    [class_name] line that gives no name. *)
Theorem header_without_base_takes_all script_path lines :
  ascii_script lines ->
  Forall (fun line => declares_base line = false) lines ->
  match ClassInfo.parse_from_script script_path lines with
  | Some (Ok class_info) =>
      (exists read rest,
         ClassInfo.parse_script_header lines (ClassInfo.new script_path)
         = Ok (class_info, rest)
         /\ lines = read ++ rest /\ Forall blank rest
         /\ forall line, last read = Some line -> isspace line = false)
      /\ no_members class_info
  | Some (Raise e) =>
      e = IndexError /\ Exists (fun line => lacks_class_name line = true) lines
  | None => False
  end.
Proof.
  intros _ Hlines.
  unfold ClassInfo.parse_from_script, ClassInfo.parse_script_header.
  assert (Hnil : forall line, last (@nil string) = Some line -> isspace line = false)
    by done.
  pose proof (read_header_no_base lines (ClassInfo.new script_path) EmptyString [] []
                Hlines (List.Forall_nil _) Hnil) as Hh.
  cbn [app] in Hh.
  destruct (ClassInfo.read_header lines _ _ false lines) as [[[ci fd] pos]|e]; simpl.
  - destruct Hh as (Hpos & (read & Hread & Hr) & Hm); [by repeat split|].
    rewrite read_declarations_blank by done.
    split; [by exists read, pos|]. by apply no_members_header_docs.
  - apply Hh. by repeat split.
Qed.

(** A named, documented script without a base class: its property and its
    method are taken as header text. *)
Lemma header_without_base_takes_all_witness :
  ascii_script player_without_base
  /\ Forall (fun line => declares_base line = false) player_without_base
  /\ match ClassInfo.parse_from_script (Path.of_string "player.gd")
             player_without_base with
     | Some (Ok class_info) =>
         (exists read rest,
            ClassInfo.parse_script_header player_without_base
              (ClassInfo.new (Path.of_string "player.gd"))
            = Ok (class_info, rest)
            /\ player_without_base = read ++ rest
            /\ Forall blank rest
            /\ forall line, last read = Some line -> isspace line = false)
         /\ no_members class_info
     | Some (Raise e) =>
         e = IndexError
         /\ Exists (fun line => lacks_class_name line = true) player_without_base
     | None => False
     end.
Proof.
  assert (Ha : ascii_script player_without_base) by (repeat constructor).
  assert (H : Forall (fun line => declares_base line = false) player_without_base)
    by (repeat constructor).
  split; [exact Ha|]. split; [exact H|].
  exact (header_without_base_takes_all (Path.of_string "player.gd") _ Ha H).
Defined.

(** ** The header of a documented class *)

Lemma rev_onto_rev_onto s : forall acc t,
  rev_onto (rev_onto s acc) t = rev_onto acc (s +:+ t).
Proof.
  induction s as [|a s IH]; intros acc t; [done|].
  cbn [rev_onto]. rewrite IH. by rewrite sapp_cons.
Qed.

Lemma rev_rev s : rev (rev s) = s.
Proof. unfold rev. rewrite rev_onto_rev_onto. simpl. apply sapp_nil_r. Qed.

Lemma rev_onto_app s t acc : rev_onto (s +:+ t) acc = rev_onto t (rev_onto s acc).
Proof.
  revert acc. induction s as [|a s IH]; intros acc; [done|].
  rewrite sapp_cons. cbn [rev_onto]. apply IH.
Qed.

Lemma rstrip_nl s : rstrip (s +:+ newline) = rstrip s.
Proof. unfold rstrip, rev. by rewrite rev_onto_app. Qed.

Lemma take_all s : take (len s) s = s.
Proof. induction s as [|a s IH]; [done|]. simpl. by rewrite IH. Qed.

Lemma slice_from_2 a b s : slice (String a (String b s)) (Some 2) None = s.
Proof.
  unfold slice. cbn [len].
  replace (clamp (S (S (len s))) 2) with 2%nat by (unfold clamp; simpl; lia).
  cbn [drop]. replace (S (S (len s)) - 2)%nat with (len s) by lia. apply take_all.
Qed.

Lemma comment_text_inv s :
  comment_text s = true ->
  exists c s', s = String c s' /\ is_ws c = false /\ rstrip s = s
               /\ all_chars (fun c => negb (is_linebreak c)) s = true.
Proof.
  unfold comment_text. intros H.
  apply andb_true_iff in H as [[H1 H2]%andb_true_iff H3].
  destruct s as [|c s']; [discriminate|].
  exists c, s'. repeat split; [by apply negb_true_iff | by apply String.eqb_eq | done].
Qed.

Lemma strip_comment s : comment_text s = true -> strip (String " " (s +:+ newline)) = s.
Proof.
  intros H. destruct (comment_text_inv s H) as (c & s' & -> & Hc & Hr & _).
  unfold strip. cbn [lstrip]. change (is_ws " ") with true. cbv iota.
  rewrite sapp_cons. cbn [lstrip]. rewrite Hc. rewrite <- sapp_cons.
  by rewrite rstrip_nl.
Qed.

Lemma header_line_hashes t ci full_desc def_found :
  ClassInfo.header_line (String "#" (String "#" t)) ci full_desc def_found
  = Ok (ci,
        full_desc +:+ strip (slice (String "#" (String "#" t)) (Some 2) None) +:+ newline,
        def_found).
Proof. reflexivity. Qed.

(** A documentation comment adds its text and a newline to the collected
    description. *)
Lemma header_line_comment s ci full_desc def_found :
  comment_text s = true ->
  ClassInfo.header_line (nl ("## " +:+ s)) ci full_desc def_found
  = Ok (ci, full_desc +:+ s +:+ newline, def_found).
Proof.
  intros H. unfold nl.
  change ("## " +:+ s) with (String "#" (String "#" (String " " s))).
  rewrite !sapp_cons, header_line_hashes, slice_from_2.
  by rewrite strip_comment.
Qed.

Lemma header_line_empty_comment ci full_desc def_found :
  ClassInfo.header_line (nl "##") ci full_desc def_found
  = Ok (ci, full_desc +:+ newline, def_found).
Proof. reflexivity. Qed.

Lemma read_header_step line rest ci full_desc def_found file_pos ci' full_desc' def_found' :
  def_found && negb (startswith "##" (lstrip line)) = false ->
  isspace line = false ->
  ClassInfo.header_line line ci full_desc def_found = Ok (ci', full_desc', def_found') ->
  ClassInfo.read_header (line :: rest) ci full_desc def_found file_pos
  = ClassInfo.read_header rest ci' full_desc' def_found' rest.
Proof. intros H1 H2 H3. cbn [ClassInfo.read_header]. by rewrite H1, H2, H3. Qed.

Lemma read_header_end rest ci full_desc :
  ends_header rest = true ->
  ClassInfo.read_header rest ci full_desc true rest = Ok (ci, full_desc, rest).
Proof.
  destruct rest as [|line rest]; [done|]. cbn [ends_header ClassInfo.read_header andb].
  by intros ->.
Qed.

Lemma splitlines_go_text s : forall cur rest,
  all_chars (fun c => negb (is_linebreak c)) s = true ->
  splitlines_go (s +:+ rest) cur false = splitlines_go rest (rev_onto s cur) false.
Proof.
  induction s as [|a s IH]; intros cur rest H; [done|].
  cbn [all_chars] in H. apply andb_true_iff in H as [Ha Hs].
  apply negb_true_iff in Ha.
  rewrite sapp_cons. cbn [splitlines_go andb rev_onto]. rewrite Ha. by apply IH.
Qed.

Lemma splitlines_two_paragraphs s d :
  comment_text s = true -> comment_text d = true ->
  splitlines (s +:+ newline +:+ newline +:+ d +:+ newline) = [s; EmptyString; d].
Proof.
  intros Hs Hd.
  destruct (comment_text_inv s Hs) as (_ & _ & _ & _ & _ & Hs').
  destruct (comment_text_inv d Hd) as (_ & _ & _ & _ & _ & Hd').
  unfold splitlines. rewrite splitlines_go_text by done.
  unfold newline at 1. rewrite sapp_cons, sapp_nil_l.
  cbn [splitlines_go andb]. change (is_linebreak "010") with true. cbv iota.
  change (Ascii.eqb "010" "013") with false.
  unfold newline at 1. rewrite sapp_cons, sapp_nil_l.
  cbn [splitlines_go andb]. change (is_linebreak "010") with true. cbv iota.
  change (Ascii.eqb "010" "013") with false.
  rewrite splitlines_go_text by done.
  unfold newline. cbn [splitlines_go andb]. change (is_linebreak "010") with true.
  cbv iota. cbn [is_empty].
  fold (rev s). fold (rev d). by rewrite !rev_rev.
Qed.

(** C2, as stated, fails: once the base class is found, the blank line
    ends the header, so the text after it is not part of the description. *)
Lemma blank_line_ends_header :
  exists class_info,
    ClassInfo.parse_script_header
      [nl "class_name Foo"; nl "extends Bar"; nl "## Summary line"; newline;
       nl "## Detail line"]
      (ClassInfo.new (Path.of_string "foo.gd"))
    = Ok (class_info, [newline; nl "## Detail line"])
    /\ ClassInfo.name class_info = Some "Foo"
    /\ ClassInfo.extends class_info = "Bar"
    /\ ClassInfo.summary class_info = Some "Summary line"
    /\ ClassInfo.description class_info = None
    /\ ClassInfo.description class_info <> Some "Detail line".
Proof. eexists. split; [reflexivity|]. repeat split. discriminate. Qed.

(** C2, amended. With an empty documentation comment between the two
    texts, the header [class_name Foo], [extends Bar], [## s], [##],
    [## d] gives the name [Foo], the base class [Bar], the summary [s] and
    the description [d], each converted by [bbcode_to_md] on its own; the
    header ends before the first line that is not a documentation
    comment. *)
Theorem header_summary_and_description script_path s d rest :
  comment_text s = true ->
  comment_text d = true ->
  ends_header rest = true ->
  ClassInfo.parse_script_header
    ([nl "class_name Foo"; nl "extends Bar"; nl ("## " +:+ s); nl "##"; nl ("## " +:+ d)]
     ++ rest)
    (ClassInfo.new script_path)
  = Ok (ClassInfo.mk script_path (Some "Foo") "Bar"
          (Some (bbcode_to_md s)) (Some (bbcode_to_md d)) [] [] [] [],
        rest).
Proof.
  intros Hs Hd Hrest. unfold ClassInfo.parse_script_header. cbn [app].
  rewrite (read_header_step (nl "class_name Foo") _ _ _ _ _
             (ClassInfo.set_name (ClassInfo.new script_path) "Foo") EmptyString false)
    by reflexivity.
  rewrite (read_header_step (nl "extends Bar") _ _ _ _ _
             (ClassInfo.set_extends (ClassInfo.set_name (ClassInfo.new script_path) "Foo")
                "Bar") EmptyString true)
    by reflexivity.
  erewrite (read_header_step (nl ("## " +:+ s)));
    [|reflexivity|reflexivity|by apply header_line_comment].
  erewrite (read_header_step (nl "##"));
    [|reflexivity|reflexivity|apply header_line_empty_comment].
  erewrite (read_header_step (nl ("## " +:+ d)));
    [|reflexivity|reflexivity|by apply header_line_comment].
  rewrite read_header_end by done.
  unfold mbind, result_bind. f_equal. f_equal.
  rewrite !sapp_nil_l, !sapp_assoc.
  unfold ClassInfo.header_docs.
  destruct (comment_text_inv s Hs) as (c & s' & Es & _).
  replace (is_empty (s +:+ newline +:+ newline +:+ d +:+ newline)) with false
    by (by rewrite Es).
  rewrite splitlines_two_paragraphs by done.
  cbn [index_from]. rewrite decide_False by (by rewrite Es).
  rewrite decide_True by done. reflexivity.
Qed.

(** The header of the example, with the empty documentation comment. *)
Lemma header_summary_and_description_witness :
  comment_text "Summary line" = true
  /\ comment_text "Detail line" = true
  /\ ends_header [nl "var speed = 1"] = true
  /\ ClassInfo.parse_script_header
       ([nl "class_name Foo"; nl "extends Bar"; nl ("## " +:+ "Summary line"); nl "##";
         nl ("## " +:+ "Detail line")] ++ [nl "var speed = 1"])
       (ClassInfo.new (Path.of_string "foo.gd"))
     = Ok (ClassInfo.mk (Path.of_string "foo.gd") (Some "Foo") "Bar"
             (Some (bbcode_to_md "Summary line")) (Some (bbcode_to_md "Detail line"))
             [] [] [] [],
           [nl "var speed = 1"]).
Proof.
  split; [reflexivity|]. split; [reflexivity|]. split; [reflexivity|].
  apply (header_summary_and_description (Path.of_string "foo.gd") "Summary line"
           "Detail line" [nl "var speed = 1"]); reflexivity.
Defined.

(** * Further properties of the parsers *)

(** ** The script position only moves forward *)

Lemma method_read_signature_tail lines : forall args_lines last_line file_pos orig,
  (exists read, orig = read ++ lines) -> (exists read, orig = read ++ file_pos) ->
  exists read,
    orig = read ++ (MethodInfo.read_signature lines args_lines last_line file_pos).2.
Proof.
  induction lines as [|line rest IH]; intros args_lines last_line file_pos orig Hl Hp;
    cbn [MethodInfo.read_signature]; [done|].
  destruct (endswith _ _); [done|].
  assert (Hr : exists read, orig = read ++ rest).
  { destruct Hl as [read ->]. exists (read ++ [line]). by rewrite <- (assoc_L (++)). }
  by apply IH.
Qed.

Lemma signal_read_signature_tail lines : forall args_lines file_pos orig,
  (exists read, orig = read ++ lines) -> (exists read, orig = read ++ file_pos) ->
  exists read, orig = read ++ (SignalInfo.read_signature lines args_lines file_pos).2.
Proof.
  induction lines as [|line rest IH]; intros args_lines file_pos orig Hl Hp;
    cbn [SignalInfo.read_signature]; [done|].
  destruct (endswith _ _); [done|].
  assert (Hr : exists read, orig = read ++ rest).
  { destruct Hl as [read ->]. exists (read ++ [line]). by rewrite <- (assoc_L (++)). }
  by apply IH.
Qed.

Lemma read_members_tail lines : forall info r pos,
  EnumInfo.read_members lines info = Ok (r, pos) -> exists read, lines = read ++ pos.
Proof.
  induction lines as [|line rest IH]; intros info r pos; cbn [EnumInfo.read_members].
  - intros [= _ <-]. by exists [].
  - assert (Hc : forall i, EnumInfo.read_members rest i = Ok (r, pos) ->
                           exists read, line :: rest = read ++ pos).
    { intros i [read ->]%IH. by exists (line :: read). }
    destruct (isspace line); [apply Hc|].
    destruct (last_item _) as [c|e]; [|done].
    destruct (Ascii.eqb c "}"); [intros [= _ <-]; by exists [line]|].
    destruct (contains "##" line); [|apply Hc].
    destruct (unpack2 _) as [[value desc]|e]; [apply Hc|done].
Qed.

Lemma read_accessors_tail lines : forall info file_pos r pos orig,
  (exists read, orig = read ++ lines) -> (exists read, orig = read ++ file_pos) ->
  PropertyInfo.read_accessors lines info file_pos = Ok (r, pos) ->
  exists read, orig = read ++ pos.
Proof.
  induction lines as [|line rest IH]; intros info file_pos r pos orig Hl Hp;
    cbn [PropertyInfo.read_accessors].
  - by intros [= _ <-].
  - destruct (first_item line) as [c|e]; [|done].
    destruct (negb (is_ws c)); [by intros [= _ <-]|].
    assert (Hr : exists read, orig = read ++ rest).
    { destruct Hl as [read ->]. exists (read ++ [line]). by rewrite <- (assoc_L (++)). }
    by apply IH.
Qed.

(** X1. Whatever line the declaration loop handles, the script is left at
    a place at or after the line that follows it: no parser seeks back
    over a line that was already handed out. *)
Theorem dispatch_moves_forward line rest doc ci rest' doc' ci' :
  ClassInfo.dispatch line rest doc ci = Ok (rest', doc', ci') ->
  exists read, rest = read ++ rest'.
Proof.
  assert (Hrefl : exists read : list string, rest = read ++ rest) by (by exists []).
  unfold ClassInfo.dispatch.
  destruct (isspace line); [by intros [= <- _ _]|].
  destruct (startswith "##" (lstrip line)); [by intros [= <- _ _]|].
  destruct (ClassInfo.lone_annotation line); [by intros [= <- _ _]|].
  unfold mbind, result_bind.
  destruct (if startswith "@" line then _ else _) as [[annotation line']|e]; [|done].
  destruct (startswith "signal" line').
  { unfold SignalInfo.parse_from_script, mbind, result_bind.
    destruct (contains "(" line').
    - pose proof (signal_read_signature_tail rest line' rest rest Hrefl Hrefl) as Hp.
      destruct (SignalInfo.read_signature rest line' rest) as [args_lines file_pos].
      destruct (ArgInfo.parse_definition args_lines); [|done]. by intros [= <- _ _].
    - by intros [= <- _ _]. }
  destruct (startswith "enum" line').
  { unfold EnumInfo.parse_from_script, mbind, result_bind.
    destruct (item (words line') 1) as [name|e]; [|done].
    destruct (last_item (rstrip line')) as [c|e]; [|done].
    destruct (Ascii.eqb c "}"); [by intros [= <- _ _]|].
    destruct (EnumInfo.read_members rest _) as [[r pos]|e] eqn:E; [|done].
    intros [= <- _ _]. by eapply read_members_tail. }
  destruct (startswith "var" line').
  { unfold PropertyInfo.parse_from_script, mbind, result_bind.
    destruct (Re.rmatch PropertyInfo.var_re line') as [[unmatched groups]|]; [|done].
    destruct (Re.group 1 groups); [|done].
    destruct (match (if bool_decide _ then None else Re.group 4 groups) with
              | Some d => _ | None => _ end); [|done].
    destruct (PropertyInfo.read_accessors rest _ rest) as [[r pos]|e] eqn:E; [|done].
    intros [= <- _ _]. eapply read_accessors_tail; [| |exact E]; done. }
  destruct (startswith "func" line').
  { unfold MethodInfo.parse_from_script, mbind, result_bind.
    pose proof (method_read_signature_tail rest line' line' rest rest Hrefl Hrefl) as Hp.
    destruct (MethodInfo.read_signature rest line' line' rest)
      as [[args_lines last_line] file_pos].
    destruct (ArgInfo.parse_definition args_lines); [|done]. by intros [= <- _ _]. }
  by intros [= <- _ _].
Qed.

(** A documented method followed by its body and a second method: the
    script is left at the second method. *)
Lemma dispatch_moves_forward_witness :
  ClassInfo.dispatch (nl "func run(speed):") [nl "  pass"; nl "func stop():"] EmptyString
    (ClassInfo.new (Path.of_string "a.gd"))
  = Ok ([nl "func stop():"], EmptyString,
        ClassInfo.add_method (ClassInfo.new (Path.of_string "a.gd"))
          (MethodInfo.mk "run" None [ArgInfo.mk "speed" None None] None))
  /\ exists read, [nl "  pass"; nl "func stop():"] = read ++ [nl "func stop():"].
Proof.
  assert (H : ClassInfo.dispatch (nl "func run(speed):") [nl "  pass"; nl "func stop():"]
                EmptyString (ClassInfo.new (Path.of_string "a.gd"))
              = Ok ([nl "func stop():"], EmptyString,
                    ClassInfo.add_method (ClassInfo.new (Path.of_string "a.gd"))
                      (MethodInfo.mk "run" None [ArgInfo.mk "speed" None None] None)))
    by reflexivity.
  split; [exact H|]. exact (dispatch_moves_forward _ _ _ _ _ _ _ H).
Defined.

(** ** What the declaration loop changes *)

Lemma same_header_refl ci : same_header ci ci.
Proof. by repeat split. Qed.

Lemma same_header_trans a b c : same_header a b -> same_header b c -> same_header a c.
Proof.
  intros (? & ? & ? & ? & ?) (? & ? & ? & ? & ?). repeat split; congruence.
Qed.

Lemma members_extended_refl ci : members_extended ci ci.
Proof. repeat split; exists []; by rewrite List.app_nil_r. Qed.

Lemma members_extended_trans a b c :
  members_extended a b -> members_extended b c -> members_extended a c.
Proof.
  intros ([x1 H1] & [x2 H2] & [x3 H3] & [x4 H4]) ([y1 G1] & [y2 G2] & [y3 G3] & [y4 G4]).
  repeat split.
  - exists (x1 ++ y1). by rewrite G1, H1, <- (assoc_L (++)).
  - exists (x2 ++ y2). by rewrite G2, H2, <- (assoc_L (++)).
  - exists (x3 ++ y3). by rewrite G3, H3, <- (assoc_L (++)).
  - exists (x4 ++ y4). by rewrite G4, H4, <- (assoc_L (++)).
Qed.

Lemma dispatch_appends line rest doc ci rest' doc' ci' :
  ClassInfo.dispatch line rest doc ci = Ok (rest', doc', ci') ->
  same_header ci ci' /\ members_extended ci ci'.
Proof.
  assert (Hsame : same_header ci ci /\ members_extended ci ci)
    by (split; [apply same_header_refl | apply members_extended_refl]).
  unfold ClassInfo.dispatch.
  destruct (isspace line); [by intros [= _ _ <-]|].
  destruct (startswith "##" (lstrip line)); [by intros [= _ _ <-]|].
  destruct (ClassInfo.lone_annotation line); [by intros [= _ _ <-]|].
  unfold mbind, result_bind.
  destruct (if startswith "@" line then _ else _) as [[annotation line']|e]; [|done].
  destruct (startswith "signal" line').
  { destruct (SignalInfo.parse_from_script _ _ _) as [[x pos]|e]; [|done].
    intros [= _ _ <-]. split; [by repeat split|].
    repeat split; try (exists []; by rewrite List.app_nil_r). by exists [x]. }
  destruct (startswith "enum" line').
  { destruct (EnumInfo.parse_from_script _ _ _) as [[x pos]|e]; [|done].
    intros [= _ _ <-]. split; [by repeat split|].
    repeat split; try (exists []; by rewrite List.app_nil_r). by exists [x]. }
  destruct (startswith "var" line').
  { destruct (PropertyInfo.parse_from_script _ _ _ _) as [[x pos]|e]; [|done].
    intros [= _ _ <-]. split; [by repeat split|].
    repeat split; try (exists []; by rewrite List.app_nil_r). by exists [x]. }
  destruct (startswith "func" line').
  { destruct (MethodInfo.parse_from_script _ _ _) as [[x pos]|e]; [|done].
    intros [= _ _ <-]. split; [by repeat split|].
    repeat split; try (exists []; by rewrite List.app_nil_r). by exists [x]. }
  by intros [= _ _ <-].
Qed.

Lemma read_declarations_appends fuel : forall lines doc ci ci',
  ClassInfo.read_declarations fuel lines doc ci = Some (Ok ci') ->
  same_header ci ci' /\ members_extended ci ci'.
Proof.
  induction fuel as [|fuel IH]; intros [|line rest] doc ci ci';
    cbn [ClassInfo.read_declarations]; try done.
  - intros [= <-]. split; [apply same_header_refl | apply members_extended_refl].
  - intros [= <-]. split; [apply same_header_refl | apply members_extended_refl].
  - destruct (ClassInfo.dispatch line rest doc ci) as [[[rest' doc'] ci1]|e] eqn:E;
      [|done].
    intros H. apply dispatch_appends in E as [Hs Hm]. apply IH in H as [Hs' Hm'].
    split; [by eapply same_header_trans | by eapply members_extended_trans].
Qed.

(** X2. The declaration loop never touches the path, the name, the base
    class, the summary or the description of the class, and it only adds
    to the signals, enums, properties and methods, after those that were
    there: the members are in the order of their declarations. *)
Theorem declarations_only_append fuel : forall lines doc ci ci',
  ClassInfo.read_declarations fuel lines doc ci = Some (Ok ci') ->
  same_header ci ci' /\ members_extended ci ci'.
Proof. exact (read_declarations_appends fuel). Qed.

(** A class that already has a signal reads a property and a second
    signal. *)
Lemma declarations_only_append_witness :
  exists ci',
    ClassInfo.read_declarations 2 [nl "var speed = 1"; nl "signal died"] EmptyString
      one_signal_class
    = Some (Ok ci')
    /\ ClassInfo.signals ci' = [SignalInfo.mk "hit" None []; SignalInfo.mk "died" None []]
    /\ same_header one_signal_class ci' /\ members_extended one_signal_class ci'.
Proof.
  eexists. split; [reflexivity|]. split; [reflexivity|].
  apply (declarations_only_append 2 [nl "var speed = 1"; nl "signal died"] EmptyString
           one_signal_class).
  reflexivity.
Defined.

(** ** Where the header fields come from *)

Lemma header_line_fields line ci full_desc def_found ci' full_desc' def_found' :
  ClassInfo.header_line line ci full_desc def_found = Ok (ci', full_desc', def_found') ->
  ClassInfo.file_path ci' = ClassInfo.file_path ci
  /\ ClassInfo.summary ci' = ClassInfo.summary ci
  /\ ClassInfo.description ci' = ClassInfo.description ci
  /\ (ClassInfo.name ci' = ClassInfo.name ci
      \/ startswith "class_name" line = true
         /\ ClassInfo.name ci' = words line !! 1%nat /\ is_Some (words line !! 1%nat))
  /\ (header_comment line = false -> full_desc' = full_desc).
Proof.
  unfold header_comment, is_comment, ClassInfo.header_line, mbind, result_bind, item.
  destruct (startswith "class_name" line) eqn:Hc.
  - destruct (words line !! 1%nat) as [n|] eqn:Hn; [|done].
    destruct (reverse (words_max 2 line) !! 0%nat) as [l|]; [|done].
    destruct (startswith "##" (lstrip l)) eqn:Hcm;
      (destruct (startswith "extends" l);
       [destruct (words l !! 1%nat); [|done]|]);
      intros [= <- <- _]; repeat split; try done; right; by eauto.
  - destruct (startswith "##" (lstrip line)) eqn:Hcm;
      (destruct (startswith "extends" line);
       [destruct (words line !! 1%nat); [|done]|]);
      intros [= <- <- _]; repeat split; try done; by left.
Qed.

Lemma read_header_fields lines : forall ci full_desc def_found blanks ci' full_desc' pos,
  ClassInfo.read_header lines ci full_desc def_found (blanks ++ lines)
  = Ok (ci', full_desc', pos) ->
  ClassInfo.file_path ci' = ClassInfo.file_path ci
  /\ ClassInfo.summary ci' = ClassInfo.summary ci
  /\ ClassInfo.description ci' = ClassInfo.description ci
  /\ (ClassInfo.name ci' = ClassInfo.name ci
      \/ exists line, line ∈ lines /\ startswith "class_name" line = true
                      /\ ClassInfo.name ci' = words line !! 1%nat
                      /\ is_Some (words line !! 1%nat))
  /\ exists read, blanks ++ lines = read ++ pos
                  /\ (Forall (fun line => header_comment line = false) read ->
                      full_desc' = full_desc).
Proof.
  induction lines as [|line rest IH];
    intros ci full_desc def_found blanks ci' full_desc' pos;
    cbn [ClassInfo.read_header].
  - intros [= <- <- <-]. repeat split; [by left|]. by exists [].
  - destruct (def_found && negb (startswith "##" (lstrip line))).
    { intros [= <- <- <-]. repeat split; [by left|]. by exists []. }
    destruct (isspace line).
    { replace (blanks ++ line :: rest) with ((blanks ++ [line]) ++ rest)
        by (by rewrite <- (assoc_L (++))).
      intros (? & ? & ? & Hn & Hr)%IH. repeat split; try done.
      destruct Hn as [Hn|(l & Hl & Hn)]; [by left|].
      right. exists l. split; [by apply elem_of_cons; right|done]. }
    destruct (ClassInfo.header_line line ci full_desc def_found)
      as [[[ci1 fd1] df1]|e] eqn:E; [|done].
    apply header_line_fields in E as (Hp & Hs & Hd & Hn & Hf).
    intros H. apply (IH _ _ _ []) in H as (Hp' & Hs' & Hd' & Hn' & (read & Hr & Hf')).
    cbn [app] in Hr.
    split; [congruence|]. split; [congruence|]. split; [congruence|]. split.
    + destruct Hn' as [Hn'|(l & Hl & Hn')].
      * destruct Hn as [Hn|(Hc & Hn & Hsome)]; [left; congruence|].
        right. exists line. split; [by apply elem_of_cons; left|]. split; [done|].
        split; [congruence|done].
      * right. exists l. split; [by apply elem_of_cons; right|done].
    + exists (blanks ++ line :: read). split; [by rewrite Hr, <- (assoc_L (++))|].
      intros Hall. apply Forall_app in Hall as [_ Hall].
      apply Forall_cons in Hall as [Hline Hall]. rewrite Hf', Hf; done.
Qed.

Lemma header_docs_fields ci full_desc :
  ClassInfo.file_path (ClassInfo.header_docs ci full_desc) = ClassInfo.file_path ci
  /\ ClassInfo.name (ClassInfo.header_docs ci full_desc) = ClassInfo.name ci.
Proof.
  unfold ClassInfo.header_docs.
  destruct (is_empty full_desc); [done|]. by destruct (index_from _ _ _).
Qed.

Lemma parsed_class_fields script_path lines ci :
  ClassInfo.parse_from_script script_path lines = Some (Ok ci) ->
  ClassInfo.file_path ci = script_path
  /\ forall n, ClassInfo.name ci = Some n ->
       exists line, line ∈ lines /\ startswith "class_name" line = true
                    /\ words line !! 1%nat = Some n.
Proof.
  unfold ClassInfo.parse_from_script, ClassInfo.parse_script_header, mbind, result_bind.
  destruct (ClassInfo.read_header lines _ _ false lines) as [[[ci0 fd] pos]|e] eqn:E;
    [|done].
  apply (read_header_fields lines _ _ _ []) in E as (Hp & _ & _ & Hn & _).
  intros H. apply read_declarations_appends in H as [(Hp' & Hn' & _) _].
  destruct (header_docs_fields ci0 fd) as [Hp0 Hn0].
  split; [by rewrite <- Hp', Hp0, Hp|].
  intros n Hname. rewrite <- Hn', Hn0 in Hname.
  destruct Hn as [Hn|(line & Hl & Hc & Hn & _)]; [by rewrite Hn in Hname|].
  exists line. split; [done|]. split; [done|]. congruence.
Qed.

(** X3. The class an ASCII script is parsed to carries the path of the
    script, and it has a name only if a line of the script starts with
    [class_name]: the name is the second word of such a line. *)
Theorem parsed_class_path_and_name script_path lines ci :
  ascii_script lines ->
  ClassInfo.parse_from_script script_path lines = Some (Ok ci) ->
  ClassInfo.file_path ci = script_path
  /\ forall n, ClassInfo.name ci = Some n ->
       exists line, line ∈ lines /\ startswith "class_name" line = true
                    /\ words line !! 1%nat = Some n.
Proof. intros _. apply parsed_class_fields. Qed.

(** The example header, read as a whole script. *)
Lemma parsed_class_path_and_name_witness :
  ascii_script [nl "class_name Foo"; nl "extends Bar"; nl "var speed = 1"]
  /\ exists ci,
    ClassInfo.parse_from_script (Path.of_string "foo.gd")
      [nl "class_name Foo"; nl "extends Bar"; nl "var speed = 1"]
    = Some (Ok ci)
    /\ ClassInfo.file_path ci = Path.of_string "foo.gd"
    /\ forall n, ClassInfo.name ci = Some n ->
         exists line, line ∈ [nl "class_name Foo"; nl "extends Bar"; nl "var speed = 1"]
                      /\ startswith "class_name" line = true
                      /\ words line !! 1%nat = Some n.
Proof.
  assert (Ha : ascii_script [nl "class_name Foo"; nl "extends Bar"; nl "var speed = 1"])
    by (repeat constructor).
  split; [exact Ha|]. eexists. split; [reflexivity|].
  apply (parsed_class_path_and_name (Path.of_string "foo.gd")
           [nl "class_name Foo"; nl "extends Bar"; nl "var speed = 1"] _ Ha).
  reflexivity.
Defined.

(** X5. In an ASCII script, when none of the lines the header parser
    read is a documentation comment (nor a [class_name] line on which a
    comment follows the name), the summary and the description are left
    unset. *)
Theorem header_without_comments lines ci rest script_path :
  ascii_script lines ->
  ClassInfo.parse_script_header lines (ClassInfo.new script_path) = Ok (ci, rest) ->
  exists read,
    read_up_to lines rest read
    /\ (Forall (fun line => header_comment line = false) read ->
        ClassInfo.summary ci = None /\ ClassInfo.description ci = None).
Proof.
  intros _. unfold ClassInfo.parse_script_header, mbind, result_bind.
  destruct (ClassInfo.read_header lines _ _ false lines) as [[[ci0 fd] pos]|e] eqn:E;
    [|done].
  apply (read_header_fields lines _ _ _ []) in E as (_ & Hs & Hd & _ & (read & Hr & Hf)).
  intros [= <- <-]. exists read. split; [exact Hr|].
  intros Hall. rewrite (Hf Hall). unfold ClassInfo.header_docs. cbn [is_empty].
  by rewrite Hs, Hd.
Qed.

(** A header without comments; the comment after it belongs to the
    property. *)
Lemma header_without_comments_witness :
  ascii_script
    [nl "class_name Foo"; nl "extends Bar"; newline; nl "## The speed."; nl "var speed = 1"]
  /\ exists ci,
    ClassInfo.parse_script_header
      [nl "class_name Foo"; nl "extends Bar"; newline; nl "## The speed."; nl "var speed = 1"]
      (ClassInfo.new (Path.of_string "foo.gd"))
    = Ok (ci, [newline; nl "## The speed."; nl "var speed = 1"])
    /\ exists read,
         read_up_to
           [nl "class_name Foo"; nl "extends Bar"; newline; nl "## The speed.";
            nl "var speed = 1"]
           [newline; nl "## The speed."; nl "var speed = 1"] read
         /\ (Forall (fun line => header_comment line = false) read ->
             ClassInfo.summary ci = None /\ ClassInfo.description ci = None).
Proof.
  assert (Ha : ascii_script [nl "class_name Foo"; nl "extends Bar"; newline;
                             nl "## The speed."; nl "var speed = 1"])
    by (repeat constructor).
  split; [exact Ha|]. eexists. split; [reflexivity|].
  apply (header_without_comments _ _ _ (Path.of_string "foo.gd") Ha). reflexivity.
Defined.

(** ** Deferred properties *)

(** X4. A property parsed with the [@onready] flag never has a default,
    whatever its line assigns. *)
Theorem onready_has_no_default lines curr_line description info rest :
  PropertyInfo.parse_from_script lines curr_line description true = Ok (info, rest) ->
  PropertyInfo.default info = None.
Proof.
  unfold PropertyInfo.parse_from_script, mbind, result_bind.
  destruct (Re.rmatch _ curr_line) as [[unmatched groups]|]; [|done].
  destruct (Re.group 1 groups); [|done].
  intros H%read_accessors_default. rewrite H.
  by destruct (Re.group 5 groups); rewrite ?inline_getset_default.
Qed.

(** [@onready var sprite = 5] through the declaration loop. *)
Lemma onready_has_no_default_witness :
  ClassInfo.dispatch (nl "@onready var sprite = 5") [] EmptyString
    (ClassInfo.new (Path.of_string "a.gd"))
  = Ok ([], EmptyString,
        ClassInfo.add_property (ClassInfo.new (Path.of_string "a.gd"))
          (PropertyInfo.mk "sprite" None None None false false))
  /\ PropertyInfo.parse_from_script [] (nl "var sprite = 5") None true
     = Ok (PropertyInfo.mk "sprite" None None None false false, [])
  /\ PropertyInfo.default (PropertyInfo.mk "sprite" None None None false false) = None.
Proof.
  split; [reflexivity|]. split; [reflexivity|].
  apply (onready_has_no_default [] (nl "var sprite = 5") None _ []). reflexivity.
Defined.

(** ** A header of one paragraph *)

Lemma rev_app s t : rev (s +:+ t) = rev t +:+ rev s.
Proof.
  unfold rev. rewrite rev_onto_app.
  generalize (rev_onto s EmptyString). intros acc.
  revert acc. induction t as [|a t IH]; intros acc; [done|].
  cbn [rev_onto]. rewrite IH. rewrite (IH (String a EmptyString)).
  by rewrite sapp_assoc.
Qed.

Lemma lstrip_len s : (len (lstrip s) <= len s)%nat.
Proof.
  induction s as [|a s IH]; [done|]. cbn [lstrip]. destruct (is_ws a); simpl; lia.
Qed.

Lemma lstrip_fixed s :
  lstrip s = s -> s <> EmptyString -> exists c r, s = String c r /\ is_ws c = false.
Proof.
  destruct s as [|c r]; [done|]. cbn [lstrip]. destruct (is_ws c) eqn:E; [|by eauto].
  intros H _. pose proof (lstrip_len r) as Hl. rewrite H in Hl. simpl in Hl. lia.
Qed.

Lemma rstrip_app_keep a b : rstrip b = b -> b <> EmptyString -> rstrip (a +:+ b) = a +:+ b.
Proof.
  unfold rstrip. intros Hb Hne.
  assert (Hl : lstrip (rev b) = rev b) by (by rewrite <- (rev_rev (lstrip (rev b))), Hb).
  assert (Hr : rev b <> EmptyString).
  { intros E. apply Hne. by rewrite <- (rev_rev b), E. }
  destruct (lstrip_fixed _ Hl Hr) as (c & r & Ec & Hc).
  rewrite rev_app, Ec, sapp_cons. cbn [lstrip]. rewrite Hc.
  by rewrite <- sapp_cons, <- Ec, <- rev_app, rev_rev.
Qed.

Lemma comment_text_rstrip s : comment_text s = true -> rstrip s = s /\ s <> EmptyString.
Proof. intros (c & r & -> & _ & Hr & _)%comment_text_inv. done. Qed.

Lemma join_unlines texts :
  texts <> [] -> unlines texts = join newline texts +:+ newline.
Proof.
  induction texts as [|s [|t texts] IH]; [done| |]; intros _.
  - cbn. by rewrite sapp_nil_r.
  - cbn [unlines foldr join] in *. rewrite IH by done. by rewrite !sapp_assoc.
Qed.

Lemma rstrip_join texts :
  texts <> [] -> Forall (fun s => comment_text s = true) texts ->
  rstrip (join newline texts) = join newline texts
  /\ join newline texts <> EmptyString.
Proof.
  induction texts as [|s [|t texts] IH]; [done| |]; intros _ Hall.
  - apply Forall_cons in Hall as [Hs _]. by apply comment_text_rstrip.
  - apply Forall_cons in Hall as [Hs Hall]. destruct (IH ltac:(done) Hall) as [Hr Hne].
    cbn [join] in *. rewrite <- sapp_assoc. split.
    + by apply rstrip_app_keep.
    + destruct (comment_text_inv s Hs) as (c & r & -> & _). done.
Qed.

Lemma strip_unlines texts :
  texts <> [] -> Forall (fun s => comment_text s = true) texts ->
  strip (unlines texts) = join newline texts.
Proof.
  intros Hne Hall. rewrite join_unlines by done. unfold strip.
  destruct (rstrip_join texts Hne Hall) as [Hr _].
  assert (Hl : lstrip (join newline texts +:+ newline) = join newline texts +:+ newline).
  { destruct texts as [|s texts]; [done|]. apply Forall_cons in Hall as [Hs _].
    destruct (comment_text_inv s Hs) as (c & r & -> & Hc & _).
    destruct texts; cbn [join]; rewrite !sapp_cons; cbn [lstrip]; by rewrite Hc. }
  by rewrite Hl, rstrip_nl.
Qed.

Lemma splitlines_unlines texts :
  Forall (fun s => comment_text s = true) texts ->
  splitlines_go (unlines texts) EmptyString false = texts.
Proof.
  induction 1 as [|s texts Hs _ IH]; [done|].
  destruct (comment_text_inv s Hs) as (_ & _ & _ & _ & _ & Hs').
  cbn [unlines foldr]. rewrite splitlines_go_text by done.
  unfold newline at 1. rewrite sapp_cons, sapp_nil_l.
  cbn [splitlines_go andb]. change (is_linebreak "010") with true. cbv iota.
  change (Ascii.eqb "010" "013") with false.
  fold (rev s). rewrite rev_rev. f_equal. exact IH.
Qed.

Lemma index_from_comment_texts texts : forall i,
  Forall (fun s => comment_text s = true) texts ->
  index_from EmptyString texts i = None.
Proof.
  induction texts as [|s texts IH]; intros i Hall; [done|].
  apply Forall_cons in Hall as [Hs Hall]. cbn [index_from].
  destruct (comment_text_inv s Hs) as (c & r & -> & _).
  rewrite decide_False by done. by apply IH.
Qed.

Lemma read_header_comments texts : forall rest ci full_desc,
  Forall (fun s => comment_text s = true) texts ->
  ends_header rest = true ->
  ClassInfo.read_header (comment_lines texts ++ rest) ci full_desc true
    (comment_lines texts ++ rest)
  = Ok (ci, full_desc +:+ unlines texts, rest).
Proof.
  induction texts as [|s texts IH]; intros rest ci full_desc Hall Hrest.
  - cbn [comment_lines fmap list_fmap app unlines foldr]. rewrite sapp_nil_r.
    by apply read_header_end.
  - apply Forall_cons in Hall as [Hs Hall].
    cbn [comment_lines fmap list_fmap app]. fold (comment_lines texts).
    erewrite (read_header_step (nl ("## " +:+ s)));
      [|reflexivity|reflexivity|by apply header_line_comment].
    rewrite IH by done. cbn [unlines foldr]. by rewrite !sapp_assoc.
Qed.

(** X6. In an ASCII script, when the comments of the header hold no empty
    comment, their texts, joined by newlines, become the summary as they
    are written: this summary is not converted by [bbcode_to_md], and there
    is no description. *)
Theorem one_paragraph_summary_unconverted script_path texts rest :
  Forall ascii_text texts -> ascii_script rest ->
  texts <> [] ->
  Forall (fun s => comment_text s = true) texts ->
  ends_header rest = true ->
  ClassInfo.parse_script_header ([nl "extends Node"] ++ comment_lines texts ++ rest)
    (ClassInfo.new script_path)
  = Ok (ClassInfo.mk script_path None "Node" (Some (join newline texts)) None [] [] [] [],
        rest).
Proof.
  intros _ _ Hne Hall Hrest. unfold ClassInfo.parse_script_header. cbn [app].
  rewrite (read_header_step (nl "extends Node") _ _ _ _ _
             (ClassInfo.set_extends (ClassInfo.new script_path) "Node") EmptyString true)
    by reflexivity.
  rewrite read_header_comments by done. rewrite sapp_nil_l.
  unfold mbind, result_bind. f_equal. f_equal.
  unfold ClassInfo.header_docs, splitlines.
  rewrite splitlines_unlines, index_from_comment_texts, strip_unlines by done.
  destruct texts as [|s texts]; [done|]. apply Forall_cons in Hall as [Hs _].
  destruct (comment_text_inv s Hs) as (c & r & -> & _). reflexivity.
Qed.

(** Two comment lines with markup: the tags stay in the summary. *)
Lemma one_paragraph_summary_unconverted_witness :
  Forall ascii_text ["A [b]fast[/b] player."; "See [code]run[/code]."]
  /\ ascii_script [nl "var speed = 1"]
  /\ ["A [b]fast[/b] player."; "See [code]run[/code]."] <> []
  /\ Forall (fun s => comment_text s = true)
       ["A [b]fast[/b] player."; "See [code]run[/code]."]
  /\ ends_header [nl "var speed = 1"] = true
  /\ ClassInfo.parse_script_header
       ([nl "extends Node"]
        ++ comment_lines ["A [b]fast[/b] player."; "See [code]run[/code]."]
        ++ [nl "var speed = 1"])
       (ClassInfo.new (Path.of_string "a.gd"))
     = Ok (ClassInfo.mk (Path.of_string "a.gd") None "Node"
             (Some (join newline ["A [b]fast[/b] player."; "See [code]run[/code]."]))
             None [] [] [] [],
           [nl "var speed = 1"]).
Proof.
  assert (H1 : ["A [b]fast[/b] player."; "See [code]run[/code]."] <> @nil string) by done.
  assert (H2 : Forall (fun s => comment_text s = true)
                 ["A [b]fast[/b] player."; "See [code]run[/code]."])
    by (repeat constructor).
  assert (Ha : Forall ascii_text ["A [b]fast[/b] player."; "See [code]run[/code]."])
    by (repeat constructor).
  assert (Hb : ascii_script [nl "var speed = 1"]) by (repeat constructor).
  split; [exact Ha|]. split; [exact Hb|].
  split; [exact H1|]. split; [exact H2|]. split; [reflexivity|].
  exact (one_paragraph_summary_unconverted (Path.of_string "a.gd") _ [nl "var speed = 1"]
           Ha Hb H1 H2 eq_refl).
Defined.

(** ** The property pattern *)

Lemma star_total p s k :
  (forall s', is_Some (k s')) -> is_Some (Re.star p s k).
Proof.
  intros Hk. induction s as [|a s IH]; cbn [Re.star]; [done|].
  destruct (p a); [|done]. by destruct (Re.star p s k).
Qed.

Lemma run_optional r : forall s c k,
  optional r -> (forall s' c', is_Some (k s' c')) -> is_Some (Re.run r s c k).
Proof.
  induction r as [l|p|p|p|r IH|r1 IH1 r2 IH2|n r IH|r IH]; intros s c k Ho Hk;
    cbn [Re.run optional] in *; try done.
  - subst l. cbn [startswith]. apply Hk.
  - by apply star_total.
  - by destruct (Re.run r s c k).
  - destruct Ho as [Ho1 Ho2]. apply IH1; [done|]. intros s' c'. by apply IH2.
Qed.

Lemma leaves_group_other n r : forall s c s' c',
  ~ mentions n r -> leaves r s c s' c' -> Re.group n c' = Re.group n c.
Proof.
  induction r as [l|p|p|p|r IH|r1 IH1 r2 IH2|m r IH|r IH]; intros s c s' c' Hm;
    cbn [leaves mentions] in *.
  - by intros (_ & _ & ->).
  - by intros (_ & ->).
  - by intros (_ & ->).
  - by intros (_ & ->).
  - intros [H|[_ ->]]; [by eapply IH|done].
  - intros (s1 & c1 & H1 & H2).
    rewrite (IH2 _ _ _ _ ltac:(tauto) H2). apply (IH1 _ _ _ _ ltac:(tauto) H1).
  - intros (c1 & H & ->). cbn [Re.group].
    destruct (n =? m)%nat eqn:E; [apply Nat.eqb_eq in E; subst; tauto|].
    apply (IH _ _ _ _ ltac:(tauto) H).
  - by intros (_ & ->).
Qed.

(** The rest of a pattern that is optional always matches and leaves the
    groups it does not mention as they are. *)
Lemma run_optional_keeps n r s c :
  optional r -> ~ mentions n r ->
  exists s' c',
    Re.run r s c (fun s' c' => Some (s', c')) = Some (s', c')
    /\ Re.group n c' = Re.group n c.
Proof.
  intros Ho Hm.
  destruct (run_optional r s c (fun s' c' => Some (s', c')) Ho) as [[s' c'] E];
    [by eexists|].
  exists s', c'. split; [done|].
  apply run_leaves in E as (s1 & c1 & Hl & [= <- <-]).
  by eapply leaves_group_other.
Qed.

(** A greedy run takes the whole of [w] when what follows is accepted. *)
Lemma star_greedy p w rest k :
  all_chars p w = true -> starts_in p rest = false -> is_Some (k rest) ->
  Re.star p (w +:+ rest) k = k rest.
Proof.
  intros Hw Hrest Hk. induction w as [|a w IH].
  - rewrite sapp_nil_l. destruct rest as [|b rest]; [done|].
    cbn [Re.star]. cbn [starts_in] in Hrest. by rewrite Hrest.
  - cbn [all_chars] in Hw. apply andb_true_iff in Hw as [Ha Hw].
    rewrite sapp_cons. cbn [Re.star]. rewrite Ha, (IH Hw).
    by destruct Hk as [o ->].
Qed.

Lemma word_char_not_ws c : is_word c = true -> is_ws c = false.
Proof. destruct c as [[] [] [] [] [] [] [] []]; by vm_compute. Qed.

Lemma run_var_prefix_greedy tail ws n rest :
  optional tail -> ~ mentions 1 tail ->
  ws <> EmptyString -> all_chars is_ws ws = true -> word n ->
  starts_in is_word rest = false ->
  exists s' c',
    Re.run (Re.Seq (Re.Lit "var")
              (Re.Seq (Re.Plus is_ws) (Re.Seq (Re.Grp 1 (Re.Plus is_word)) tail)))
      ("var" +:+ ws +:+ n +:+ rest) [] (fun s' c' => Some (s', c'))
    = Some (s', c')
    /\ Re.group 1 c' = Some n.
Proof.
  intros Ho Hm Hne Hws [Hn Hw] Hrest.
  destruct ws as [|a ws]; [done|]. destruct n as [|b n]; [done|].
  cbn [all_chars] in Hws, Hw.
  apply andb_true_iff in Hws as [Ha Hws]. apply andb_true_iff in Hw as [Hb Hw].
  change ("var" +:+ String a ws +:+ String b n +:+ rest)
    with (String "v" (String "a" (String "r" (String a (ws +:+ String b n +:+ rest))))).
  cbn [Re.run].
  change (startswith "var" (String "v" (String "a" (String "r"
            (String a (ws +:+ String b n +:+ rest)))))) with true.
  cbv iota. cbn [drop len]. rewrite Ha.
  destruct (run_optional_keeps 1 tail rest [(1%nat, String b n)] Ho Hm)
    as (s' & c' & E & Hg).
  assert (Hk : Re.star is_word (n +:+ rest)
                 (fun s'' => Re.run tail s''
                    [(1%nat, take (len (String b n +:+ rest) - len s'')
                               (String b n +:+ rest))]
                    (fun s' c' => Some (s', c')))
               = Some (s', c')).
  { rewrite star_greedy; [| done | done |]; rewrite take_app_len; [done|by eexists]. }
  exists s', c'. split; [|done].
  rewrite star_greedy; [| done | | ].
  - rewrite sapp_cons. by rewrite Hb.
  - rewrite sapp_cons. cbn [starts_in]. by apply word_char_not_ws.
  - rewrite sapp_cons. rewrite Hb. by eexists.
Qed.

Lemma rmatch_var_greedy ws n rest :
  ws <> EmptyString -> all_chars is_ws ws = true -> word n ->
  starts_in is_word rest = false ->
  exists s' c',
    Re.rmatch PropertyInfo.var_re ("var" +:+ ws +:+ n +:+ rest) = Some (s', c')
    /\ Re.group 1 c' = Some n.
Proof.
  intros. unfold Re.rmatch, PropertyInfo.var_re, Re.seq. cbn [foldr].
  apply run_var_prefix_greedy; try done.
  cbn. intuition lia.
Qed.

Lemma startswith_drop p : forall s, startswith p s = true -> s = p +:+ drop (len p) s.
Proof.
  induction p as [|a p IH]; intros s H; [by destruct s|].
  destruct s as [|b s]; [done|]. cbn [startswith] in H.
  apply andb_true_iff in H as [Hab H]. apply Ascii.eqb_eq in Hab. subst b.
  rewrite sapp_cons. cbn [len drop]. by rewrite <- IH.
Qed.

Lemma leaves_var_prefix tail line s' c' :
  ~ mentions 1 tail ->
  leaves (Re.Seq (Re.Lit "var")
            (Re.Seq (Re.Plus is_ws) (Re.Seq (Re.Grp 1 (Re.Plus is_word)) tail)))
    line [] s' c' ->
  var_shape line /\ is_Some (Re.group 1 c').
Proof.
  intros Hm. cbn [leaves].
  intros (s1 & c1 & (Hv & -> & ->) & s2 & c2 & ((ws & Hs1 & Hws & Hne) & ->)
          & s3 & c3 & (c4 & ((n & -> & Hn & Hnn) & ->) & ->) & Ht).
  split.
  - exists ws, n, s3. split; [|done]. rewrite <- Hs1. by apply startswith_drop.
  - rewrite (leaves_group_other 1 tail _ _ _ _ Hm Ht). by eexists.
Qed.

Lemma rmatch_var_shape line s' c' :
  Re.rmatch PropertyInfo.var_re line = Some (s', c') ->
  var_shape line /\ is_Some (Re.group 1 c') /\ captures_words 4 c'.
Proof.
  unfold Re.rmatch. intros E. apply run_leaves in E as (s1 & c1 & Hl & [= <- <-]).
  assert (Hc : captures_words 4 c1).
  { eapply leaves_captures_words; [|exact Hl|constructor]. cbn. repeat split; done. }
  unfold PropertyInfo.var_re, Re.seq in Hl. cbn [foldr] in Hl.
  apply leaves_var_prefix in Hl as [Hs Hg]; [done|]. cbn. intuition lia.
Qed.

Lemma inline_getset_fields info text :
  PropertyInfo.name (PropertyInfo._parse_inline_getset info text) = PropertyInfo.name info
  /\ PropertyInfo.type (PropertyInfo._parse_inline_getset info text)
     = PropertyInfo.type info
  /\ PropertyInfo.description (PropertyInfo._parse_inline_getset info text)
     = PropertyInfo.description info.
Proof.
  unfold PropertyInfo._parse_inline_getset.
  by destruct (Re.has_match _ text), (Re.has_match _ text).
Qed.

Lemma read_accessors_ok lines : forall info file_pos,
  lines_ok lines ->
  exists info' pos,
    PropertyInfo.read_accessors lines info file_pos = Ok (info', pos)
    /\ PropertyInfo.name info' = PropertyInfo.name info
    /\ PropertyInfo.type info' = PropertyInfo.type info
    /\ PropertyInfo.description info' = PropertyInfo.description info.
Proof.
  induction lines as [|line rest IH]; intros info file_pos Hok;
    cbn [PropertyInfo.read_accessors]; [by eexists _, _|].
  apply Forall_cons in Hok as [Hline Hok].
  destruct line as [|c line]; [done|]. cbn [first_item].
  destruct (negb (is_ws c)); [by eexists _, _|].
  match goal with
  | |- context [PropertyInfo.read_accessors rest ?i rest] =>
      destruct (IH i rest Hok) as (info' & pos & -> & Hn & Ht & Hd);
      assert (Hi : PropertyInfo.name i = PropertyInfo.name info
                   /\ PropertyInfo.type i = PropertyInfo.type info
                   /\ PropertyInfo.description i = PropertyInfo.description info)
  end.
  { destruct (inline_getset_fields info (String c line)) as (? & ? & ?).
    destruct (startswith "set" _); [done|]. by destruct (startswith "get" _). }
  destruct Hi as (? & ? & ?). exists info', pos. repeat split; congruence.
Qed.

Lemma property_parse_ok lines line description onready s' c' :
  Re.rmatch PropertyInfo.var_re line = Some (s', c') ->
  lines_ok lines ->
  exists info pos,
    PropertyInfo.parse_from_script lines line description onready = Ok (info, pos)
    /\ Re.group 1 c' = Some (PropertyInfo.name info)
    /\ Re.group 2 c' = PropertyInfo.type info
    /\ PropertyInfo.description info = description.
Proof.
  intros E Hok. destruct (rmatch_var_shape _ _ _ E) as (_ & [n Hn] & Hc).
  unfold PropertyInfo.parse_from_script, mbind, result_bind. rewrite E, Hn.
  assert (Hd : exists d, match (if onready then None else Re.group 4 c') with
                         | Some d => match PropertyInfo.normalize_default d with
                                     | Ok d' => Ok (Some d')
                                     | Raise e => Raise e
                                     end
                         | None => Ok None
                         end = Ok d).
  { destruct onready; [by eexists|].
    destruct (Re.group 4 c') as [d|] eqn:E4; [|by eexists].
    rewrite (word_not_container d); [by eexists|]. by eapply group_captures_words. }
  destruct Hd as [d ->].
  match goal with
  | |- context [PropertyInfo.read_accessors lines ?i lines] =>
      destruct (read_accessors_ok lines i lines Hok) as (info' & pos & -> & H1 & H2 & H3);
      assert (Hi : PropertyInfo.name i = n /\ PropertyInfo.type i = Re.group 2 c'
                   /\ PropertyInfo.description i = description)
  end.
  { destruct (Re.group 5 c') as [text|]; [|done].
    by destruct (inline_getset_fields
                   (PropertyInfo.mk n (Re.group 2 c') description d false false) text)
      as (-> & -> & ->). }
  destruct Hi as (? & ? & ?). exists info', pos. repeat split; congruence.
Qed.

(** X7. On an ASCII line made of [var], whitespace and an identifier, in an
    ASCII script, the property parser succeeds and the name of the property
    is that identifier, the longest run of word characters; the description
    is the one passed in. *)
Theorem property_name_is_identifier lines ws n rest description onready :
  ascii_text ("var" +:+ ws +:+ n +:+ rest) -> ascii_script lines ->
  lines_ok lines ->
  ws <> EmptyString -> all_chars is_ws ws = true -> word n ->
  starts_in is_word rest = false ->
  exists info pos,
    PropertyInfo.parse_from_script lines ("var" +:+ ws +:+ n +:+ rest) description onready
    = Ok (info, pos)
    /\ PropertyInfo.name info = n
    /\ PropertyInfo.description info = description.
Proof.
  intros _ _ Hok Hne Hws Hn Hrest.
  destruct (rmatch_var_greedy ws n rest Hne Hws Hn Hrest) as (s' & c' & E & Hg).
  destruct (property_parse_ok lines _ description onready s' c' E Hok)
    as (info & pos & Hp & Hname & _ & Hd).
  exists info, pos. split; [done|]. split; [congruence|done].
Qed.

(** [var max_speed: float = 10.0] followed by another property. *)
Lemma property_name_is_identifier_witness :
  ascii_text ("var" +:+ " " +:+ "max_speed" +:+ nl ": float = 10.0")
  /\ ascii_script [nl "var health = 3"]
  /\ lines_ok [nl "var health = 3"]
  /\ " " <> EmptyString /\ all_chars is_ws " " = true /\ word "max_speed"
  /\ starts_in is_word (nl ": float = 10.0") = false
  /\ exists info pos,
       PropertyInfo.parse_from_script [nl "var health = 3"]
         ("var" +:+ " " +:+ "max_speed" +:+ nl ": float = 10.0") (Some "Top speed.") false
       = Ok (info, pos)
       /\ PropertyInfo.name info = "max_speed"
       /\ PropertyInfo.description info = Some "Top speed.".
Proof.
  assert (H1 : lines_ok [nl "var health = 3"]) by (by repeat constructor).
  assert (H2 : word "max_speed") by (by split).
  assert (Ha : ascii_text ("var" +:+ " " +:+ "max_speed" +:+ nl ": float = 10.0"))
    by reflexivity.
  assert (Hb : ascii_script [nl "var health = 3"]) by (repeat constructor).
  split; [exact Ha|]. split; [exact Hb|].
  split; [exact H1|]. split; [done|]. split; [reflexivity|]. split; [exact H2|].
  split; [reflexivity|].
  apply (property_name_is_identifier [nl "var health = 3"] " " "max_speed"
           (nl ": float = 10.0") (Some "Top speed.") false Ha Hb H1);
    [done|reflexivity|exact H2|reflexivity].
Defined.

Lemma span_class p s :
  exists w r, s = w +:+ r /\ all_chars p w = true /\ starts_in p r = false.
Proof.
  induction s as [|a s (w & r & -> & Hw & Hr)]; [by exists EmptyString, EmptyString|].
  destruct (p a) eqn:E.
  - exists (String a w), r. rewrite sapp_cons. cbn [all_chars]. by rewrite E, Hw.
  - exists EmptyString, (String a (w +:+ r)). by rewrite sapp_nil_l.
Qed.

Lemma all_chars_app p s t : all_chars p (s +:+ t) = all_chars p s && all_chars p t.
Proof.
  induction s as [|a s IH]; [done|]. rewrite sapp_cons. cbn [all_chars].
  by rewrite IH, andb_assoc.
Qed.

Lemma var_shape_matches line : var_shape line -> is_Some (Re.rmatch PropertyInfo.var_re line).
Proof.
  intros (ws & n & rest & -> & Hne & Hws & [Hn Hw]).
  destruct (span_class is_word rest) as (w & r & -> & Hw' & Hr).
  assert (Hword : word (n +:+ w)).
  { split; [by destruct n|]. by rewrite all_chars_app, Hw, Hw'. }
  destruct (rmatch_var_greedy ws (n +:+ w) r Hne Hws Hword Hr) as (s' & c' & E & _).
  rewrite !sapp_assoc in E. by eexists.
Qed.

(** X8. In an ASCII script, the property parser accepts exactly the lines
    made of [var], whitespace and a word, whatever follows; on every other
    line it raises [AttributeError], and it raises nothing else. *)
Theorem property_line_accepted lines line description onready :
  ascii_text line -> ascii_script lines ->
  lines_ok lines ->
  match PropertyInfo.parse_from_script lines line description onready with
  | Ok _ => var_shape line
  | Raise e => e = AttributeError /\ ~ var_shape line
  end.
Proof.
  intros _ _ Hok.
  destruct (Re.rmatch PropertyInfo.var_re line) as [[s' c']|] eqn:E.
  - destruct (property_parse_ok lines line description onready s' c' E Hok)
      as (info & pos & -> & _).
    by apply rmatch_var_shape in E as [Hs _].
  - unfold PropertyInfo.parse_from_script. rewrite E. split; [done|].
    intros [o Ho]%var_shape_matches. congruence.
Qed.

(** A line that starts with [var] but is an assignment to [variant]. *)
Lemma property_line_accepted_witness :
  ascii_text (nl "variant = 3") /\ ascii_script [nl "var health = 3"]
  /\ lines_ok [nl "var health = 3"]
  /\ PropertyInfo.parse_from_script [nl "var health = 3"] (nl "variant = 3") None false
     = Raise AttributeError
  /\ ~ var_shape (nl "variant = 3").
Proof.
  assert (H1 : lines_ok [nl "var health = 3"]) by (by repeat constructor).
  assert (Ha : ascii_text (nl "variant = 3")) by reflexivity.
  assert (Hb : ascii_script [nl "var health = 3"]) by (repeat constructor).
  split; [exact Ha|]. split; [exact Hb|]. split; [exact H1|].
  pose proof (property_line_accepted [nl "var health = 3"] (nl "variant = 3") None false
                Ha Hb H1) as H.
  change (PropertyInfo.parse_from_script [nl "var health = 3"] (nl "variant = 3") None false)
    with (@Raise (PropertyInfo.t * script) AttributeError) in H.
  split; [reflexivity|]. exact (proj2 H).
Defined.

(** ** Names of methods and signals *)

Lemma contains_char_app c s t :
  contains (String c EmptyString) (s +:+ t)
  = contains (String c EmptyString) s || contains (String c EmptyString) t.
Proof.
  induction s as [|a s IH].
  - rewrite sapp_nil_l. by destruct t.
  - rewrite sapp_cons. cbn [contains startswith]. rewrite IH.
    destruct (Ascii.eqb c a); [done|]. cbn [andb orb]. done.
Qed.

Lemma find_from_absent sub s : forall i, contains sub s = false -> find_from sub s i = -1.
Proof.
  induction s as [|a s IH]; intros i Hc.
  - cbn [find_from]. by rewrite (contains_false_head _ _ Hc).
  - cbn [find_from]. rewrite (contains_false_head _ _ Hc).
    apply IH. by eapply contains_false_tail.
Qed.

Lemma clamp_nat n k : (k <= n)%nat -> clamp n (Z.of_nat k) = k.
Proof.
  intros H. unfold clamp.
  destruct (Z.of_nat k <? 0) eqn:E; [apply Z.ltb_lt in E; lia|]. lia.
Qed.

Lemma take_app w s : take (len w) (w +:+ s) = w.
Proof. induction w as [|a w IH]; [by destruct s|]. rewrite sapp_cons. simpl. by rewrite IH. Qed.

Lemma slice_middle a b c :
  slice (a +:+ b +:+ c) (Some (Z.of_nat (len a))) (Some (Z.of_nat (len a + len b))) = b.
Proof.
  unfold slice. rewrite !clamp_nat by (rewrite !len_app; lia).
  rewrite drop_app_len. replace (len a + len b - len a)%nat with (len b) by lia.
  apply take_app.
Qed.

Lemma slice_to_last a b c :
  slice (a +:+ b +:+ String c EmptyString) (Some (Z.of_nat (len a))) (Some (-1)) = b.
Proof.
  unfold slice. rewrite clamp_nat by (rewrite !len_app; lia).
  replace (clamp (len (a +:+ b +:+ String c EmptyString)) (-1)) with (len a + len b)%nat.
  - rewrite drop_app_len. replace (len a + len b - len a)%nat with (len b) by lia.
    apply take_app.
  - unfold clamp. rewrite !len_app. cbn [len]. change (-1 <? 0) with true. cbv iota. lia.
Qed.

Lemma callable_name_slice kw n rest :
  contains " " kw = false -> contains "(" kw = false -> contains "(" n = false ->
  strip (slice (kw +:+ " " +:+ n +:+ "(" +:+ rest)
           (Some (find " " (kw +:+ " " +:+ n +:+ "(" +:+ rest)))
           (Some (find "(" (kw +:+ " " +:+ n +:+ "(" +:+ rest))))
  = strip n.
Proof.
  intros Hs Hk Hn.
  assert (F1 : find " " (kw +:+ " " +:+ n +:+ "(" +:+ rest) = Z.of_nat (len kw)).
  { unfold find. rewrite (find_from_skip " " kw) by done.
    rewrite sapp_cons, sapp_nil_l.
    cbn [find_from startswith Ascii.eqb Bool.eqb andb]. lia. }
  assert (F2 : find "(" (kw +:+ " " +:+ n +:+ "(" +:+ rest)
               = Z.of_nat (len kw + len (" " +:+ n))).
  { unfold find.
    transitivity (find_from "(" ((kw +:+ " " +:+ n) +:+ "(" +:+ rest) 0);
      [by rewrite !sapp_assoc|].
    rewrite (find_from_skip "(" (kw +:+ " " +:+ n)).
    - rewrite (sapp_cons "(" EmptyString rest), sapp_nil_l.
      cbn [find_from startswith Ascii.eqb Bool.eqb andb]. rewrite !len_app. lia.
    - rewrite !contains_char_app, Hk, Hn. reflexivity. }
  rewrite F1, F2. rewrite <- (sapp_assoc " " n). rewrite slice_middle. reflexivity.
Qed.

(** X9. In an ASCII script, the name of a method or of a signal with a
    parameter list is the text between the first space and the first
    opening parenthesis of its line, without the whitespace around it. *)
Theorem callable_name_before_parenthesis lines kw n rest description :
  ascii_text (kw +:+ " " +:+ n +:+ "(" +:+ rest) -> ascii_script lines ->
  contains " " kw = false -> contains "(" kw = false -> contains "(" n = false ->
  (forall m pos,
     MethodInfo.parse_from_script lines (kw +:+ " " +:+ n +:+ "(" +:+ rest) description
     = Ok (m, pos) ->
     MethodInfo.name m = strip n /\ MethodInfo.description m = description)
  /\ (forall s pos,
        SignalInfo.parse_from_script lines (kw +:+ " " +:+ n +:+ "(" +:+ rest) description
        = Ok (s, pos) ->
        SignalInfo.name s = strip n /\ SignalInfo.description s = description).
Proof.
  intros _ _ Hs Hk Hn. split.
  - intros m pos. unfold MethodInfo.parse_from_script, mbind, result_bind.
    destruct (MethodInfo.read_signature _ _ _ _) as [[args_lines last_line] file_pos].
    destruct (ArgInfo.parse_definition args_lines); [|done].
    intros [= <- _]. cbn [MethodInfo.name MethodInfo.description].
    by rewrite callable_name_slice.
  - intros s pos. unfold SignalInfo.parse_from_script, mbind, result_bind.
    destruct (if contains "(" _ then _ else _) as [[args pos']|]; [|done].
    intros [= <- _]. cbn [SignalInfo.name SignalInfo.description].
    by rewrite callable_name_slice.
Qed.

(** [func take_damage(amount: int) -> void:] *)
Lemma callable_name_before_parenthesis_witness :
  ascii_text ("func" +:+ " " +:+ "take_damage" +:+ "(" +:+ nl "amount: int) -> void:")
  /\ ascii_script [nl "  pass"]
  /\ contains " " "func" = false /\ contains "(" "func" = false
  /\ contains "(" "take_damage" = false
  /\ MethodInfo.parse_from_script [nl "  pass"]
       ("func" +:+ " " +:+ "take_damage" +:+ "(" +:+ nl "amount: int) -> void:")
       (Some "Hurts.")
     = Ok (MethodInfo.mk "take_damage" (Some "Hurts.")
             [ArgInfo.mk "amount" (Some "int") None] None, [])
  /\ MethodInfo.name
       (MethodInfo.mk "take_damage" (Some "Hurts.") [ArgInfo.mk "amount" (Some "int") None]
          None)
     = strip "take_damage".
Proof.
  assert (Ha : ascii_text ("func" +:+ " " +:+ "take_damage" +:+ "("
                           +:+ nl "amount: int) -> void:")) by reflexivity.
  assert (Hb : ascii_script [nl "  pass"]) by (repeat constructor).
  split; [exact Ha|]. split; [exact Hb|].
  split; [reflexivity|]. split; [reflexivity|]. split; [reflexivity|].
  assert (H : MethodInfo.parse_from_script [nl "  pass"]
                ("func" +:+ " " +:+ "take_damage" +:+ "(" +:+ nl "amount: int) -> void:")
                (Some "Hurts.")
              = Ok (MethodInfo.mk "take_damage" (Some "Hurts.")
                      [ArgInfo.mk "amount" (Some "int") None] None, [])) by reflexivity.
  split; [exact H|].
  exact (proj1 (proj1 (callable_name_before_parenthesis [nl "  pass"] "func" "take_damage"
                         (nl "amount: int) -> void:") (Some "Hurts.")
                         Ha Hb eq_refl eq_refl eq_refl) _ _ H)).
Defined.

(** X10. A signal whose ASCII line has no parenthesis has no arguments and
    takes no further line of the script; its name is the text after the
    first space without the last character of the line.  That character is the
    newline, or, on the last line of a file that does not end in a
    newline, the last letter of the name. *)
Theorem signal_without_parameters lines kw n c description :
  ascii_text (kw +:+ " " +:+ n +:+ String c EmptyString) ->
  contains " " kw = false ->
  contains "(" (kw +:+ " " +:+ n +:+ String c EmptyString) = false ->
  SignalInfo.parse_from_script lines (kw +:+ " " +:+ n +:+ String c EmptyString) description
  = Ok (SignalInfo.mk (strip n) description [], lines).
Proof.
  intros _ Hs Hp. unfold SignalInfo.parse_from_script, mbind, result_bind.
  rewrite Hp.
  assert (F1 : find " " (kw +:+ " " +:+ n +:+ String c EmptyString) = Z.of_nat (len kw)).
  { unfold find. rewrite (find_from_skip " " kw) by done.
    rewrite sapp_cons, sapp_nil_l.
    cbn [find_from startswith Ascii.eqb Bool.eqb andb]. lia. }
  assert (F2 : find "(" (kw +:+ " " +:+ n +:+ String c EmptyString) = -1)
    by (by apply find_from_absent).
  rewrite F1, F2, <- (sapp_assoc " " n), slice_to_last. reflexivity.
Qed.

(** [signal died] with and without the final newline. *)
Lemma signal_without_parameters_witness :
  ascii_text ("signal" +:+ " " +:+ "died" +:+ newline)
  /\ contains " " "signal" = false
  /\ contains "(" ("signal" +:+ " " +:+ "died" +:+ newline) = false
  /\ SignalInfo.parse_from_script [nl "var speed = 1"]
       ("signal" +:+ " " +:+ "died" +:+ newline) None
     = Ok (SignalInfo.mk "died" None [], [nl "var speed = 1"])
  /\ SignalInfo.parse_from_script [] ("signal" +:+ " " +:+ "die" +:+ "d") None
     = Ok (SignalInfo.mk "die" None [], []).
Proof.
  split; [reflexivity|]. split; [reflexivity|]. split; [reflexivity|]. split.
  - exact (signal_without_parameters [nl "var speed = 1"] "signal" "died" "010" None
             eq_refl eq_refl eq_refl).
  - exact (signal_without_parameters [] "signal" "die" "d" None eq_refl eq_refl eq_refl).
Defined.

(** ** Facts about stripping and splitting *)

Lemma rev_cons a s : rev (String a s) = rev s +:+ String a EmptyString.
Proof. change (String a s) with (String a EmptyString +:+ s). by rewrite rev_app. Qed.

Lemma is_empty_true s : is_empty s = true -> s = EmptyString.
Proof. by destruct s. Qed.

Lemma is_empty_app s t : is_empty (s +:+ t) = is_empty s && is_empty t.
Proof. destruct s; [by destruct t|done]. Qed.

Lemma is_empty_rev s : is_empty (rev s) = is_empty s.
Proof.
  destruct s as [|a s]; [done|]. rewrite rev_cons, is_empty_app. cbn [is_empty].
  apply andb_false_r.
Qed.

Lemma lstrip_snoc x a :
  lstrip (x +:+ String a EmptyString)
  = if is_empty (lstrip x)
    then (if is_ws a then EmptyString else String a EmptyString)
    else lstrip x +:+ String a EmptyString.
Proof.
  induction x as [|b x IH].
  - rewrite sapp_nil_l. cbn [lstrip is_empty]. by destruct (is_ws a).
  - rewrite sapp_cons. cbn [lstrip]. destruct (is_ws b); [exact IH|done].
Qed.

(** [rstrip] by recursion on the text. *)
Lemma rstrip_cons a s :
  rstrip (String a s)
  = if is_empty (rstrip s)
    then (if is_ws a then EmptyString else String a EmptyString)
    else String a (rstrip s).
Proof.
  unfold rstrip. rewrite rev_cons, lstrip_snoc, is_empty_rev.
  destruct (is_empty (lstrip (rev s))); [by destruct (is_ws a)|].
  by rewrite rev_app.
Qed.

Lemma lstrip_idem s : lstrip (lstrip s) = lstrip s.
Proof.
  induction s as [|a s IH]; [done|]. cbn [lstrip].
  destruct (is_ws a) eqn:E; [done|]. cbn [lstrip]. by rewrite E.
Qed.

Lemma rstrip_idem s : rstrip (rstrip s) = rstrip s.
Proof.
  induction s as [|a s IH]; [done|]. rewrite (rstrip_cons a s).
  destruct (is_empty (rstrip s)) eqn:E.
  - destruct (is_ws a) eqn:Ea; [done|]. rewrite rstrip_cons. cbn. by rewrite Ea.
  - by rewrite rstrip_cons, IH, E.
Qed.

Lemma lstrip_rstrip s : lstrip (rstrip s) = rstrip (lstrip s).
Proof.
  induction s as [|a s IH]; [done|]. rewrite (rstrip_cons a s). cbn [lstrip].
  destruct (is_ws a) eqn:Ea.
  - destruct (is_empty (rstrip s)) eqn:E.
    + rewrite <- IH, (is_empty_true _ E). done.
    + cbn [lstrip]. by rewrite Ea.
  - rewrite rstrip_cons.
    destruct (is_empty (rstrip s)) eqn:E; cbn [lstrip]; by rewrite Ea.
Qed.

Lemma strip_lstrip s : strip (lstrip s) = strip s.
Proof. unfold strip. by rewrite lstrip_idem. Qed.

Lemma strip_rstrip s : strip (rstrip s) = strip s.
Proof. unfold strip. by rewrite lstrip_rstrip, rstrip_idem. Qed.

Lemma lstrip_barrier n c t :
  is_ws c = false -> lstrip (n +:+ String c t) = lstrip n +:+ String c t.
Proof.
  intros Hc. induction n as [|a n IH].
  - rewrite sapp_nil_l. cbn [lstrip]. by rewrite Hc.
  - rewrite sapp_cons. cbn [lstrip]. destruct (is_ws a); [exact IH|done].
Qed.

Lemma rstrip_barrier x c t :
  is_ws c = false -> rstrip (x +:+ String c t) = x +:+ String c (rstrip t).
Proof.
  intros Hc. induction x as [|a x IH].
  - rewrite !sapp_nil_l, rstrip_cons, Hc.
    destruct (is_empty (rstrip t)) eqn:E; [by rewrite (is_empty_true _ E)|done].
  - rewrite !sapp_cons, rstrip_cons, IH. by destruct x.
Qed.

Lemma strip_barrier n c t :
  is_ws c = false -> strip (n +:+ String c t) = lstrip n +:+ String c (rstrip t).
Proof. intros Hc. unfold strip. by rewrite lstrip_barrier, rstrip_barrier. Qed.

Lemma lstrip_suffix s : suffix (lstrip s) s.
Proof. induction s as [|a s IH]; cbn [lstrip]; [auto|]. destruct (is_ws a); auto. Qed.

Lemma rstrip_prefix s : exists w, s = rstrip s +:+ w.
Proof.
  induction s as [|a s [w IH]]; [by exists EmptyString|]. rewrite rstrip_cons.
  destruct (is_empty (rstrip s)) eqn:E.
  - destruct (is_ws a); [by exists (String a s)|]. exists s. done.
  - exists w. by rewrite sapp_cons, <- IH.
Qed.

Lemma contains_char_lstrip c s :
  contains (String c EmptyString) s = false ->
  contains (String c EmptyString) (lstrip s) = false.
Proof. intros H. eapply contains_suffix_false; [exact H|apply lstrip_suffix]. Qed.

Lemma contains_char_rstrip c s :
  contains (String c EmptyString) s = false ->
  contains (String c EmptyString) (rstrip s) = false.
Proof.
  intros H. destruct (rstrip_prefix s) as [w Hw]. rewrite Hw in H.
  rewrite contains_char_app in H. by apply orb_false_iff in H as [? _].
Qed.

Lemma startswith_char c a s :
  startswith (String c EmptyString) (String a s) = Ascii.eqb c a.
Proof. cbn [startswith]. apply andb_true_r. Qed.

Lemma split_go_skip c a : forall rest cur,
  contains (String c EmptyString) a = false ->
  split_go (String c EmptyString) (a +:+ rest) cur O None
  = split_go (String c EmptyString) rest (rev_onto a cur) O None.
Proof.
  induction a as [|b a IH]; intros rest cur Hc; [done|].
  cbn [contains] in Hc. apply orb_false_iff in Hc as [Hb Hc].
  rewrite startswith_char in Hb.
  rewrite sapp_cons. cbn [split_go rev_onto]. rewrite startswith_char, Hb. by apply IH.
Qed.

Lemma split_go_sep c rest cur :
  split_go (String c EmptyString) (String c rest) cur O None
  = rev cur :: split_go (String c EmptyString) rest EmptyString O None.
Proof. cbn [split_go]. rewrite startswith_char, Ascii.eqb_refl. done. Qed.

Lemma split_absent c a :
  contains (String c EmptyString) a = false -> split (String c EmptyString) a = [a].
Proof.
  intros Hc. unfold split. rewrite <- (sapp_nil_r a) at 1.
  rewrite split_go_skip by done. cbn [split_go]. fold (rev a). by rewrite rev_rev.
Qed.

Lemma split_two c a b :
  contains (String c EmptyString) a = false ->
  contains (String c EmptyString) b = false ->
  split (String c EmptyString) (a +:+ String c b) = [a; b].
Proof.
  intros Ha Hb. unfold split. rewrite split_go_skip by done.
  rewrite split_go_sep. fold (rev a). rewrite rev_rev.
  fold (split (String c EmptyString) b). by rewrite split_absent.
Qed.

Lemma split_go_length c s : forall cur,
  length (split_go (String c EmptyString) s cur O None) = S (count_char c s).
Proof.
  induction s as [|a s IH]; intros cur; [done|].
  cbn [split_go count_char]. rewrite startswith_char.
  destruct (Ascii.eqb c a); cbn [length fmap option_fmap option_map len Nat.sub];
    by rewrite IH.
Qed.

Lemma count_char_contains c s :
  count_char c s = O <-> contains (String c EmptyString) s = false.
Proof.
  induction s as [|a s IH]; [done|].
  cbn [count_char contains]. rewrite startswith_char.
  destruct (Ascii.eqb c a); cbn [orb]; [split; [lia|done]|]. exact IH.
Qed.

(** ** Arguments *)

Lemma contains_char_true c a b :
  contains (String c EmptyString) (a +:+ String c b) = true.
Proof. rewrite contains_char_app. cbn [contains]. by rewrite startswith_char, Ascii.eqb_refl, orb_true_r. Qed.

Lemma parse_arg_typed n t :
  contains "=" n = false -> contains "=" t = false ->
  contains ":" n = false -> contains ":" t = false ->
  ArgInfo.parse_arg (n +:+ ":" +:+ t) = Ok (ArgInfo.mk (strip n) (Some (strip t)) None).
Proof.
  intros Hn Ht Hn' Ht'. unfold ArgInfo.parse_arg, mbind, result_bind.
  change (":" +:+ t) with (String ":" t).
  replace (contains "=" (n +:+ String ":" t)) with false
    by (rewrite contains_char_app, Hn; cbn [contains]; by rewrite startswith_char, Ht).
  rewrite contains_char_true, split_two by done. cbn [fmap list_fmap unpack2].
  by rewrite !strip_lstrip || reflexivity.
Qed.

(** X11. The four forms of an ASCII argument.  With a type, a default or
    both, the name, the type and the default are the texts around the
    colon and the equals sign, without the whitespace around them; the
    default may itself hold a colon.  An argument with neither is kept as
    it is written, with the whitespace around it. *)
Theorem argument_forms n t d :
  ascii_text n -> ascii_text t -> ascii_text d ->
  contains "=" n = false -> contains ":" n = false ->
  contains "=" t = false -> contains ":" t = false ->
  contains "=" d = false ->
  ArgInfo.parse_arg n = Ok (ArgInfo.mk n None None)
  /\ ArgInfo.parse_arg (n +:+ ":" +:+ t) = Ok (ArgInfo.mk (strip n) (Some (strip t)) None)
  /\ ArgInfo.parse_arg (n +:+ "=" +:+ d) = Ok (ArgInfo.mk (strip n) None (Some (strip d)))
  /\ ArgInfo.parse_arg (n +:+ ":" +:+ t +:+ "=" +:+ d)
     = Ok (ArgInfo.mk (strip n) (Some (strip t)) (Some (strip d))).
Proof.
  intros _ _ _ Hn Hn' Ht Ht' Hd.
  assert (Hstrip : forall s, contains ":" s = false -> contains ":" (strip s) = false).
  { intros s Hs. unfold strip. by apply contains_char_rstrip, contains_char_lstrip. }
  split; [|split; [|split]].
  - unfold ArgInfo.parse_arg, mbind, result_bind. by rewrite Hn, Hn'.
  - by apply parse_arg_typed.
  - unfold ArgInfo.parse_arg, mbind, result_bind.
    change ("=" +:+ d) with (String "=" d).
    rewrite contains_char_true, split_two by done. cbn [fmap list_fmap unpack2].
    by rewrite (Hstrip n Hn').
  - unfold ArgInfo.parse_arg, mbind, result_bind.
    change (":" +:+ t +:+ "=" +:+ d) with (String ":" (t +:+ String "=" d)).
    replace (n +:+ String ":" (t +:+ String "=" d))
      with ((n +:+ String ":" t) +:+ String "=" d)
      by (by rewrite sapp_assoc, sapp_cons).
    rewrite contains_char_true, split_two; [|
      rewrite contains_char_app, Hn; cbn [contains]; by rewrite startswith_char, Ht|done].
    cbn [fmap list_fmap unpack2].
    rewrite strip_barrier by done.
    rewrite contains_char_true, split_two
      by (by apply contains_char_lstrip || by apply contains_char_rstrip).
    cbn [fmap list_fmap unpack2]. by rewrite strip_lstrip, strip_rstrip.
Qed.

(** The argument [amount : int = 5], and an untyped [ speed] after a
    comma. *)
Lemma argument_forms_witness :
  ascii_text " amount " /\ ascii_text " int " /\ ascii_text " 5"
  /\ contains "=" " amount " = false /\ contains ":" " amount " = false
  /\ contains "=" " int " = false /\ contains ":" " int " = false
  /\ contains "=" " 5" = false
  /\ ArgInfo.parse_arg " amount " = Ok (ArgInfo.mk " amount " None None)
  /\ ArgInfo.parse_arg (" amount " +:+ ":" +:+ " int ")
     = Ok (ArgInfo.mk "amount" (Some "int") None)
  /\ ArgInfo.parse_arg (" amount " +:+ "=" +:+ " 5")
     = Ok (ArgInfo.mk "amount" None (Some "5"))
  /\ ArgInfo.parse_arg (" amount " +:+ ":" +:+ " int " +:+ "=" +:+ " 5")
     = Ok (ArgInfo.mk "amount" (Some "int") (Some "5")).
Proof.
  do 8 (split; [reflexivity|]).
  exact (argument_forms " amount " " int " " 5" eq_refl eq_refl eq_refl
           eq_refl eq_refl eq_refl eq_refl eq_refl).
Defined.

(** X12. An argument with two or more equals signs, or with no equals
    sign and two or more colons, cannot be unpacked into two parts: the
    parse raises [ValueError]. *)
Theorem argument_with_two_separators arg :
  ((2 <= count_char "=" arg)%nat -> ArgInfo.parse_arg arg = Raise ValueError)
  /\ (count_char "=" arg = O -> (2 <= count_char ":" arg)%nat ->
      ArgInfo.parse_arg arg = Raise ValueError).
Proof.
  assert (Hun : forall c s, (2 <= count_char c s)%nat ->
                  unpack2 (strip <$> split (String c EmptyString) s) = Raise ValueError).
  { intros c s H. pose proof (split_go_length c s EmptyString) as Hl.
    fold (split (String c EmptyString) s) in Hl.
    destruct (split (String c EmptyString) s) as [|x [|y [|z l]]]; simpl in Hl; try lia.
    done. }
  split.
  - intros H. unfold ArgInfo.parse_arg, mbind, result_bind.
    destruct (contains "=" arg) eqn:E.
    + by rewrite Hun.
    + apply count_char_contains in E. lia.
  - intros H0 H. unfold ArgInfo.parse_arg, mbind, result_bind.
    rewrite (proj1 (count_char_contains "=" arg) H0).
    destruct (contains ":" arg) eqn:E.
    + by rewrite Hun.
    + apply count_char_contains in E. lia.
Qed.

(** A default that compares with [==], and a dictionary type hint. *)
Lemma argument_with_two_separators_witness :
  (2 <= count_char "=" "ok = a == b")%nat
  /\ ArgInfo.parse_arg "ok = a == b" = Raise ValueError
  /\ count_char "=" "m: Dictionary[int: String]" = O
  /\ (2 <= count_char ":" "m: Dictionary[int: String]")%nat
  /\ ArgInfo.parse_arg "m: Dictionary[int: String]" = Raise ValueError.
Proof.
  assert (H1 : (2 <= count_char "=" "ok = a == b")%nat) by (vm_compute; lia).
  assert (H2 : (2 <= count_char ":" "m: Dictionary[int: String]")%nat)
    by (vm_compute; lia).
  split; [exact H1|].
  split; [exact (proj1 (argument_with_two_separators "ok = a == b") H1)|].
  split; [reflexivity|]. split; [exact H2|].
  exact (proj2 (argument_with_two_separators "m: Dictionary[int: String]") eq_refl H2).
Defined.

Lemma mapM_length {A B} (f : A -> result B) l : forall r,
  mapM f l = Ok r -> length r = length l.
Proof.
  induction l as [|x l IH]; intros r; cbn [mapM]; [by intros [= <-]|].
  unfold mbind, result_bind. destruct (f x); [|done].
  destruct (mapM f l) as [ys|]; [|done]. intros [= <-]. simpl. by rewrite (IH ys).
Qed.

(** X13. When a parameter list is parsed, there is one argument more than
    there are commas in its text: every comma separates two arguments,
    also a comma inside a default value. *)
Theorem one_argument_per_comma definition args :
  ArgInfo.parse_definition definition = Ok args ->
  length args = S (count_char "," (param_text definition)).
Proof.
  unfold ArgInfo.parse_definition. intros H%mapM_length. rewrite H.
  apply split_go_length.
Qed.

(** A default that is a call with two arguments is cut at its comma. *)
Lemma one_argument_per_comma_witness :
  ArgInfo.parse_definition (nl "func aim(at = Vector2(1, 0)):")
  = Ok [ArgInfo.mk "at" None (Some "Vector2(1"); ArgInfo.mk " 0" None None]
  /\ length [ArgInfo.mk "at" None (Some "Vector2(1"); ArgInfo.mk " 0" None None]
     = S (count_char "," (param_text (nl "func aim(at = Vector2(1, 0)):"))).
Proof.
  assert (H : ArgInfo.parse_definition (nl "func aim(at = Vector2(1, 0)):")
              = Ok [ArgInfo.mk "at" None (Some "Vector2(1"); ArgInfo.mk " 0" None None])
    by reflexivity.
  split; [exact H|]. exact (one_argument_per_comma _ _ H).
Defined.

(** ** Where a multi-line enum ends *)

Lemma rstrip_nonblank s : all_chars is_ws s = false -> is_empty (rstrip s) = false.
Proof.
  induction s as [|a s IH]; [done|]. cbn [all_chars]. rewrite rstrip_cons.
  destruct (is_empty (rstrip s)) eqn:E.
  - destruct (is_ws a); [|done]. cbn [andb]. intros H. apply IH in H. congruence.
  - done.
Qed.

Lemma last_item_nonblank line :
  line <> EmptyString -> isspace line = false ->
  exists c, last_item (rstrip line) = Ok c /\ last_char (rstrip line) = Some c.
Proof.
  intros Hne Hsp. unfold isspace in Hsp.
  destruct line as [|a line]; [done|]. cbn [is_empty negb andb] in Hsp.
  pose proof (rstrip_nonblank _ Hsp) as Hr. unfold last_item, last_char.
  destruct (rev (rstrip (String a line))) as [|c r] eqn:E; [|by eexists].
  rewrite <- is_empty_rev, E in Hr. done.
Qed.

Lemma split_max_two s : forall cur,
  contains "##" s = true -> exists a b, split_go "##" s cur O (Some 1%nat) = [a; b].
Proof.
  induction s as [|c s IH]; intros cur Hc; [done|].
  cbn [split_go]. cbn [contains] in Hc.
  destruct (startswith "##" (String c s)) eqn:E.
  - cbn [fmap option_fmap option_map pred len Nat.sub].
    destruct s as [|c' s]; [cbn [startswith] in E; by rewrite andb_false_r in E|].
    cbn [split_go]. destruct s; by eexists _, _.
  - cbn [orb] in Hc. by apply IH.
Qed.

Lemma read_members_end lines : forall info,
  lines_ok lines ->
  match EnumInfo.read_members lines info with
  | Ok (Some info', pos) =>
      exists members closing,
        lines = members ++ closing :: pos
        /\ closes_enum closing = true
        /\ Forall (fun line => closes_enum line = false) members
        /\ EnumInfo.name info' = EnumInfo.name info
        /\ EnumInfo.description info' = EnumInfo.description info
  | Ok (None, pos) => pos = [] /\ Forall (fun line => closes_enum line = false) lines
  | Raise _ => False
  end.
Proof.
  induction lines as [|line rest IH]; intros info Hok; cbn [EnumInfo.read_members]; [done|].
  apply Forall_cons in Hok as [Hline Hok].
  assert (Hstep : forall i,
            closes_enum line = false ->
            EnumInfo.name i = EnumInfo.name info ->
            EnumInfo.description i = EnumInfo.description info ->
            match EnumInfo.read_members rest i with
            | Ok (Some info', pos) =>
                exists members closing,
                  line :: rest = members ++ closing :: pos
                  /\ closes_enum closing = true
                  /\ Forall (fun line => closes_enum line = false) members
                  /\ EnumInfo.name info' = EnumInfo.name info
                  /\ EnumInfo.description info' = EnumInfo.description info
            | Ok (None, pos) =>
                pos = [] /\ Forall (fun line => closes_enum line = false) (line :: rest)
            | Raise _ => False
            end).
  { intros i Hcl Hn Hd. specialize (IH i Hok).
    destruct (EnumInfo.read_members rest i) as [[[info'|] pos]|e]; [| |done].
    - destruct IH as (members & closing & -> & Hc & Hm & Hn' & Hd').
      exists (line :: members), closing. repeat split; try done; try congruence.
      by constructor.
    - destruct IH as [-> Hall]. split; [done|]. by constructor. }
  destruct (isspace line) eqn:Hsp.
  { apply Hstep; [|done|done]. unfold closes_enum. by rewrite Hsp. }
  destruct (last_item_nonblank line Hline Hsp) as (c & -> & Hlast).
  destruct (Ascii.eqb c "}") eqn:Hc.
  { apply Ascii.eqb_eq in Hc. subst c. exists [], line. repeat split; try done.
    unfold closes_enum. rewrite Hsp, Hlast. by rewrite bool_decide_eq_true_2. }
  assert (Hcl : closes_enum line = false).
  { unfold closes_enum. rewrite Hlast, bool_decide_eq_false_2; [apply andb_false_r|].
    intros [= ->]. by rewrite Ascii.eqb_refl in Hc. }
  destruct (contains "##" line) eqn:Hh; [|by apply Hstep].
  destruct (split_max_two line EmptyString Hh) as (a & b & Hs).
  unfold split_max. rewrite Hs. cbn [unpack2]. by apply Hstep.
Qed.

(** X14. In an ASCII script, a multi-line enum ends at the first line that
    is not blank and whose last character, whitespace apart, is a closing
    brace; the script is then left right after that line.  When no such
    line follows, the parser reads to the end of the script and returns no
    enum at all.  It never raises. *)
Theorem multi_line_enum_end lines : forall info,
  ascii_script lines ->
  lines_ok lines ->
  match EnumInfo.read_members lines info with
  | Ok (Some info', pos) =>
      exists members closing,
        lines = members ++ closing :: pos
        /\ closes_enum closing = true
        /\ Forall (fun line => closes_enum line = false) members
        /\ EnumInfo.name info' = EnumInfo.name info
        /\ EnumInfo.description info' = EnumInfo.description info
  | Ok (None, pos) => pos = [] /\ Forall (fun line => closes_enum line = false) lines
  | Raise _ => False
  end.
Proof. intros info _. apply read_members_end. Qed.

(** An enum of two members, one of them documented, followed by a
    property. *)
Lemma multi_line_enum_end_witness :
  ascii_script [nl "  UP, ## Upwards."; nl "  DOWN"; nl "}"; nl "var speed = 1"]
  /\ lines_ok [nl "  UP, ## Upwards."; nl "  DOWN"; nl "}"; nl "var speed = 1"]
  /\ EnumInfo.read_members
       [nl "  UP, ## Upwards."; nl "  DOWN"; nl "}"; nl "var speed = 1"]
       (EnumInfo.mk "Dir" None [])
     = Ok (Some (EnumInfo.mk "Dir" None
                   [(EnumInfo.Name "UP", Some "Upwards."); (EnumInfo.Name "DOWN", None)]),
           [nl "var speed = 1"])
  /\ exists members closing,
       [nl "  UP, ## Upwards."; nl "  DOWN"; nl "}"; nl "var speed = 1"]
       = members ++ closing :: [nl "var speed = 1"]
       /\ closes_enum closing = true
       /\ Forall (fun line => closes_enum line = false) members
       /\ EnumInfo.name
            (EnumInfo.mk "Dir" None
               [(EnumInfo.Name "UP", Some "Upwards."); (EnumInfo.Name "DOWN", None)])
          = EnumInfo.name (EnumInfo.mk "Dir" None [])
       /\ EnumInfo.description
            (EnumInfo.mk "Dir" None
               [(EnumInfo.Name "UP", Some "Upwards."); (EnumInfo.Name "DOWN", None)])
          = EnumInfo.description (EnumInfo.mk "Dir" None []).
Proof.
  assert (H : lines_ok [nl "  UP, ## Upwards."; nl "  DOWN"; nl "}"; nl "var speed = 1"])
    by (by repeat constructor).
  assert (Ha : ascii_script [nl "  UP, ## Upwards."; nl "  DOWN"; nl "}";
                             nl "var speed = 1"])
    by (repeat constructor).
  split; [exact Ha|]. split; [exact H|]. split; [reflexivity|].
  exact (multi_line_enum_end
           [nl "  UP, ## Upwards."; nl "  DOWN"; nl "}"; nl "var speed = 1"]
           (EnumInfo.mk "Dir" None []) Ha H).
Defined.

(** ** The accessor block of a property *)

Lemma getset_step info line :
  let info1 := PropertyInfo._parse_inline_getset info line in
  let info2 :=
    if startswith "set" (lstrip line)
    then PropertyInfo.mk (PropertyInfo.name info1) (PropertyInfo.type info1)
           (PropertyInfo.description info1) (PropertyInfo.default info1) true
           (PropertyInfo.has_getter info1)
    else if startswith "get" (lstrip line)
    then PropertyInfo.mk (PropertyInfo.name info1) (PropertyInfo.type info1)
           (PropertyInfo.description info1) (PropertyInfo.default info1)
           (PropertyInfo.has_setter info1) true
    else info1 in
  PropertyInfo.has_setter info2 = PropertyInfo.has_setter info || setter_evidence line
  /\ PropertyInfo.has_getter info2 = PropertyInfo.has_getter info || getter_evidence line.
Proof.
  cbv zeta. unfold PropertyInfo._parse_inline_getset, setter_evidence, getter_evidence.
  assert (Hex : startswith "set" (lstrip line) = true ->
                startswith "get" (lstrip line) = false).
  { destruct (lstrip line) as [|c l]; [done|]. cbn [startswith].
    intros [Hc _]%andb_true_iff. apply Ascii.eqb_eq in Hc. by subst c. }
  destruct (Re.has_match (PropertyInfo.getset_re "set") line),
    (Re.has_match (PropertyInfo.getset_re "get") line),
    (startswith "set" (lstrip line)), (startswith "get" (lstrip line));
    cbn; rewrite ?orb_true_r, ?orb_false_r; try done;
    by specialize (Hex eq_refl).
Qed.

Lemma read_accessors_block lines : forall info,
  lines_ok lines ->
  exists info' body pos,
    PropertyInfo.read_accessors lines info lines = Ok (info', pos)
    /\ lines = body ++ pos
    /\ Forall (fun line => indented line = true) body
    /\ match pos with [] => True | line :: _ => indented line = false end
    /\ PropertyInfo.has_setter info'
       = PropertyInfo.has_setter info || existsb setter_evidence body
    /\ PropertyInfo.has_getter info'
       = PropertyInfo.has_getter info || existsb getter_evidence body.
Proof.
  induction lines as [|line rest IH]; intros info Hok.
  - exists info, [], []. cbn. by rewrite !orb_false_r.
  - apply Forall_cons in Hok as [Hline Hok]. cbn [PropertyInfo.read_accessors].
    destruct line as [|c line]; [done|]. cbn [first_item].
    destruct (is_ws c) eqn:Hc; cbn [negb].
    + pose proof (getset_step info (String c line)) as Hstep. cbv zeta in Hstep.
      match goal with
      | |- context [PropertyInfo.read_accessors rest ?i rest] =>
          destruct (IH i Hok) as (info' & body & pos & -> & Hl & Hb & Hp & Hs & Hg);
          destruct Hstep as [Hs1 Hg1]
      end.
      exists info', (String c line :: body), pos.
      split; [done|]. split; [by rewrite Hl|]. split; [by constructor|].
      split; [done|]. cbn [existsb].
      rewrite Hs, Hg, Hs1, Hg1. by rewrite !orb_assoc.
    + exists info, [], (String c line :: rest). cbn. by rewrite Hc, !orb_false_r.
Qed.

(** X15. In an ASCII script, after the line of a property, the parser
    takes the lines that start with whitespace and leaves the script at the
    first line that does not.  The property has a setter exactly when it
    had one from its own line or one of these lines marks one ([set = name]
    anywhere on the line, or [set] at the start of its text), and likewise
    for the getter; a flag is never taken back. *)
Theorem accessor_block lines : forall info,
  ascii_script lines ->
  lines_ok lines ->
  exists info' body pos,
    PropertyInfo.read_accessors lines info lines = Ok (info', pos)
    /\ lines = body ++ pos
    /\ Forall (fun line => indented line = true) body
    /\ match pos with [] => True | line :: _ => indented line = false end
    /\ PropertyInfo.has_setter info'
       = PropertyInfo.has_setter info || existsb setter_evidence body
    /\ PropertyInfo.has_getter info'
       = PropertyInfo.has_getter info || existsb getter_evidence body.
Proof. intros info _. apply read_accessors_block. Qed.

(** A property with a setter block and an inline getter, followed by a
    method. *)
Lemma accessor_block_witness :
  ascii_script [nl "    set(value):"; nl "        speed = value";
                nl "    get = _get_speed"; nl "func run():"]
  /\ lines_ok [nl "    set(value):"; nl "        speed = value"; nl "    get = _get_speed";
               nl "func run():"]
  /\ exists info' body pos,
       PropertyInfo.read_accessors
         [nl "    set(value):"; nl "        speed = value"; nl "    get = _get_speed";
          nl "func run():"]
         (PropertyInfo.mk "speed" None None None false false)
         [nl "    set(value):"; nl "        speed = value"; nl "    get = _get_speed";
          nl "func run():"]
       = Ok (info', pos)
       /\ [nl "    set(value):"; nl "        speed = value"; nl "    get = _get_speed";
           nl "func run():"] = body ++ pos
       /\ Forall (fun line => indented line = true) body
       /\ match pos with [] => True | line :: _ => indented line = false end
       /\ PropertyInfo.has_setter info'
          = PropertyInfo.has_setter (PropertyInfo.mk "speed" None None None false false)
            || existsb setter_evidence body
       /\ PropertyInfo.has_getter info'
          = PropertyInfo.has_getter (PropertyInfo.mk "speed" None None None false false)
            || existsb getter_evidence body.
Proof.
  assert (H : lines_ok [nl "    set(value):"; nl "        speed = value";
                        nl "    get = _get_speed"; nl "func run():"])
    by (by repeat constructor).
  assert (Ha : ascii_script [nl "    set(value):"; nl "        speed = value";
                             nl "    get = _get_speed"; nl "func run():"])
    by (repeat constructor).
  split; [exact Ha|]. split; [exact H|].
  exact (accessor_block _ (PropertyInfo.mk "speed" None None None false false) Ha H).
Defined.

(** ** The registry *)

Lemma register_lookup named_only class_infos script_path class_info k ci :
  register named_only class_infos script_path class_info !! k = Some ci ->
  (registered_key named_only script_path class_info = Some k /\ ci = class_info)
  \/ class_infos !! k = Some ci.
Proof.
  unfold register, registered_key.
  destruct (ClassInfo.name class_info) as [n|].
  - destruct (decide (n = k)) as [->|Hne].
    + rewrite lookup_insert_eq. intros [= <-]. by left.
    + rewrite lookup_insert_ne by done. by right.
  - destruct named_only; [by right|].
    destruct (decide (path_based_name script_path = k)) as [<-|Hne].
    + rewrite lookup_insert_eq. intros [= <-]. by left.
    + rewrite lookup_insert_ne by done. by right.
Qed.

Lemma collect_lookup named_only templates scripts : forall class_infos result k ci,
  collect named_only templates scripts class_infos = Some (Ok result) ->
  result !! k = Some ci ->
  class_infos !! k = Some ci
  \/ exists script_path lines,
       (script_path, lines) ∈ scripts
       /\ skipped templates script_path = false
       /\ ClassInfo.parse_from_script script_path lines = Some (Ok ci)
       /\ registered_key named_only script_path ci = Some k.
Proof.
  induction scripts as [|[script_path lines] rest IH]; intros class_infos result k ci;
    cbn [collect].
  - intros [= <-] H. by left.
  - assert (Hrest : forall infos,
              collect named_only templates rest infos = Some (Ok result) ->
              result !! k = Some ci ->
              infos !! k = Some ci
              \/ exists sp ls,
                   (sp, ls) ∈ (script_path, lines) :: rest
                   /\ skipped templates sp = false
                   /\ ClassInfo.parse_from_script sp ls = Some (Ok ci)
                   /\ registered_key named_only sp ci = Some k).
    { intros infos Hc Hk. destruct (IH _ _ _ _ Hc Hk) as [?|(sp & ls & Hin & ?)];
        [by left|]. right. exists sp, ls. split; [by apply elem_of_cons; right|done]. }
    destruct (skipped templates script_path) eqn:Hs; [apply Hrest|].
    destruct (ClassInfo.parse_from_script script_path lines) as [[class_info|e]|] eqn:Hp;
      [|done|done].
    intros Hc Hk. destruct (Hrest _ Hc Hk) as [Hreg|?]; [|by right].
    apply register_lookup in Hreg as [[Hkey ->]|?]; [|by left].
    right. exists script_path, lines. split; [by apply elem_of_cons; left|done].
Qed.

(** X16. Every class in the registry was parsed from a script of the
    project that lies neither under [addons] nor under the script
    templates, and it is found under its own name or, when it has none,
    under the path of its script with the segments joined by dashes.  With
    the option for named classes only, every registered class has a name. *)
Theorem registry_keys named_only templates scripts class_infos k ci :
  collect named_only templates scripts ∅ = Some (Ok class_infos) ->
  class_infos !! k = Some ci ->
  (exists script_path lines,
     (script_path, lines) ∈ scripts
     /\ skipped templates script_path = false
     /\ ClassInfo.parse_from_script script_path lines = Some (Ok ci))
  /\ (ClassInfo.name ci = Some k
      \/ ClassInfo.name ci = None /\ named_only = false
         /\ k = path_based_name (ClassInfo.file_path ci)).
Proof.
  intros Hc Hk. destruct (collect_lookup _ _ _ _ _ _ _ Hc Hk) as [H|H];
    [by rewrite lookup_empty in H|].
  destruct H as (script_path & lines & Hin & Hs & Hp & Hkey).
  split; [by exists script_path, lines|].
  apply parsed_class_fields in Hp as [Hpath _].
  unfold registered_key in Hkey. destruct (ClassInfo.name ci) as [n|].
  - left. congruence.
  - right. destruct named_only; [done|]. split; [done|]. split; [done|]. congruence.
Qed.

(** The small project: the unnamed menu script is found under [ui-menu.gd],
    the add-on is not registered. *)
Lemma registry_keys_witness :
  collect false ["script_templates"] small_project ∅
  = Some (Ok (<["ui-menu.gd" := extending "ui/menu.gd" "Control"]>
                (<["Player" := ClassInfo.set_name (extending "player.gd" "Node") "Player"]>
                   ∅)))
  /\ (exists script_path lines,
        (script_path, lines) ∈ small_project
        /\ skipped ["script_templates"] script_path = false
        /\ ClassInfo.parse_from_script script_path lines
           = Some (Ok (extending "ui/menu.gd" "Control")))
  /\ (ClassInfo.name (extending "ui/menu.gd" "Control") = Some "ui-menu.gd"
      \/ ClassInfo.name (extending "ui/menu.gd" "Control") = None /\ false = false
         /\ "ui-menu.gd" = path_based_name (ClassInfo.file_path
                                             (extending "ui/menu.gd" "Control"))).
Proof.
  assert (H : collect false ["script_templates"] small_project ∅
              = Some (Ok (<["ui-menu.gd" := extending "ui/menu.gd" "Control"]>
                            (<["Player" :=
                                 ClassInfo.set_name (extending "player.gd" "Node") "Player"]>
                               ∅))))
    by (vm_compute; reflexivity).
  split; [exact H|].
  apply (registry_keys false ["script_templates"] small_project _ "ui-menu.gd" _ H).
  vm_compute. reflexivity.
Defined.

Lemma collect_app named_only templates l1 : forall l2 class_infos mid,
  collect named_only templates l1 class_infos = Some (Ok mid) ->
  collect named_only templates (l1 ++ l2) class_infos
  = collect named_only templates l2 mid.
Proof.
  induction l1 as [|[script_path lines] l1 IH]; intros l2 class_infos mid;
    cbn [collect app]; [by intros [= <-]|].
  destruct (skipped templates script_path); [apply IH|].
  destruct (ClassInfo.parse_from_script script_path lines) as [[ci|e]|]; [|done|done].
  apply IH.
Qed.

Lemma collect_prefix named_only templates l1 : forall l2 class_infos result,
  collect named_only templates (l1 ++ l2) class_infos = Some (Ok result) ->
  exists mid, collect named_only templates l1 class_infos = Some (Ok mid).
Proof.
  induction l1 as [|[script_path lines] l1 IH]; intros l2 class_infos result;
    cbn [collect app]; [by eexists|].
  destruct (skipped templates script_path); [apply IH|].
  destruct (ClassInfo.parse_from_script script_path lines) as [[ci|e]|]; [|done|done].
  apply IH.
Qed.

Lemma collect_keeps named_only templates scripts : forall class_infos result k ci,
  collect named_only templates scripts class_infos = Some (Ok result) ->
  class_infos !! k = Some ci ->
  Forall (fun s => forall ci',
            skipped templates s.1 = false ->
            ClassInfo.parse_from_script s.1 s.2 = Some (Ok ci') ->
            registered_key named_only s.1 ci' <> Some k) scripts ->
  result !! k = Some ci.
Proof.
  induction scripts as [|[script_path lines] rest IH]; intros class_infos result k ci;
    cbn [collect]; [by intros [= <-]|].
  intros Hc Hk Hall. apply Forall_cons in Hall as [Hhead Hall]. cbn [fst snd] in Hhead.
  destruct (skipped templates script_path); [by eapply IH|].
  destruct (ClassInfo.parse_from_script script_path lines) as [[ci0|e]|]; [|done|done].
  eapply IH; [exact Hc| |exact Hall].
  specialize (Hhead ci0 eq_refl eq_refl). unfold registered_key in Hhead.
  unfold register. destruct (ClassInfo.name ci0) as [n|].
  - rewrite lookup_insert_ne; [done|congruence].
  - destruct named_only; [done|]. rewrite lookup_insert_ne; [done|congruence].
Qed.

(** X17. Names are not checked for collisions: a class is found under its
    key unless a later script is registered under the same key, in which
    case the later one silently takes its place. *)
Theorem later_script_wins named_only templates before script_path lines after
  class_infos ci k :
  collect named_only templates (before ++ (script_path, lines) :: after) ∅
  = Some (Ok class_infos) ->
  skipped templates script_path = false ->
  ClassInfo.parse_from_script script_path lines = Some (Ok ci) ->
  registered_key named_only script_path ci = Some k ->
  Forall (fun s => forall ci',
            skipped templates s.1 = false ->
            ClassInfo.parse_from_script s.1 s.2 = Some (Ok ci') ->
            registered_key named_only s.1 ci' <> Some k) after ->
  class_infos !! k = Some ci.
Proof.
  intros Hc Hs Hp Hkey Hafter.
  destruct (collect_prefix _ _ _ _ _ _ Hc) as [mid Hmid].
  rewrite (collect_app _ _ _ _ _ _ Hmid) in Hc. cbn [collect] in Hc.
  rewrite Hs, Hp in Hc.
  eapply collect_keeps; [exact Hc| |exact Hafter].
  unfold register, registered_key in *. destruct (ClassInfo.name ci) as [n|].
  - injection Hkey as <-. apply lookup_insert_eq.
  - destruct named_only; [done|]. injection Hkey as <-. apply lookup_insert_eq.
Qed.

(** Two scripts declare [Player]; the second one is the one found. *)
Lemma later_script_wins_witness :
  exists class_infos,
    collect false ["script_templates"] ([first_player] ++ second_player :: [enemy_script]) ∅
    = Some (Ok class_infos)
    /\ skipped ["script_templates"] second_player.1 = false
    /\ ClassInfo.parse_from_script second_player.1 second_player.2
       = Some (Ok (ClassInfo.set_name (extending "b/player.gd" "Control") "Player"))
    /\ class_infos !! "Player"
       = Some (ClassInfo.set_name (extending "b/player.gd" "Control") "Player").
Proof.
  eexists. split; [vm_compute; reflexivity|]. split; [reflexivity|].
  split; [vm_compute; reflexivity|].
  apply (later_script_wins false ["script_templates"] [first_player] second_player.1
           second_player.2 [enemy_script]).
  - vm_compute. reflexivity.
  - reflexivity.
  - vm_compute. reflexivity.
  - reflexivity.
  - constructor; [|constructor]. intros ci' _ H. vm_compute in H.
    injection H as <-. vm_compute. discriminate.
Defined.

(** X18. When the script-templates directory is the project directory
    itself (an empty relative path), every script lies below it: all
    scripts are skipped and nothing is registered. *)
Theorem empty_templates_skip_everything named_only scripts class_infos :
  Forall (fun s => Path.parts s.1 <> []) scripts ->
  collect named_only [] scripts class_infos = Some (Ok class_infos).
Proof.
  induction 1 as [|[script_path lines] rest Hp _ IH]; [done|].
  cbn [collect]. unfold skipped. cbn [fst] in Hp.
  destruct (Path.parts script_path) as [|seg segs]; [done|].
  cbn [in_parents]. by rewrite orb_true_r.
Qed.

(** The small project with the templates at the project directory. *)
Lemma empty_templates_skip_everything_witness :
  Forall (fun s => Path.parts s.1 <> []) small_project
  /\ collect false [] small_project ∅ = Some (Ok ∅).
Proof.
  assert (H : Forall (fun s : Path.t * script => Path.parts s.1 <> []) small_project)
    by (repeat constructor; discriminate).
  split; [exact H|]. exact (empty_templates_skip_everything false small_project ∅ H).
Defined.

(** ** References to scripts *)

Lemma replace_go_char_skip c new a : forall rest,
  contains (String c EmptyString) a = false ->
  replace_go (String c EmptyString) new (a +:+ rest) O
  = a +:+ replace_go (String c EmptyString) new rest O.
Proof.
  induction a as [|b a IH]; intros rest Hc; [done|].
  cbn [contains] in Hc. apply orb_false_iff in Hc as [Hb Hc].
  rewrite startswith_char in Hb.
  rewrite !sapp_cons. cbn [replace_go]. rewrite startswith_char, Hb. by rewrite IH.
Qed.

Lemma replace_go_char_hit c new rest :
  replace_go (String c EmptyString) new (String c rest) O
  = new +:+ replace_go (String c EmptyString) new rest O.
Proof. cbn [replace_go]. by rewrite startswith_char, Ascii.eqb_refl. Qed.

Lemma replace_join_segments segs :
  Forall (fun seg => contains "/" seg = false) segs ->
  replace "/" "-" (join "/" segs) = join "-" segs.
Proof.
  unfold replace. induction 1 as [|seg segs Hseg Hall IH]; [done|].
  destruct segs as [|seg' segs].
  - cbn [join]. rewrite <- (sapp_nil_r seg) at 1.
    rewrite replace_go_char_skip by done. by rewrite sapp_nil_r.
  - cbn [join] in *. rewrite replace_go_char_skip by done.
    change ("/" +:+ ?x) with (String "/" x).
    change ("/" +:+ match segs with [] => seg' | _ :: _ => seg' +:+ "/" +:+ join "/" segs end)
      with (String "/" match segs with [] => seg' | _ :: _ => seg' +:+ "/" +:+ join "/" segs end).
    rewrite replace_go_char_hit. by rewrite IH.
Qed.

Lemma startswith_app p x : startswith p (p +:+ x) = true.
Proof.
  induction p as [|a p IH]; [done|]. rewrite sapp_cons. cbn [startswith].
  by rewrite Ascii.eqb_refl, IH.
Qed.

Lemma endswith_app p x : endswith p (x +:+ p) = true.
Proof. unfold endswith. rewrite rev_app. apply startswith_app. Qed.

Lemma join_snoc sep init x : exists pre, join sep (init ++ [x]) = pre +:+ x.
Proof.
  induction init as [|y init [pre IH]]; [by exists EmptyString|].
  cbn [app join]. destruct (init ++ [x]) as [|z l] eqn:E; [by destruct init|].
  exists (y +:+ sep +:+ pre). by rewrite IH, !sapp_assoc.
Qed.

Lemma contains_char_join c segs :
  contains (String c EmptyString) "/" = false ->
  Forall (fun seg => contains (String c EmptyString) seg = false) segs ->
  contains (String c EmptyString) (join "/" segs) = false.
Proof.
  intros Hsep. induction 1 as [|seg segs Hseg Hall IH]; [done|].
  destruct segs as [|seg' segs]; [done|]. cbn [join] in *.
  by rewrite !contains_char_app, Hseg, Hsep, IH.
Qed.

Lemma unquote_quoted x :
  contains quote x = false -> contains "'" x = false ->
  unquote (quote +:+ x +:+ quote) = x.
Proof.
  intros Hq Hs. unfold unquote, quote in *.
  rewrite sapp_cons, sapp_nil_l. unfold replace at 2.
  rewrite replace_go_char_hit, sapp_nil_l, replace_go_char_skip by done.
  rewrite replace_go_char_hit. cbn [replace_go]. rewrite !sapp_nil_r.
  by apply replace_absent.
Qed.

Lemma reference_normalized script_path init stem :
  Path.parts script_path = init ++ [stem +:+ ".gd"] ->
  Forall plain_segment (Path.parts script_path) ->
  normalize_base (res_reference script_path) = path_based_name script_path.
Proof.
  intros Hparts Hplain. unfold normalize_base, res_reference, path_based_name.
  assert (Hq : contains quote ("res://" +:+ join "/" (Path.parts script_path)) = false).
  { unfold quote. rewrite contains_char_app. rewrite contains_char_join; [done|done|].
    eapply Forall_impl; [exact Hplain|]. by intros seg (_ & ? & _). }
  assert (Hs : contains "'" ("res://" +:+ join "/" (Path.parts script_path)) = false).
  { rewrite contains_char_app. rewrite contains_char_join; [done|done|].
    eapply Forall_impl; [exact Hplain|]. by intros seg (_ & _ & ? & _). }
  rewrite <- (sapp_assoc "res://" _ quote). rewrite unquote_quoted by done.
  destruct (join_snoc "/" init (stem +:+ ".gd")) as [pre Hj].
  assert (He : endswith ".gd" ("res://" +:+ join "/" (Path.parts script_path)) = true).
  { rewrite Hparts, Hj, <- !sapp_assoc. apply endswith_app. }
  rewrite He. unfold removeprefix. rewrite startswith_app, drop_app_len.
  apply replace_join_segments. eapply Forall_impl; [exact Hplain|]. by intros seg (? & _).
Qed.

(** [split()] takes a run without whitespace, closed by a whitespace
    character, as one piece. *)
Lemma words_go_run w : forall cur c rest,
  spaceless w -> is_ws c = true ->
  is_empty (rev cur +:+ w) = false ->
  words_go (w +:+ String c rest) cur None
  = (rev cur +:+ w) :: words_go rest EmptyString None.
Proof.
  induction w as [|a w IH]; intros cur c rest Hw Hc Hne.
  - rewrite sapp_nil_l, sapp_nil_r in *. cbn [words_go]. rewrite Hc.
    rewrite is_empty_rev in Hne. by rewrite Hne.
  - unfold spaceless in Hw. cbn [all_chars] in Hw.
    apply andb_true_iff in Hw as [Ha Hw]. apply negb_true_iff in Ha.
    rewrite sapp_cons. cbn [words_go]. rewrite Ha.
    assert (Hstep : words_go (w +:+ String c rest) (String a cur) None
                    = (rev cur +:+ String a w) :: words_go rest EmptyString None).
    { rewrite (IH (String a cur) c rest Hw Hc).
      - by rewrite rev_cons, sapp_assoc.
      - rewrite rev_cons, sapp_assoc, is_empty_app. cbn [is_empty app].
        by rewrite andb_false_r. }
    destruct cur as [|b cur]; [|exact Hstep]. exact Hstep.
Qed.

Lemma words_two w1 w2 c1 c2 :
  spaceless w1 -> spaceless w2 -> is_ws c1 = true -> is_ws c2 = true ->
  is_empty w1 = false -> is_empty w2 = false ->
  words (w1 +:+ String c1 (w2 +:+ String c2 EmptyString)) = [w1; w2].
Proof.
  intros H1 H2 Hc1 Hc2 Hn1 Hn2. unfold words.
  rewrite (words_go_run w1 EmptyString c1) by done.
  by rewrite (words_go_run w2 EmptyString c2) by done.
Qed.

Lemma spaceless_app s t : spaceless s -> spaceless t -> spaceless (s +:+ t).
Proof. unfold spaceless. intros Hs Ht. by rewrite all_chars_app, Hs, Ht. Qed.

Lemma spaceless_join sep : forall l,
  spaceless sep -> Forall spaceless l -> spaceless (join sep l).
Proof.
  intros l Hsep. induction 1 as [|x l Hx Hl IH]; [done|].
  destruct l as [|y l]; [done|]. cbn [join].
  apply spaceless_app; [done|]. by apply spaceless_app.
Qed.

Lemma res_reference_spaceless script_path :
  Forall plain_segment (Path.parts script_path) -> spaceless (res_reference script_path).
Proof.
  intros H. unfold res_reference.
  apply spaceless_app; [done|]. apply spaceless_app; [done|].
  apply spaceless_app; [|done]. apply spaceless_join; [done|].
  eapply Forall_impl; [exact H|]. by intros seg (_ & _ & _ & _ & ?).
Qed.

(** A documentation comment is no [class_name] and no [extends] line. *)
Lemma comment_not_keyword line :
  startswith "##" (lstrip line) = true ->
  startswith "class_name" line = false /\ startswith "extends" line = false.
Proof.
  destruct line as [|c line]; [done|]. cbn [lstrip].
  destruct (is_ws c) eqn:Hc.
  - intros _. cbn [startswith].
    assert (Ascii.eqb "c" c = false /\ Ascii.eqb "e" c = false) as [-> ->]; [|done].
    split; apply Ascii.eqb_neq; intros <-; discriminate.
  - cbn [startswith]. intros [Hh _]%andb_true_iff. apply Ascii.eqb_eq in Hh. by subst c.
Qed.

Lemma header_line_comment_line line ci full_desc def_found :
  startswith "##" (lstrip line) = true ->
  exists full_desc', ClassInfo.header_line line ci full_desc def_found
                     = Ok (ci, full_desc', def_found).
Proof.
  intros H. destruct (comment_not_keyword line H) as [Hc He].
  unfold ClassInfo.header_line, mbind, result_bind. rewrite Hc, He, H. by eexists.
Qed.

(** Once the base class was found, the header loop leaves it as it is, and
    it does not raise. *)
Lemma read_header_after_base lines : forall ci full_desc pos,
  exists ci' full_desc' pos',
    ClassInfo.read_header lines ci full_desc true pos = Ok (ci', full_desc', pos')
    /\ ClassInfo.extends ci' = ClassInfo.extends ci.
Proof.
  induction lines as [|line rest IH]; intros ci full_desc pos;
    cbn [ClassInfo.read_header andb]; [by eexists _, _, _|].
  destruct (startswith "##" (lstrip line)) eqn:Hc; cbn [negb]; [|by eexists _, _, _].
  destruct (isspace line); [apply IH|].
  destruct (header_line_comment_line line ci full_desc true Hc) as [fd ->]. apply IH.
Qed.

Lemma header_docs_extends ci full_desc :
  ClassInfo.extends (ClassInfo.header_docs ci full_desc) = ClassInfo.extends ci.
Proof.
  unfold ClassInfo.header_docs.
  destruct (is_empty full_desc); [done|]. by destruct (index_from _ _ _).
Qed.

Lemma header_line_extends ref ci full_desc def_found :
  spaceless ref -> is_empty ref = false ->
  ClassInfo.header_line (nl ("extends " +:+ ref)) ci full_desc def_found
  = Ok (ClassInfo.set_extends ci ref, full_desc, true).
Proof.
  intros Hs Hne. unfold ClassInfo.header_line, mbind, result_bind, nl, newline.
  change ("extends " +:+ ref) with ("extends" +:+ String " " ref).
  rewrite !sapp_assoc, (sapp_cons " " ref).
  set (X := ref +:+ String "010" EmptyString).
  change (startswith "class_name" ("extends" +:+ String " " X)) with false.
  cbv iota. rewrite startswith_app. unfold item. subst X.
  rewrite (words_two "extends" ref " " "010") by done.
  set (X := ref +:+ String "010" EmptyString).
  cbn [lookup list_lookup].
  change (lstrip ("extends" +:+ String " " X)) with ("extends" +:+ String " " X).
  change (startswith "##" ("extends" +:+ String " " X)) with false.
  reflexivity.
Qed.

(** X19. A header line [extends] followed by the quoted resource path of
    a script, whose segments are ASCII without slash, quote or whitespace,
    stores that reference as the base class, and the hierarchy walk looks
    it up under the very name an unnamed script at that path is registered
    under: the segments of the path joined by dashes. *)
Theorem script_reference_resolves script_path init stem rest own_path :
  Path.parts script_path = init ++ [stem +:+ ".gd"] ->
  Forall plain_segment (Path.parts script_path) ->
  ascii_script rest ->
  exists class_info pos,
    ClassInfo.parse_script_header (nl ("extends " +:+ res_reference script_path) :: rest)
      (ClassInfo.new own_path)
    = Ok (class_info, pos)
    /\ ClassInfo.extends class_info = res_reference script_path
    /\ normalize_base (ClassInfo.extends class_info) = path_based_name script_path
    /\ forall fuel class_infos class_path,
         walk (S fuel) class_infos (ClassInfo.extends class_info) class_path
         = match class_infos !! path_based_name script_path with
           | Some base =>
               walk fuel class_infos (ClassInfo.extends base)
                 (Path.joinpath (Path.of_string (path_based_name script_path)) class_path)
           | None =>
               Some (Path.joinpath (Path.of_string (path_based_name script_path))
                       class_path)
           end.
Proof.
  intros Hparts Hplain _.
  pose proof (res_reference_spaceless script_path Hplain) as Hs.
  unfold ClassInfo.parse_script_header. cbn [ClassInfo.read_header andb].
  assert (Hb : isspace (nl ("extends " +:+ res_reference script_path)) = false)
    by reflexivity.
  rewrite Hb, header_line_extends by done.
  destruct (read_header_after_base rest
              (ClassInfo.set_extends (ClassInfo.new own_path) (res_reference script_path))
              EmptyString rest) as (ci & fd & pos & -> & He).
  unfold mbind, result_bind. eexists _, _. split; [reflexivity|].
  rewrite header_docs_extends, He. cbn [ClassInfo.extends ClassInfo.set_extends].
  pose proof (reference_normalized script_path init stem Hparts Hplain) as Hn.
  split; [done|]. split; [done|].
  intros fuel class_infos class_path. cbn [walk]. by rewrite Hn.
Qed.

(** A script that extends the menu script of the small project. *)
Lemma script_reference_resolves_witness :
  Path.parts (Path.of_string "ui/menu.gd") = ["ui"] ++ ["menu" +:+ ".gd"]
  /\ Forall plain_segment (Path.parts (Path.of_string "ui/menu.gd"))
  /\ ascii_script [nl "var speed = 1"]
  /\ nl ("extends " +:+ res_reference (Path.of_string "ui/menu.gd"))
     = nl ("extends " +:+ quote +:+ "res://ui/menu.gd" +:+ quote)
  /\ path_based_name (Path.of_string "ui/menu.gd") = "ui-menu.gd"
  /\ exists class_info pos,
       ClassInfo.parse_script_header
         (nl ("extends " +:+ res_reference (Path.of_string "ui/menu.gd"))
          :: [nl "var speed = 1"])
         (ClassInfo.new (Path.of_string "ui/submenu.gd"))
       = Ok (class_info, pos)
       /\ ClassInfo.extends class_info = res_reference (Path.of_string "ui/menu.gd")
       /\ normalize_base (ClassInfo.extends class_info)
          = path_based_name (Path.of_string "ui/menu.gd")
       /\ forall fuel class_infos class_path,
            walk (S fuel) class_infos (ClassInfo.extends class_info) class_path
            = match class_infos !! path_based_name (Path.of_string "ui/menu.gd") with
              | Some base =>
                  walk fuel class_infos (ClassInfo.extends base)
                    (Path.joinpath
                       (Path.of_string (path_based_name (Path.of_string "ui/menu.gd")))
                       class_path)
              | None =>
                  Some (Path.joinpath
                          (Path.of_string
                             (path_based_name (Path.of_string "ui/menu.gd")))
                          class_path)
              end.
Proof.
  assert (H1 : Path.parts (Path.of_string "ui/menu.gd") = ["ui"] ++ ["menu" +:+ ".gd"])
    by reflexivity.
  assert (H2 : Forall plain_segment (Path.parts (Path.of_string "ui/menu.gd")))
    by (repeat constructor).
  assert (H3 : ascii_script [nl "var speed = 1"]) by (repeat constructor).
  split; [exact H1|]. split; [exact H2|]. split; [exact H3|].
  split; [reflexivity|]. split; [reflexivity|].
  exact (script_reference_resolves (Path.of_string "ui/menu.gd") ["ui"] "menu"
           [nl "var speed = 1"] (Path.of_string "ui/submenu.gd") H1 H2 H3).
Defined.

(** X20. A class without a base class (the header found no [extends]
    line, so the reference is empty) gets no directory of its own: when
    the empty name is not registered, its page is written directly into
    the output directory. *)
Theorem class_without_base_at_top class_infos class_name class_info fuel output_dir :
  class_infos !! class_name = Some class_info ->
  ClassInfo.extends class_info = EmptyString ->
  class_infos !! EmptyString = None ->
  md_file_path (S fuel) output_dir class_infos class_name
  = Some (Path.joinpath output_dir (Path.of_string (class_name +:+ ".md"))).
Proof.
  intros Hin He Hnone. unfold md_file_path. rewrite Hin.
  change (Some class_info ≫= _)
    with (walk (S fuel) class_infos (ClassInfo.extends class_info)
            (Path.of_string EmptyString)
          ≫= fun class_path =>
               Some (Path.joinpath (Path.joinpath output_dir class_path)
                       (Path.of_string (class_name +:+ ".md")))).
  rewrite He. cbn [walk]. change (normalize_base EmptyString) with EmptyString.
  rewrite Hnone.
  change (Path.joinpath (Path.of_string EmptyString) (Path.of_string EmptyString))
    with (Path.mk EmptyString []).
  change (Some (Path.mk EmptyString []) ≫= ?f) with (f (Path.mk EmptyString [])).
  cbv beta. f_equal. f_equal.
  unfold Path.joinpath. cbn [Path.root Path.parts is_empty]. rewrite List.app_nil_r.
  by destruct output_dir.
Qed.

(** A class registered without base class. *)
Lemma class_without_base_at_top_witness :
  ({[ "Tool" := extending "tool.gd" EmptyString ]} : gmap string ClassInfo.t) !! "Tool"
  = Some (extending "tool.gd" EmptyString)
  /\ ({[ "Tool" := extending "tool.gd" EmptyString ]} : gmap string ClassInfo.t)
     !! EmptyString = None
  /\ md_file_path 1 (Path.of_string "gd_docs")
       {[ "Tool" := extending "tool.gd" EmptyString ]} "Tool"
     = Some (Path.mk EmptyString ["gd_docs"; "Tool.md"]).
Proof.
  split; [reflexivity|]. split; [reflexivity|].
  exact (class_without_base_at_top {[ "Tool" := extending "tool.gd" EmptyString ]} "Tool"
           (extending "tool.gd" EmptyString) 0 (Path.of_string "gd_docs")
           eq_refl eq_refl eq_refl).
Defined.

(** ** What [bbcode_to_md] converts *)

Lemma bracket_free_head c t :
  contains "[" (String c t) = false -> Ascii.eqb "[" c = false /\ contains "[" t = false.
Proof.
  cbn [contains]. rewrite startswith_char. intros H. by apply orb_false_iff in H.
Qed.

Lemma contains_bracket_skip sub t rest :
  contains "[" t = false ->
  contains (String "[" sub) (t +:+ rest) = contains (String "[" sub) rest.
Proof.
  induction t as [|c t IH]; intros H; [done|].
  apply bracket_free_head in H as [Hc Ht]. rewrite sapp_cons.
  cbn [contains startswith]. rewrite Hc. by apply IH.
Qed.

Lemma replace_go_bracket_skip old new t rest :
  contains "[" t = false ->
  replace_go (String "[" old) new (t +:+ rest) O
  = t +:+ replace_go (String "[" old) new rest O.
Proof.
  induction t as [|c t IH]; intros H; [done|].
  apply bracket_free_head in H as [Hc Ht]. rewrite !sapp_cons.
  cbn [replace_go startswith]. rewrite Hc. cbn [andb]. by rewrite IH.
Qed.

Lemma contains_bracket_none sub t :
  contains "[" t = false -> contains (String "[" sub) t = false.
Proof.
  induction t as [|c t IH]; intros H; [done|].
  apply bracket_free_head in H as [Hc Ht].
  cbn [contains startswith]. rewrite Hc. by apply IH.
Qed.

Lemma replace_go_bracket_none old new t :
  contains "[" t = false -> replace_go (String "[" old) new t O = t.
Proof. intros H. apply replace_go_absent. by apply contains_bracket_none. Qed.

Ltac string_normal :=
  repeat first [rewrite sapp_cons | rewrite sapp_nil_l | rewrite sapp_nil_r].

Ltac eval_contains :=
  repeat first
    [ match goal with
      | H : contains "[" ?t = false |- context [contains (String "[" ?o) (?t +:+ ?r)] =>
          rewrite (contains_bracket_skip o t r H)
      | H : contains "[" ?t = false |- context [contains (String "[" ?o) ?t] =>
          rewrite (contains_bracket_none o t H)
      end
    | progress cbn [contains startswith andb orb Ascii.eqb Bool.eqb] ].

Ltac eval_replace :=
  unfold replace;
  repeat first
    [ match goal with
      | H : contains "[" ?t = false
        |- context [replace_go (String "[" ?o) ?n (?t +:+ ?r) O] =>
          rewrite (replace_go_bracket_skip o n t r H)
      | H : contains "[" ?t = false |- context [replace_go (String "[" ?o) ?n ?t O] =>
          rewrite (replace_go_bracket_none o n t H)
      end
    | progress cbn [replace_go startswith andb Ascii.eqb Bool.eqb len Nat.sub]
    | progress string_normal ].

Lemma sub_first_absent l rs repl text :
  contains l text = false -> Re.sub (Re.seq (Re.Lit l :: rs)) repl text = text.
Proof.
  intros Hc. apply ReFacts.sub_go_no_match. intros s' Hs.
  unfold Re.rmatch. cbn [Re.seq foldr Re.run].
  by rewrite (contains_false_head _ _ (contains_suffix_false _ _ _ Hc Hs)).
Qed.

(** X21. A pair of simple tags around a text without an opening bracket,
    inside a text without one, becomes the Markdown mark of the tag on both
    sides: two stars for [b], an underscore for [i], two tildes for [s], one
    backquote for [code], three for [codeblock], a line feed for [br] and
    nothing for [url]. *)
Theorem simple_tag_pair tag md pre t post :
  (tag, md) ∈ simple_tags ->
  contains "[" pre = false -> contains "[" t = false -> contains "[" post = false ->
  bbcode_to_md (pre +:+ "[" +:+ tag +:+ "]" +:+ t +:+ "[/" +:+ tag +:+ "]" +:+ post)
  = pre +:+ md +:+ t +:+ md +:+ post.
Proof.
  intros Hin Hpre Ht Hpost. unfold simple_tags in Hin.
  repeat (apply elem_of_cons in Hin as [[= -> ->]|Hin]); [..|by apply elem_of_nil in Hin];
    unfold bbcode_to_md; string_normal;
    rewrite (sub_absent "[/img]"
               [Re.Lit "[img"; Re.Star is_dot; Re.Lit "]"; Re.Grp 1 (Re.Star is_dot)])
      by (eval_contains; reflexivity);
    (rewrite (sub_absent "[/url]"
                [Re.Lit "[url="; Re.Grp 1 (Re.Star is_dot); Re.Lit "]";
                 Re.Grp 2 (Re.Star is_dot)])
       by (eval_contains; reflexivity))
    || (rewrite (sub_first_absent "[url="
                   [Re.Grp 1 (Re.Star is_dot); Re.Lit "]"; Re.Grp 2 (Re.Star is_dot);
                    Re.Lit "[/url]"])
          by (eval_contains; reflexivity));
    cbn [foldl simple_tags]; unfold replace_tag; cbn [fst snd]; unfold newline;
    string_normal; eval_replace; reflexivity.
Qed.

Lemma simple_tag_pair_witness :
  bbcode_to_md "Returns the [code]item_count[/code] of the bag."
  = "Returns the `item_count` of the bag.".
Proof.
  apply (simple_tag_pair "code" "`" "Returns the " "item_count" " of the bag.");
    [|reflexivity..].
  unfold simple_tags. set_solver.
Defined.

(** *** The image tag *)

Lemma char_free_head c a t :
  contains (String c EmptyString) (String a t) = false ->
  Ascii.eqb c a = false /\ contains (String c EmptyString) t = false.
Proof.
  cbn [contains]. rewrite startswith_char. intros H. by apply orb_false_iff in H.
Qed.

Lemma startswith_head_false c sub s :
  startswith (String c EmptyString) s = false -> startswith (String c sub) s = false.
Proof.
  destruct s as [|a s]; [done|]. rewrite startswith_char. cbn [startswith].
  by intros ->.
Qed.

Lemma newline_free_dots t : contains newline t = false -> all_chars is_dot t = true.
Proof.
  induction t as [|a t IH]; intros H; [done|].
  apply char_free_head in H as [Ha Ht]. cbn [all_chars]. rewrite (IH Ht).
  unfold is_dot. by rewrite Ascii.eqb_sym, Ha.
Qed.

(** A run that can reach a later success keeps it: the longest run is tried
    first. *)
Lemma star_prefix_some p t X k o :
  all_chars p t = true -> Re.star p X k = Some o -> Re.star p (t +:+ X) k = Some o.
Proof.
  induction t as [|a t IH]; intros Ht HX; [by rewrite sapp_nil_l|].
  cbn [all_chars] in Ht. apply andb_true_iff in Ht as [Ha Ht].
  rewrite sapp_cons. cbn [Re.star]. by rewrite Ha, (IH Ht HX).
Qed.

(** A continuation that needs the character [c] first fails at the front
    of every stretch without it. *)
Lemma star_skip c p t X k :
  (forall s, startswith (String c EmptyString) s = false -> k s = None) ->
  contains (String c EmptyString) t = false -> all_chars p t = true ->
  Re.star p (t +:+ X) k = Re.star p X k.
Proof.
  intros Hk. induction t as [|a t IH]; intros Hc Ht; [by rewrite sapp_nil_l|].
  apply char_free_head in Hc as [Hca Hc].
  cbn [all_chars] in Ht. apply andb_true_iff in Ht as [Ha Ht].
  rewrite sapp_cons. cbn [Re.star]. rewrite Ha, (IH Hc Ht).
  destruct (Re.star p X k); [done|]. apply Hk. by rewrite startswith_char.
Qed.

Lemma star_fail c p s k :
  (forall s, startswith (String c EmptyString) s = false -> k s = None) ->
  contains (String c EmptyString) s = false -> Re.star p s k = None.
Proof.
  intros Hk. induction s as [|a s IH]; intros Hc; [by apply Hk|].
  pose proof Hc as Hc'. apply char_free_head in Hc' as [Hca Hs].
  cbn [Re.star]. rewrite (IH Hs).
  assert (k (String a s) = None) as -> by (apply Hk; by rewrite startswith_char).
  by destruct (p a).
Qed.

Lemma star_cons p a s k :
  p a = true ->
  Re.star p (String a s) k
  = match Re.star p s k with Some o => Some o | None => k (String a s) end.
Proof. intros H. cbn [Re.star]. by rewrite H. Qed.

Lemma sub_go_bracket_skip l r repl pre rest :
  contains "[" pre = false ->
  Re.sub_go (Re.Seq (Re.Lit (String "[" l)) r) repl (pre +:+ rest) O
  = pre +:+ Re.sub_go (Re.Seq (Re.Lit (String "[" l)) r) repl rest O.
Proof.
  induction pre as [|a pre IH]; intros H; [done|].
  apply bracket_free_head in H as [Ha Hpre]. rewrite !sapp_cons.
  cbn [Re.sub_go]. unfold Re.rmatch at 1. cbn [Re.run startswith].
  rewrite Ha. cbn [andb]. by rewrite (IH Hpre).
Qed.

Lemma sub_go_drop r repl w post :
  Re.sub_go r repl (w +:+ post) (len w) = Re.sub_go r repl post O.
Proof.
  induction w as [|a w IH]; [by rewrite sapp_nil_l|].
  rewrite sapp_cons. cbn [len Re.sub_go]. apply IH.
Qed.

Lemma sub_go_match r repl a w post c :
  Re.rmatch r (String a (w +:+ post)) = Some (post, c) ->
  Re.sub_go r repl (String a (w +:+ post)) O = repl c +:+ Re.sub_go r repl post O.
Proof.
  intros H. cbn [Re.sub_go]. rewrite H. f_equal.
  replace (len (String a (w +:+ post)) - len post - 1)%nat with (len w)
    by (cbn [len]; rewrite len_app; lia).
  apply sub_go_drop.
Qed.

Lemma rmatch_img attrs p post :
  contains newline attrs = false ->
  contains "[" p = false -> contains "]" p = false -> contains newline p = false ->
  contains "[" post = false -> contains "]" post = false ->
  Re.rmatch img_re ("[img" +:+ attrs +:+ "]" +:+ p +:+ "[/img]" +:+ post)
  = Some (post, [(1%nat, p)]).
Proof.
  intros Hattrs Hp1 Hp2 Hp3 Hpost1 Hpost2.
  pose proof (newline_free_dots _ Hp3) as Hdots.
  unfold Re.rmatch, img_re. cbn [Re.seq foldr Re.run].
  rewrite startswith_app, drop_app_len.
  apply star_prefix_some; [by apply newline_free_dots|].
  match goal with |- Re.star _ _ ?k = _ => set (K1 := k) end.
  assert (forall s, startswith "]" s = false -> K1 s = None) as Hk1.
  { intros s Hs. subst K1. cbn beta. by rewrite Hs. }
  rewrite sapp_cons, sapp_nil_l, star_cons by reflexivity.
  change (p +:+ "[/img]" +:+ post) with (p +:+ "[/img" +:+ "]" +:+ post) at 1.
  rewrite <- (sapp_assoc p "[/img" ("]" +:+ post)).
  rewrite (star_skip "]" is_dot (p +:+ "[/img") ("]" +:+ post) K1 Hk1)
    by (first [by rewrite contains_char_app, Hp2 | by rewrite all_chars_app, Hdots]).
  rewrite sapp_cons, sapp_nil_l, star_cons by reflexivity.
  rewrite (star_fail "]" is_dot post K1 Hk1 Hpost2).
  subst K1. cbn beta.
  change (String "]" post) with ("]" +:+ post).
  change (String "]" (p +:+ "[/img]" +:+ post)) with ("]" +:+ p +:+ "[/img]" +:+ post).
  rewrite !startswith_app, !drop_app_len.
  rewrite (star_fail "[" is_dot post)
    by (first [exact Hpost1
              | intros s Hs; cbn beta; by rewrite (startswith_head_false _ _ _ Hs)]).
  apply star_prefix_some; [done|].
  rewrite sapp_cons, star_cons by reflexivity.
  rewrite (star_fail "[" is_dot ("/img]" +:+ post))
    by (first [by rewrite contains_char_app, Hpost1
              | intros s Hs; cbn beta; by rewrite (startswith_head_false _ _ _ Hs)]).
  change (String "[" ("/img]" +:+ post)) with ("[/img]" +:+ post).
  rewrite startswith_app, drop_app_len.
  rewrite take_app_len. by destruct post.
Qed.

Lemma sub_bracket_free r l repl post :
  contains "[" post = false ->
  Re.sub_go (Re.Seq (Re.Lit (String "[" l)) r) repl post O = post.
Proof.
  intros H. rewrite <- (sapp_nil_r post) at 1.
  rewrite (sub_go_bracket_skip l r repl post EmptyString H). by rewrite sapp_nil_r.
Qed.

(** X22. An image tag with any attributes on its line, around a path without
    brackets or line feeds, inside a text without an opening bracket before
    it and without brackets after it, becomes a Markdown image with an empty
    caption; the attributes are dropped. *)
Theorem image_tag pre attrs p post :
  contains "[" pre = false ->
  contains newline attrs = false ->
  contains "[" p = false -> contains "]" p = false -> contains newline p = false ->
  contains "[" post = false -> contains "]" post = false ->
  bbcode_to_md (pre +:+ "[img" +:+ attrs +:+ "]" +:+ p +:+ "[/img]" +:+ post)
  = pre +:+ "![](" +:+ p +:+ ")" +:+ post.
Proof.
  intros Hpre Hattrs Hp1 Hp2 Hp3 Hpost1 Hpost2. unfold bbcode_to_md.
  pose proof (rmatch_img attrs p post Hattrs Hp1 Hp2 Hp3 Hpost1 Hpost2) as Hm.
  assert ("[img" +:+ attrs +:+ "]" +:+ p +:+ "[/img]" +:+ post
          = String "[" (("img" +:+ attrs +:+ "]" +:+ p +:+ "[/img]") +:+ post)) as E
    by (by rewrite !sapp_assoc).
  rewrite E in Hm |- *. clear E.
  unfold Re.sub at 2. unfold img_re in Hm |- *. cbn [Re.seq foldr] in Hm |- *.
  rewrite sub_go_bracket_skip by done.
  rewrite (sub_go_match _ _ _ _ _ _ Hm), sub_bracket_free by done.
  change (group_text 1 [(1%nat, p)]) with p. rewrite !sapp_assoc.
  rewrite (sub_absent "[/url]"
             [Re.Lit "[url="; Re.Grp 1 (Re.Star is_dot); Re.Lit "]";
              Re.Grp 2 (Re.Star is_dot)])
    by (string_normal; eval_contains; reflexivity).
  cbn [foldl simple_tags]. unfold replace_tag. cbn [fst snd]. unfold newline.
  string_normal. eval_replace. reflexivity.
Qed.

Lemma image_tag_witness :
  bbcode_to_md "Icon: [img width=32]res://icon.png[/img] (small)."
  = "Icon: ![](res://icon.png) (small).".
Proof.
  by apply (image_tag "Icon: " " width=32" "res://icon.png" " (small).").
Defined.

(** *** The link tag *)

Lemma rmatch_url target label post :
  contains newline target = false ->
  contains "[" label = false -> contains "]" label = false ->
  contains newline label = false ->
  contains "[" post = false -> contains "]" post = false ->
  Re.rmatch url_re ("[url=" +:+ target +:+ "]" +:+ label +:+ "[/url]" +:+ post)
  = Some (post, [(2%nat, label); (1%nat, target)]).
Proof.
  intros Htarget Hl1 Hl2 Hl3 Hpost1 Hpost2.
  pose proof (newline_free_dots _ Hl3) as Hdots.
  unfold Re.rmatch, url_re. cbn [Re.seq foldr Re.run].
  rewrite startswith_app, drop_app_len.
  match goal with |- Re.star _ ?s ?k = _ => set (K1 := k) end.
  assert (forall s, startswith "]" s = false -> K1 s = None) as Hk1.
  { intros s Hs. subst K1. cbn beta. by rewrite Hs. }
  apply star_prefix_some; [by apply newline_free_dots|].
  rewrite sapp_cons, sapp_nil_l, star_cons by reflexivity.
  change (label +:+ "[/url]" +:+ post) with (label +:+ "[/url" +:+ "]" +:+ post) at 1.
  rewrite <- (sapp_assoc label "[/url" ("]" +:+ post)).
  rewrite (star_skip "]" is_dot (label +:+ "[/url") ("]" +:+ post) K1 Hk1)
    by (first [by rewrite contains_char_app, Hl2 | by rewrite all_chars_app, Hdots]).
  rewrite sapp_cons, sapp_nil_l, star_cons by reflexivity.
  rewrite (star_fail "]" is_dot post K1 Hk1 Hpost2).
  subst K1. cbn beta.
  change (String "]" post) with ("]" +:+ post).
  change (String "]" (label +:+ "[/url]" +:+ post))
    with ("]" +:+ label +:+ "[/url]" +:+ post).
  rewrite !startswith_app, !drop_app_len.
  rewrite (star_fail "[" is_dot post)
    by (first [exact Hpost1
              | intros s Hs; cbn beta; by rewrite (startswith_head_false _ _ _ Hs)]).
  apply star_prefix_some; [done|].
  rewrite sapp_cons, star_cons by reflexivity.
  rewrite (star_fail "[" is_dot ("/url]" +:+ post))
    by (first [by rewrite contains_char_app, Hpost1
              | intros s Hs; cbn beta; by rewrite (startswith_head_false _ _ _ Hs)]).
  change (String "[" ("/url]" +:+ post)) with ("[/url]" +:+ post).
  rewrite startswith_app, drop_app_len.
  rewrite !take_app_len. by destruct post.
Qed.

(** Whether a bracketed name opens a text that starts with a bracketed
    label does not depend on what follows the label. *)
Lemma startswith_closing T : forall label rest,
  contains "]" T = false -> contains "]" label = false ->
  startswith (T +:+ "]") (label +:+ "]" +:+ rest) = String.eqb T label.
Proof.
  induction T as [|t T IH]; intros label rest HT Hl.
  - destruct label as [|a l]; [done|]. apply char_free_head in Hl as [Ha _].
    rewrite sapp_nil_l, (sapp_cons a l). cbn [startswith String.eqb].
    by rewrite Ha.
  - apply char_free_head in HT as [Ht HT]. destruct label as [|a l].
    + rewrite sapp_nil_l, (sapp_cons t T), (sapp_cons "]" EmptyString), sapp_nil_l.
      cbn [startswith String.eqb]. by rewrite Ascii.eqb_sym, Ht.
    + apply char_free_head in Hl as [_ Hl]. rewrite (sapp_cons t T), (sapp_cons a l).
      cbn [startswith String.eqb]. rewrite (IH l rest HT Hl).
      by destruct (Ascii.eqb t a).
Qed.

Lemma tag_not_in_link T pre label target post :
  contains "]" T = false ->
  contains "[" pre = false -> contains "[" label = false ->
  contains "]" label = false -> contains "[" target = false ->
  contains "[" post = false ->
  contains (String "[" (T +:+ "]")) (String "[" (label +:+ "]")) = false ->
  contains (String "[" (T +:+ "]"))
    (pre +:+ String "[" (label +:+ String "]" (String "(" (target +:+ String ")" post))))
  = false.
Proof.
  intros HT Hpre Hl1 Hl2 Htarget Hpost Hfree.
  apply contains_false_head in Hfree. cbn [startswith] in Hfree.
  rewrite Ascii.eqb_refl in Hfree. cbn [andb] in Hfree.
  rewrite <- (sapp_nil_r "]") in Hfree at 2.
  rewrite (startswith_closing T label EmptyString HT Hl2) in Hfree.
  rewrite contains_bracket_skip by done. cbn [contains].
  rewrite contains_bracket_skip by done.
  cbn [startswith]. rewrite Ascii.eqb_refl. cbn [andb].
  change (String "]" (String "(" (target +:+ String ")" post)))
    with ("]" +:+ String "(" (target +:+ String ")" post)).
  rewrite (startswith_closing T label _ HT Hl2), Hfree.
  rewrite sapp_cons, sapp_nil_l. cbn [contains startswith orb andb Ascii.eqb Bool.eqb].
  rewrite contains_bracket_skip by done.
  cbn [contains startswith orb andb Ascii.eqb Bool.eqb].
  by apply contains_bracket_none.
Qed.

Lemma simple_tags_absent text : forall tags,
  Forall (fun tag : string * string =>
            contains ("[" +:+ tag.1 +:+ "]") text = false
            /\ contains ("[/" +:+ tag.1 +:+ "]") text = false) tags ->
  foldl replace_tag text tags = text.
Proof.
  intros tags H. induction H as [|tag tags [Ho Hc] _ IH]; [done|].
  cbn [foldl]. unfold replace_tag at 2.
  rewrite (replace_absent _ _ _ Ho), (replace_absent _ _ _ Hc). exact IH.
Qed.

(** X23. A link tag whose target has no opening bracket or line feed and
    whose label has no bracket or line feed and is not itself the name of a
    tag, inside a text without an opening bracket before it and without
    brackets after it, becomes a Markdown link: the label in brackets, then
    the target in parentheses. *)
Theorem url_tag pre target label post :
  contains "[" pre = false ->
  contains "[" target = false -> contains newline target = false ->
  contains "[" label = false -> contains "]" label = false ->
  contains newline label = false ->
  tag_free ("[" +:+ label +:+ "]") ->
  contains "[" post = false -> contains "]" post = false ->
  bbcode_to_md (pre +:+ "[url=" +:+ target +:+ "]" +:+ label +:+ "[/url]" +:+ post)
  = pre +:+ "[" +:+ label +:+ "](" +:+ target +:+ ")" +:+ post.
Proof.
  intros Hpre Ht1 Ht2 Hl1 Hl2 Hl3 Hfree Hpost1 Hpost2. unfold bbcode_to_md.
  pose proof (rmatch_url target label post Ht2 Hl1 Hl2 Hl3 Hpost1 Hpost2) as Hm.
  rewrite (sub_absent "[/img]"
             [Re.Lit "[img"; Re.Star is_dot; Re.Lit "]"; Re.Grp 1 (Re.Star is_dot)])
    by (string_normal; eval_contains; reflexivity).
  assert ("[url=" +:+ target +:+ "]" +:+ label +:+ "[/url]" +:+ post
          = String "[" (("url=" +:+ target +:+ "]" +:+ label +:+ "[/url]") +:+ post)) as E
    by (by rewrite !sapp_assoc).
  rewrite E in Hm |- *. clear E.
  unfold Re.sub. unfold url_re in Hm |- *. cbn [Re.seq foldr] in Hm |- *.
  rewrite sub_go_bracket_skip by done.
  rewrite (sub_go_match _ _ _ _ _ _ Hm), sub_bracket_free by done.
  change (group_text 2 [(2%nat, label); (1%nat, target)]) with label.
  change (group_text 1 [(2%nat, label); (1%nat, target)]) with target.
  rewrite !sapp_assoc. string_normal.
  apply simple_tags_absent.
  unfold tag_free, recognized_tags in Hfree. cbn [flat_map simple_tags app fst] in Hfree.
  repeat (apply Forall_cons in Hfree as [? Hfree]). clear Hfree Hm.
  unfold simple_tags.
  repeat constructor; cbn [fst];
    match goal with
    | |- contains ("[" +:+ ?t +:+ "]") _ = false => apply (tag_not_in_link t)
    | |- contains ("[/" +:+ ?t +:+ "]") _ = false =>
        apply (tag_not_in_link (String "/" t))
    end; first [assumption | reflexivity].
Qed.

Lemma url_tag_witness :
  bbcode_to_md "See the [url=https://example.org/docs]online manual[/url] for more."
  = "See the [online manual](https://example.org/docs) for more.".
Proof.
  apply (url_tag "See the " "https://example.org/docs" "online manual" " for more.");
    try reflexivity.
  unfold tag_free, recognized_tags. cbn [flat_map simple_tags app fst].
  repeat constructor.
Defined.

